(** * FFTA: the cantilever simulator and the per-line fan-out

    A shallow embedding of [ffta/simulation/cantilever.py] (class
    [Cantilever]) and of [src/line.py] (class [Line]).

    Conventions of the embedding.
    - Python floats and ints are idealised as real numbers ([R]); rounding
      is not modelled.  [int(x)] is truncation towards zero, [np.mod] is
      the floored remainder.  Where rounding changes the result beyond its
      last digits (the wrap of [np.mod], the truncation of [int]), the same
      lines are also given on binary64 floats, in module [F64].
    - A Python dict is a [gmap string value] stored in a heap of dict
      objects; a variable holding a dict holds its location, so that two
      names for one dict see each other's updates.
    - An instance is its attribute dictionary ([__dict__]).
    - A method is a computation over the [world]: it returns a value or
      raises, and the mutations made before a [raise] persist. *)

From Stdlib Require Import Reals Lra Lia ZArith List.
From Stdlib Require Floats.
From stdpp Require Import base option gmap strings list fin_maps.

Local Open Scope string_scope.

(** ** Python values, exceptions and the execution monad *)

Abbreviation loc := positive.

(** An n-dimensional array: its shape and its elements in row-major order. *)
Record ndarray := mk_ndarray { shape : list nat; flat : list R }.

(** A float: a finite number, or what numpy's division by zero yields. *)
Inductive npfloat :=
| Fin (x : R)
| PInf
| NInf
| NaN.

Inductive value :=
| VNone
| VBool (b : bool)
| VInt (z : Z)
| VFloat (f : npfloat)
| VStr (s : string)
| VList (l : list R)
| VTuple (l : list R)
| VArr (a : ndarray)
| VEmptyDict                   (* the literal [{}] stored as a value *)
| VInfo (solver_report : list R)   (* the diagnostics dictionary of odeint *)
| VPixel                       (* the handle of the external analyzer *)
| VRef (l : loc).              (* a reference to a dict object *)

Abbreviation VNum x := (VFloat (Fin x)).

Inductive exn :=
| AttributeError (attr : string)
| KeyError (key : string)
| TypeError (msg : string)
| ValueError (msg : string)
| IndexError (msg : string)
| ZeroDivisionError
| OverflowError
| OutOfModel (what : string).   (* an execution the idealisation does not cover *)

Inductive outcome (A : Type) :=
| Ok (a : A)
| Raise (e : exn).
Arguments Ok {A} a.
Arguments Raise {A} e.

Record world := mk_world {
  attrs : gmap string value;              (* self.__dict__ *)
  heap : gmap loc (gmap string value);    (* the dict objects *)
  ode_calls : nat;                        (* number of odeint invocations *)
  stdout : list string                    (* lines printed *)
}.

Definition M (A : Type) := world -> outcome A * world.

Definition ret {A} (a : A) : M A := fun w => (Ok a, w).
Definition raise {A} (e : exn) : M A := fun w => (Raise e, w).
Definition bind {A B} (c : M A) (k : A -> M B) : M B :=
  fun w => match c w with
           | (Ok a, w') => k a w'
           | (Raise e, w') => (Raise e, w')
           end.

Notation "'let!' x ':=' c 'in' k" := (bind c (fun x => k))
  (at level 10, x name, c at level 100, k at level 200).
Notation "'do!' c 'in' k" := (bind c (fun _ => k))
  (at level 10, c at level 100, k at level 200).

Definition set_attrs (f : gmap string value -> gmap string value) : M unit :=
  fun w => (Ok tt, mk_world (f (attrs w)) (heap w) (ode_calls w) (stdout w)).
Definition set_heap (f : gmap loc (gmap string value) -> gmap loc (gmap string value)) : M unit :=
  fun w => (Ok tt, mk_world (attrs w) (f (heap w)) (ode_calls w) (stdout w)).
Definition print (s : string) : M unit :=
  fun w => (Ok tt, mk_world (attrs w) (heap w) (ode_calls w) (stdout w ++ [s])).
Definition count_ode_call : M unit :=
  fun w => (Ok tt, mk_world (attrs w) (heap w) (S (ode_calls w)) (stdout w)).

(** [self.name = v] *)
Definition setattr (name : string) (v : value) : M unit :=
  set_attrs (fun a => <[name := v]> a).

(** [self.name]; the attributes the code reads are instance attributes. *)
Definition getattr (name : string) : M value :=
  fun w => match attrs w !! name with
           | Some v => (Ok v, w)
           | None => (Raise (AttributeError name), w)
           end.

(** [hasattr(self, name)] *)
Definition hasattr (name : string) : M bool :=
  fun w => (Ok (bool_decide (is_Some (attrs w !! name))), w).

(** The finite number held by a value that is used in float arithmetic.
    The code produces a non-finite float only as the resolved trigger time
    [t0], which is read through [py_int_times] below; arithmetic on a
    non-finite float that a caller supplied is outside the idealisation. *)
Definition as_num (v : value) : M R :=
  match v with
  | VNum x => ret x
  | VInt z => ret (IZR z)
  | VBool b => ret (if b then 1%R else 0%R)
  | VFloat _ => raise (OutOfModel "arithmetic on a non-finite float")
  | _ => raise (TypeError "unsupported operand type")
  end.

Definition getnum (name : string) : M R := let! v := getattr name in as_num v.

(** Python's [/] on two Python floats. *)
Definition py_div (x y : R) : M R :=
  if Req_dec_T y 0 then raise ZeroDivisionError else ret (x / y)%R.

(** The dict object behind a reference. *)
Definition deref (l : loc) : M (gmap string value) :=
  fun w => match heap w !! l with
           | Some d => (Ok d, w)
           | None => (Raise (TypeError "not a dict"), w)
           end.

Definition as_ref (v : value) : M loc :=
  match v with
  | VRef l => ret l
  | _ => raise (TypeError "not a dict")
  end.

(** The dict behind [v.update(...)]: a value that is not a dict has no
    such method. *)
Definition as_updatable (v : value) : M loc :=
  match v with
  | VRef l => ret l
  | VEmptyDict => raise (OutOfModel "update of a dict literal held as a value")
  | _ => raise (AttributeError "update")
  end.

(** [d[key] = v] on the dict object at [l]. *)
Definition dict_setitem (l : loc) (key : string) (v : value) : M unit :=
  let! d := deref l in set_heap (fun h => <[l := <[key := v]> d]> h).

(** [d.update(src)] with keyword unpacking: every item of [src] is written into [d]; the
    items of [src] win. *)
Definition dict_update (l : loc) (src : loc) : M unit :=
  let! s := deref src in
  let! d := deref l in
  set_heap (fun h => <[l := s ∪ d]> h).

(** A fresh dict object, [{}]. *)
Definition new_dict : M loc :=
  fun w => let l := fresh (dom (heap w)) in
           (Ok l, mk_world (attrs w) (<[l := ∅]> (heap w)) (ode_calls w) (stdout w)).

(** ** numpy and builtin primitives *)

Local Open Scope R_scope.

(** [PI2 = 2 * float(np.pi)] *)
Definition PI2 : R := 2 * PI.

(** [int(x)] on a finite float: truncation towards zero.  The argument
    is the exact value; the program truncates the rounded one, which
    differs where a product falls just below an integer, see
    [F64.py_int]. *)
Definition py_int (x : R) : Z :=
  if Rle_dec 0 x then Int_part x else (- Int_part (- x))%Z.

(** [int(v * y)] where [v] may be a non-finite float. *)
Definition py_int_times (v : value) (y : R) : M Z :=
  match v with
  | VNum x => ret (py_int (x * y))
  | VInt z => ret (py_int (IZR z * y))
  | VBool b => ret (py_int ((if b then 1 else 0) * y))
  | VFloat NaN => raise (ValueError "cannot convert float NaN to integer")
  | VFloat _ =>
      if Req_dec_T y 0
      then raise (ValueError "cannot convert float NaN to integer")
      else raise OverflowError
  | _ => raise (TypeError "unsupported operand type")
  end.

(** [np.mod(x, m)]: the remainder has the sign of the divisor.  This is
    the exact remainder; on binary64 numbers, see [F64.np_mod]. *)
Definition np_mod (x m : R) : R := x - IZR (Int_part (x / m)) * m.

(** [np.divide(x, y)] and numpy's scalar [/], with divide='ignore'. *)
Definition np_divide (x y : R) : npfloat :=
  if Req_dec_T y 0 then
    if Rlt_dec 0 x then PInf
    else if Rlt_dec x 0 then NInf
    else NaN
  else Fin (x / y).

Definition np_arctan (f : npfloat) : npfloat :=
  match f with
  | Fin x => Fin (atan x)
  | PInf => Fin (PI / 2)
  | NInf => Fin (- (PI / 2))
  | NaN => NaN
  end.

Definition np_abs (f : npfloat) : npfloat :=
  match f with
  | Fin x => Fin (Rabs x)
  | PInf | NInf => PInf
  | NaN => NaN
  end.

(** [x + f] for a finite [x]. *)
Definition np_add (x : R) (f : npfloat) : npfloat :=
  match f with
  | Fin y => Fin (x + y)
  | other => other
  end.

(** [np.allclose(a, b)] on scalars, default tolerances. *)
Definition np_allclose (a b : R) : bool :=
  if Rle_dec (Rabs (a - b)) (1 / 100000000 + 1 / 100000 * Rabs b)
  then true else false.

(** [np.arange(n)] *)
Definition np_arange (n : Z) : list R :=
  map INR (seq 0 (Z.to_nat n)).

(** [np.linspace(start, stop, num=num)] *)
Definition linspace_values (start stop : R) (num : Z) : list R :=
  map (fun i => start + INR i * ((stop - start) / IZR (Z.max (num - 1) 1)))
      (seq 0 (Z.to_nat num)).

Definition np_linspace (start stop : R) (num : Z) : M (list R) :=
  if (num <? 0)%Z
  then raise (ValueError "Number of samples must be non-negative")
  else ret (linspace_values start stop num).

(** A slice bound as Python resolves it against a length. *)
Definition slice_bound (len : nat) (i : Z) : nat :=
  if (i <? 0)%Z then Z.to_nat (Z.max (i + Z.of_nat len) 0)
  else Nat.min (Z.to_nat i) len.

(** [l[start:stop]] *)
Definition py_slice {A} (l : list A) (start stop : Z) : list A :=
  let a := slice_bound (length l) start in
  let b := slice_bound (length l) stop in
  take (b - a) (drop a l).

(** [l[0::step]] for a positive step: elements 0, step, 2*step, ...;
    [skip] counts the elements still to pass over before the next pick. *)
Fixpoint decimate {A} (step skip : nat) (l : list A) : list A :=
  match l with
  | [] => []
  | x :: l' =>
      match skip with
      | O => x :: decimate step (step - 1) l'
      | S k => decimate step k l'
      end
  end.

(** *** Arrays *)

Definition array1 (l : list R) : ndarray := mk_ndarray [length l] l.

(** The rows of an array along its first axis: [n] rows of [c] elements. *)
Fixpoint chunks {A} (n c : nat) (l : list A) : list (list A) :=
  match n with
  | O => []
  | S n' => take c l :: chunks n' c (drop c l)
  end.

Definition row_size (a : ndarray) : nat := foldr Nat.mul 1%nat (tail (shape a)).

(** [a[0::step]] *)
Definition arr_step_slice (a : ndarray) (step : Z) : M ndarray :=
  match shape a with
  | [] => raise (IndexError "too many indices for array")
  | n :: rest =>
      if (step =? 0)%Z then raise (ValueError "slice step cannot be zero")
      else
        let rows := chunks n (row_size a) (flat a) in
        let rows' := if (step <? 0)%Z then take 1 rows
                     else decimate (Z.to_nat step) 0 rows in
        ret (mk_ndarray (length rows' :: rest) (concat rows'))
  end.

(** [a.reshape(n, 1)]; numpy takes a negative [n], whatever its value, as
    the dimension to infer. *)
Definition arr_reshape_column (a : ndarray) (n : Z) : M ndarray :=
  let size := length (flat a) in
  if (n <? 0)%Z then ret (mk_ndarray [size; 1%nat] (flat a))
  else if bool_decide (Z.to_nat n = size)
       then ret (mk_ndarray [Z.to_nat n; 1%nat] (flat a))
       else raise (ValueError "cannot reshape array").

(** [a / d] for a Python float [d]; with a zero divisor numpy fills the
    array with non-finite floats, which the element type does not hold:
    the element values are meaningful for a non-zero divisor only. *)
Definition arr_div (a : ndarray) (d : R) : ndarray :=
  mk_ndarray (shape a) (map (fun x => x / d) (flat a)).

Definition as_array (v : value) : M ndarray :=
  match v with
  | VArr a => ret a
  | _ => raise (TypeError "not an array")
  end.

Definition as_int (v : value) : M Z :=
  match v with
  | VInt z => ret z
  | VBool b => ret (if b then 1%Z else 0%Z)
  | _ => raise (TypeError "slice indices must be integers")
  end.

(** *** Truthiness, isinstance and len of the initial condition *)

(** [bool(v)], as the test [if Z0:] evaluates it.  An array of more than
    one element has no truth value; an array of one element has the truth
    value of that element; an empty array is false (with a deprecation
    warning in the numpy versions the code was written for). *)
Definition py_truth (v : value) : M bool :=
  match v with
  | VNone => ret false
  | VBool b => ret b
  | VInt z => ret (negb (z =? 0)%Z)
  | VNum x => ret (if Req_dec_T x 0 then false else true)
  | VFloat _ => ret true
  | VStr s => ret (negb (String.eqb s ""))
  | VList l | VTuple l => ret (negb (Nat.eqb (length l) 0))
  | VArr a =>
      match flat a with
      | [] => ret false
      | [x] => ret (if Req_dec_T x 0 then false else true)
      | _ => raise (ValueError "The truth value of an array with more than one element is ambiguous")
      end
  | VEmptyDict => ret false
  | VInfo _ | VPixel => ret true
  | VRef l => let! d := deref l in ret (negb (Nat.eqb (size d) 0))
  end.

(** [isinstance(v, (np.ndarray, list))] *)
Definition is_array_or_list (v : value) : bool :=
  match v with
  | VList _ | VArr _ => true
  | _ => false
  end.

(** [len(v)] for a value that passed the isinstance test. *)
Definition py_len (v : value) : M nat :=
  match v with
  | VList l => ret (length l)
  | VArr a =>
      match shape a with
      | [] => raise (TypeError "len() of unsized object")
      | n :: _ => ret n
      end
  | _ => raise (TypeError "object has no len()")
  end.

(** The initial state vector that odeint extracts from [y0]. *)
Definition as_state (v : value) : M (R * R) :=
  match v with
  | VList [z; v] => ret (z, v)
  | VArr (mk_ndarray [_] [z; v]) => ret (z, v)
  | _ => raise (ValueError "Initial condition y0 must be one-dimensional.")
  end.

(** ** The ODE integrator (scipy.integrate.odeint)

    The integrator is an external collaborator: what the code relies on is
    that it returns one row (position, velocity) per requested time
    point, together with a diagnostics dictionary. *)
Class OdeSolver := {
  odeint_rows : (R * R -> R -> R * R) -> R * R -> list R -> list (R * R);
  odeint_report : (R * R -> R -> R * R) -> R * R -> list R -> list R;
  odeint_rows_length :
    forall f y0 t, length (odeint_rows f y0 t) = length t
}.

(** A solver that satisfies the interface: explicit Euler steps. *)
Fixpoint euler_rows (f : R * R -> R -> R * R) (y : R * R) (tprev : R)
    (t : list R) : list (R * R) :=
  match t with
  | [] => []
  | tk :: t' =>
      let d := f y tprev in
      let y' := (fst y + (tk - tprev) * fst d, snd y + (tk - tprev) * snd d) in
      y' :: euler_rows f y' tk t'
  end.

Fixpoint euler_rows_length (f : R * R -> R -> R * R) (y : R * R) (tprev : R)
    (t : list R) : length (euler_rows f y tprev t) = length t :=
  match t with
  | [] => eq_refl
  | tk :: t' =>
      f_equal S (euler_rows_length f
                   (fst y + (tk - tprev) * fst (f y tprev),
                    snd y + (tk - tprev) * snd (f y tprev)) tk t')
  end.

#[export] Instance euler_solver : OdeSolver := {|
  odeint_rows f y0 t := euler_rows f y0 (hd 0 t) t;
  odeint_report _ _ t := [INR (length t)];
  odeint_rows_length f y0 t := euler_rows_length f y0 (hd 0 t) t
|}.

(** ** class Cantilever *)

(** The dict objects that exist once the class is defined: the three
    default arguments [params={}], [can_params={}], [fit_params={}] of
    [create_parameters] are evaluated once, at definition time. *)
Definition default_params : loc := 1%positive.
Definition default_can_params : loc := 2%positive.
Definition default_fit_params : loc := 3%positive.

Definition class_heap : gmap loc (gmap string value) :=
  <[default_params := ∅]> (<[default_can_params := ∅]> (<[default_fit_params := ∅]> ∅)).

(** The hard defaults of [create_parameters], in source order. *)
Definition _parameters : list (string * value) :=
  [("bandpass_filter", VNum 1);
   ("drive_freq", VInt 277261);
   ("filter_bandwidth", VNum 10000);
   ("n_taps", VInt 799);
   ("roi", VNum (3 / 10000));
   ("sampling_rate", VNum 10000000);
   ("total_time", VNum (2 / 1000));
   ("trigger", VNum (5 / 10000));
   ("window", VStr "blackman");
   ("wavelet_analysis", VInt 0);
   ("fft_params", VEmptyDict)].

Definition _can_params : list (string * value) :=
  [("amp_invols", VNum (552 / 10000000000));
   ("def_invols", VNum (506 / 10000000000));
   ("k", VNum (262 / 10));
   ("q_factor", VInt 432)].

Definition _fit_params : list (string * value) :=
  [("filter_amplitude", VBool true);
   ("method", VStr "hilbert");
   ("fit", VBool true);
   ("fit_form", VStr "product")].

(** One of the three loops of [create_parameters]:
      for key, val in defaults.items():
          if key not in target:
              if hasattr(self, key): target[key] = self.__dict__[key]
              else: target[key] = val *)
Fixpoint fill_defaults (target : loc) (defaults : list (string * value)) : M unit :=
  match defaults with
  | [] => ret tt
  | (key, val) :: rest =>
      let! d := deref target in
      do! (match d !! key with
           | Some _ => ret tt
           | None =>
               let! has := hasattr key in
               if has then let! v := getattr key in dict_setitem target key v
               else dict_setitem target key val
           end) in
      fill_defaults target rest
  end.

Definition create_parameters (params can_params fit_params : loc) : M unit :=
  do! fill_defaults params _parameters in
  do! fill_defaults can_params _can_params in
  do! fill_defaults fit_params _fit_params in
  (* then write to the Class *)
  let! p := getattr "parameters" in
  let! lp := as_updatable p in
  do! dict_update lp params in
  let! c := getattr "can_params" in
  let! lc := as_updatable c in
  do! dict_update lc can_params in
  let! f := getattr "fit_params" in
  let! lf := as_updatable f in
  dict_update lf fit_params.

(** [for key, value in d.items(): setattr(self, key, value)] *)
Definition setattr_items (d : loc) : M unit :=
  let! items := deref d in
  set_attrs (fun a => items ∪ a).

Definition __init__ (can_params force_params sim_params : loc) : M unit :=
  (* Initialize cantilever parameters and calculate some others. *)
  do! setattr_items can_params in
  let! res_freq := getnum "res_freq" in
  do! setattr "w0" (VNum (PI2 * res_freq)) in
  let! drive_freq := getnum "drive_freq" in
  do! setattr "wd" (VNum (PI2 * drive_freq)) in
  let! w0 := getnum "w0" in
  let! wd := getnum "wd" in
  do! (if np_allclose w0 wd then ret tt
       else print "Resonance and Drive not equal. Make sure simulation is long enough!") in
  let! q_factor := getnum "q_factor" in
  let! beta := py_div w0 (2 * q_factor) in
  do! setattr "beta" (VNum beta) in
  let! k := getnum "k" in
  let! mass := py_div k (w0 ^ 2) in
  do! setattr "mass" (VNum mass) in
  let! soft_amp := getnum "soft_amp" in
  let! amp_invols := getnum "amp_invols" in
  do! setattr "amp" (VNum (soft_amp * amp_invols)) in
  (* Calculate reduced driving force and phase in equilibrium. *)
  let! amp := getnum "amp" in
  do! setattr "f0" (VNum (amp * sqrt ((w0 ^ 2 - wd ^ 2) ^ 2 + 4 * beta ^ 2 * wd ^ 2))) in
  do! setattr "delta"
        (VFloat (np_abs (np_arctan (np_divide (2 * wd * beta) (w0 ^ 2 - wd ^ 2))))) in
  (* Initialize force parameters and calculate some others. *)
  do! setattr_items force_params in
  let! delta_freq := getnum "delta_freq" in
  do! setattr "delta_w" (VNum (PI2 * delta_freq)) in
  let! es_force := getnum "es_force" in
  let! mass := getnum "mass" in
  let! fe := py_div es_force mass in
  do! setattr "fe" (VNum fe) in
  (* Initialize simulation parameters. *)
  do! setattr_items sim_params in
  (* Calculate time axis for simulated tip motion without extra cycles *)
  let! total_time := getnum "total_time" in
  let! sampling_rate := getnum "sampling_rate" in
  let num_pts := py_int (total_time * sampling_rate) in
  let! t_Z := np_linspace 0 total_time num_pts in
  do! setattr "t_Z" (VArr (array1 t_Z)) in
  (* Calculate frequency axis for simulated tip_motion without extra cycles. *)
  let! freq_Z := np_linspace 0 (IZR (py_int (sampling_rate / 2)))
                   (py_int (IZR num_pts / 2 + 1)) in
  do! setattr "freq_Z" (VArr (array1 freq_Z)) in
  (* Create a Pixel class-compatible params file *)
  let! fit := new_dict in
  do! setattr "fit_params" (VRef fit) in
  do! setattr "parameters" (VRef force_params) in
  do! dict_update force_params sim_params in
  do! setattr "can_params" (VRef can_params) in
  let! p := getattr "parameters" in
  let! lp := as_ref p in
  let! c := getattr "can_params" in
  let! lc := as_ref c in
  create_parameters lp lc default_fit_params.

Definition set_conditions (trigger_phase : R) : M unit :=
  do! setattr "trigger_phase" (VNum (np_mod (PI * trigger_phase / 180) PI2)) in
  let! total_time := getnum "total_time" in
  let! sampling_rate := getnum "sampling_rate" in
  do! setattr "n_points" (VInt (py_int (total_time * sampling_rate))) in
  (* Add extra cycles to the simulation to find correct phase at trigger. *)
  let! res_freq := getnum "res_freq" in
  let! cycles := py_div (2 * sampling_rate) res_freq in
  let cycle_points := py_int cycles in
  let! n_points := let! v := getattr "n_points" in as_int v in
  do! setattr "n_points_sim" (VInt (cycle_points + n_points)) in
  (* Create time vector and find the trigger wrt phase. *)
  let! n_points_sim := let! v := getattr "n_points_sim" in as_int v in
  do! setattr "t" (VArr (arr_div (array1 (np_arange n_points_sim)) sampling_rate)) in
  (* Current phase at trigger. *)
  let! wd := getnum "wd" in
  let! trigger := getnum "trigger" in
  let! delta := getnum "delta" in
  let current_phase := np_mod (wd * trigger - delta) PI2 in
  let! trigger_phase := getnum "trigger_phase" in
  let phase_diff := np_mod (trigger_phase - current_phase) PI2 in
  (* modified trigger point *)
  do! setattr "t0" (VFloat (np_add trigger (np_divide phase_diff wd))) in
  (* Set the initial conditions at t=0. *)
  let! amp := getnum "amp" in
  let z0 := amp * sin (- delta) in
  let v0 := amp * wd * cos (- delta) in
  setattr "Z0" (VArr (array1 [z0; v0])).

(** The default force/frequency model.  [force] ignores [t0] and [tau]. *)
Definition force (f0 wd : R) (t : R) (t0 tau : value) : R :=
  f0 * sin (wd * t).

Definition omega (w0 : R) (t : R) (t0 tau : value) : R := w0.

(** The right-hand side, once the attributes it reads are fetched. *)
Definition dZ_dt (f0 wd w0 q_factor : R) (t0 tau : value) (Z : R * R) (t : R) : R * R :=
  let v := snd Z in
  let vdot := force f0 wd t t0 tau
              - omega w0 t t0 tau * snd Z / q_factor
              - omega w0 t t0 tau ^ 2 * fst Z in
  (v, vdot).

Section Simulate.
Context `{OdeSolver}.

(** [odeint(self.dZ_dt, self.Z0, self.t, full_output=True)].  The callback
    [dZ_dt] reads [self.t0], [self.tau], [self.q_factor] and, through
    [force] and [omega], [self.f0], [self.wd] and [self.w0] each time the
    integrator calls it; nothing changes them meanwhile, and they are
    fetched once, on entry. *)
Definition run_odeint : M (list (R * R) * list R) :=
  do! count_ode_call in
  let! y0 := let! v := getattr "Z0" in as_state v in
  let! t := let! v := getattr "t" in as_array v in
  let! t0 := getattr "t0" in
  let! tau := getattr "tau" in
  let! f0 := getnum "f0" in
  let! wd := getnum "wd" in
  let! w0 := getnum "w0" in
  let! q_factor := getnum "q_factor" in
  let rhs := dZ_dt f0 wd w0 q_factor t0 tau in
  ret (odeint_rows rhs y0 (flat t), odeint_report rhs y0 (flat t)).

Definition simulate (trigger_phase : R) (Z0 : value) : M (value * value) :=
  let! given := py_truth Z0 in
  do! (if given then
         do! (if is_array_or_list Z0 then ret tt
              else raise (TypeError "Must be 2-size array or list")) in
         let! n := py_len Z0 in
         do! (if Nat.eqb n 2 then ret tt
              else raise (ValueError "Must specify exactly [z0, v0]")) in
         let! total_time := getnum "total_time" in
         let! sampling_rate := getnum "sampling_rate" in
         do! setattr "n_points" (VInt (py_int (total_time * sampling_rate))) in
         let! n_points := let! v := getattr "n_points" in as_int v in
         do! setattr "t" (VArr (arr_div (array1 (np_arange n_points)) sampling_rate)) in
         let! trigger := getattr "trigger" in
         do! setattr "t0" trigger in
         setattr "Z0" Z0
       else set_conditions trigger_phase) in
  let! sol := run_odeint in
  let! t0 := getattr "t0" in
  let! sampling_rate := getnum "sampling_rate" in
  let! t0_idx := py_int_times t0 sampling_rate in
  let! trigger := getattr "trigger" in
  let! tidx := py_int_times trigger sampling_rate in
  let! n_points := let! v := getattr "n_points" in as_int v in
  let Z_cut := map fst (py_slice (fst sol) (t0_idx - tidx) (t0_idx + n_points - tidx)) in
  do! setattr "infodict" (VInfo (snd sol)) in
  do! setattr "Z" (VArr (array1 Z_cut)) in
  let! Z := getattr "Z" in
  let! infodict := getattr "infodict" in
  ret (Z, infodict).

End Simulate.

Definition downsample (target_rate : R) : M unit :=
  let! sampling_rate := getnum "sampling_rate" in
  do! (if Rgt_dec target_rate sampling_rate
       then raise (ValueError "Target should be less than the initial sampling rate")
       else ret tt) in
  let! ratio := py_div sampling_rate target_rate in
  let step := py_int ratio in
  let! total_time := getnum "total_time" in
  let n_points := py_int (total_time * target_rate) in
  let! Z := let! v := getattr "Z" in as_array v in
  let! picked := arr_step_slice Z step in
  let! column := arr_reshape_column picked n_points in
  let! def_invols := getnum "def_invols" in
  setattr "Z" (VArr (arr_div column def_invols)).

(** The keyword arguments of [analyze], routed by the three allow-lists;
    a key in none of them is dropped. *)
Definition param_keys : list string :=
  ["bandpass_filter"; "drive_freq"; "filter_bandwidth"; "n_taps";
   "roi"; "sampling_rate"; "total_time"; "trigger"; "window"; "wavelet_analysis";
   "fft_params"].
Definition can_param_keys : list string := ["amp_invols"; "def_invols"; "k"; "q_factor"].
Definition fit_param_keys : list string := ["filter_amplitude"; "method"; "fit"; "fit_form"].

Fixpoint route_kwargs (params can_params fit_params : loc)
    (kwargs : list (string * value)) : M unit :=
  match kwargs with
  | [] => ret tt
  | (k, v) :: rest =>
      do! (if bool_decide (k ∈ param_keys) then dict_setitem params k v
           else if bool_decide (k ∈ can_param_keys) then dict_setitem can_params k v
           else if bool_decide (k ∈ fit_param_keys) then dict_setitem fit_params k v
           else ret tt) in
      route_kwargs params can_params fit_params rest
  end.

(** [ffta.pixel.Pixel], as [analyze] uses it, is an external collaborator:
    building it from the waveform, the two bundles and the unpacked fit
    bundle returns a Pixel object or raises, and so do its methods
    [analyze] and [plot].  It sees the dict objects through the heap; what
    it may write into them is outside the model. *)
Class PixelClass := {
  pixel_new : gmap loc (gmap string value) -> value -> value -> value ->
              gmap string value -> outcome value;
  pixel_analyze : value -> outcome unit;
  pixel_plot : value -> outcome unit
}.

(** The outcome of a call on an external collaborator, in the monad. *)
Definition external {A} (o : outcome A) : M A := fun w => (o, w).

Section Analyze.
Context `{PixelClass}.

(** [analyze(plot, **kwargs)] *)
Definition analyze (plot : bool) (kwargs : list (string * value)) : M value :=
  let! params := new_dict in
  let! can_params := new_dict in
  let! fit_params := new_dict in
  do! route_kwargs params can_params fit_params kwargs in
  do! create_parameters params can_params fit_params in
  let! Z := getattr "Z" in
  let! p := getattr "parameters" in
  let! c := getattr "can_params" in
  let! f := getattr "fit_params" in
  let! lf := as_ref f in
  let! fit_kwargs := deref lf in
  let! pix := (fun w => (pixel_new (heap w) Z p c fit_kwargs, w)) in
  do! external (pixel_analyze pix) in
  do! (if plot then external (pixel_plot pix) else ret tt) in
  ret pix.

End Analyze.

(** ** Configurations and construction *)

Record CantileverConfig := {
  amp_invols : R; def_invols : R; soft_amp : R; drive_freq : R;
  res_freq : R; k : R; q_factor : R
}.

Record ForceConfig := {
  es_force : R; delta_freq : R; tau : R; v_dc : R; v_ac : R; v_cpd : R; dCdz : R
}.

Record SimConfig := { trigger : R; total_time : R; sampling_rate : R }.

Definition can_dict (c : CantileverConfig) : gmap string value :=
  <["amp_invols" := VNum (amp_invols c)]> (
  <["def_invols" := VNum (def_invols c)]> (
  <["soft_amp" := VNum (soft_amp c)]> (
  <["drive_freq" := VNum (drive_freq c)]> (
  <["res_freq" := VNum (res_freq c)]> (
  <["k" := VNum (k c)]> (
  <["q_factor" := VNum (q_factor c)]> ∅)))))).

Definition force_dict (f : ForceConfig) : gmap string value :=
  <["es_force" := VNum (es_force f)]> (
  <["delta_freq" := VNum (delta_freq f)]> (
  <["tau" := VNum (tau f)]> (
  <["v_dc" := VNum (v_dc f)]> (
  <["v_ac" := VNum (v_ac f)]> (
  <["v_cpd" := VNum (v_cpd f)]> (
  <["dCdz" := VNum (dCdz f)]> ∅)))))).

Definition sim_dict (s : SimConfig) : gmap string value :=
  <["trigger" := VNum (trigger s)]> (
  <["total_time" := VNum (total_time s)]> (
  <["sampling_rate" := VNum (sampling_rate s)]> ∅)).

(** The world in which a caller holds the three dictionaries at
    [lc], [lf] and [ls] and is about to construct an instance. *)
Definition caller_world (h : gmap loc (gmap string value)) : world :=
  mk_world ∅ h 0 [].


(** ** What the code computes, as pure functions

    The definitions below restate, as closed expressions, the values that
    the methods store; the lemmas of the second half of the file relate
    the methods to them. *)

(** The dict that one loop of [create_parameters] leaves in [target]. *)
Definition fill_one (a d : gmap string value) (kv : string * value) : gmap string value :=
  match d !! kv.1 with
  | Some _ => d
  | None => <[kv.1 := default kv.2 (a !! kv.1)]> d
  end.

Definition filled (a : gmap string value) (defaults : list (string * value))
    (d : gmap string value) : gmap string value :=
  foldl (fill_one a) d defaults.

(** The derived constants of the constructor. *)
Definition cfg_w0 (c : CantileverConfig) : R := PI2 * res_freq c.
Definition cfg_wd (c : CantileverConfig) : R := PI2 * drive_freq c.
Definition cfg_beta (c : CantileverConfig) : R := cfg_w0 c / (2 * q_factor c).
Definition cfg_mass (c : CantileverConfig) : R := k c / cfg_w0 c ^ 2.
Definition cfg_amp (c : CantileverConfig) : R := soft_amp c * amp_invols c.
Definition cfg_f0 (c : CantileverConfig) : R :=
  cfg_amp c * sqrt ((cfg_w0 c ^ 2 - cfg_wd c ^ 2) ^ 2 + 4 * cfg_beta c ^ 2 * cfg_wd c ^ 2).
Definition cfg_delta (c : CantileverConfig) : npfloat :=
  np_abs (np_arctan (np_divide (2 * cfg_wd c * cfg_beta c) (cfg_w0 c ^ 2 - cfg_wd c ^ 2))).

(** The attributes of an instance when the constructor returns. *)
Definition attrs_can (c : CantileverConfig) : gmap string value :=
  <["delta" := VFloat (cfg_delta c)]> (
  <["f0" := VNum (cfg_f0 c)]> (
  <["amp" := VNum (cfg_amp c)]> (
  <["mass" := VNum (cfg_mass c)]> (
  <["beta" := VNum (cfg_beta c)]> (
  <["wd" := VNum (cfg_wd c)]> (
  <["w0" := VNum (cfg_w0 c)]> (can_dict c))))))).

Definition attrs_force (c : CantileverConfig) (f : ForceConfig) : gmap string value :=
  <["fe" := VNum (es_force f / cfg_mass c)]> (
  <["delta_w" := VNum (PI2 * delta_freq f)]> (force_dict f ∪ attrs_can c)).

Definition attrs_sim (c : CantileverConfig) (f : ForceConfig) (s : SimConfig)
    : gmap string value :=
  let num_pts := py_int (total_time s * sampling_rate s) in
  <["freq_Z" := VArr (array1 (linspace_values 0 (IZR (py_int (sampling_rate s / 2)))
                                (py_int (IZR num_pts / 2 + 1))))]> (
  <["t_Z" := VArr (array1 (linspace_values 0 (total_time s) num_pts))]> (
  sim_dict s ∪ attrs_force c f)).

Definition init_attrs (c : CantileverConfig) (f : ForceConfig) (s : SimConfig)
    (lc lf fit : loc) : gmap string value :=
  <["can_params" := VRef lc]> (
  <["parameters" := VRef lf]> (
  <["fit_params" := VRef fit]> (attrs_sim c f s))).

(** The heap when the constructor returns: the caller's force dict has
    become the parameter bundle, the caller's cantilever dict the
    cantilever bundle, and the shared default of [fit_params] is filled. *)
Definition init_heap (c : CantileverConfig) (f : ForceConfig) (s : SimConfig)
    (lc lf : loc) (dfit : gmap string value) (h : gmap loc (gmap string value))
    : gmap loc (gmap string value) :=
  let fit := fresh (dom h) in
  let a := init_attrs c f s lc lf fit in
  <[fit := filled a _fit_params dfit]> (
  <[default_fit_params := filled a _fit_params dfit]> (
  <[lc := filled a _can_params (can_dict c)]> (
  <[lf := filled a _parameters (sim_dict s ∪ force_dict f)]> h))).

(** The resolution order that the specification gives for one key:
    the caller's value, else the instance attribute, else the hard default. *)
Definition resolve (explicit a : gmap string value) (key : string) (hard : value) : value :=
  match explicit !! key with
  | Some v => v
  | None =>
      match a !! key with
      | Some v => v
      | None => hard
      end
  end.

(** [round(x)] as the specification writes it: the nearest integer, a tie
    going to the even one. *)
Definition py_round (x : R) : Z :=
  let n := Int_part x in
  let r := x - IZR n in
  if Rlt_dec r (1 / 2) then n
  else if Rlt_dec (1 / 2) r then (n + 1)%Z
  else if Z.even n then n else (n + 1)%Z.

(** The quantities of one nominal [simulate] call (no initial condition),
    as functions of the attribute values it reads. *)
Definition sim_n_points (T sr : R) : Z := py_int (T * sr).
Definition sim_cycle_points (sr rf : R) : Z := py_int (2 * sr / rf).
Definition sim_phase_diff (tp wd trg dl : R) : R :=
  np_mod (np_mod (PI * tp / 180) PI2 - np_mod (wd * trg - dl) PI2) PI2.
Definition sim_t0 (tp wd trg dl : R) : R := trg + sim_phase_diff tp wd trg dl / wd.
Definition sim_offset (tp wd trg dl sr : R) : Z :=
  (py_int (sim_t0 tp wd trg dl * sr) - py_int (trg * sr))%Z.
Definition sim_time (T sr rf : R) : list R :=
  map (fun x => x / sr) (np_arange (sim_cycle_points sr rf + sim_n_points T sr)).

(** The attributes that [set_conditions] leaves. *)
Definition conditions_attrs (tp T sr rf wd trg dl amp : R) (a : gmap string value)
    : gmap string value :=
  <["Z0" := VArr (array1 [amp * sin (- dl); amp * wd * cos (- dl)])]> (
  <["t0" := VNum (sim_t0 tp wd trg dl)]> (
  <["t" := VArr (arr_div (array1 (np_arange (sim_cycle_points sr rf + sim_n_points T sr))) sr)]> (
  <["n_points_sim" := VInt (sim_cycle_points sr rf + sim_n_points T sr)]> (
  <["n_points" := VInt (sim_n_points T sr)]> (
  <["trigger_phase" := VNum (np_mod (PI * tp / 180) PI2)]> a))))).
Definition sim_stop (tp wd trg dl sr T : R) : Z :=
  (py_int (sim_t0 tp wd trg dl * sr) + sim_n_points T sr - py_int (trg * sr))%Z.

(** A computation that cannot raise a given exception. *)
Definition never_raises {A} (e : exn) (c : M A) : Prop :=
  forall w w', c w <> (Raise e, w').

(** The input-validation error of [downsample]. *)
Definition validation_error : exn :=
  ValueError "Target should be less than the initial sampling rate".

(** The heap that a call of [create_parameters] on six distinct dict
    objects leaves: the three argument dicts are filled, then written
    into the three bundles. *)
Definition consolidated_heap (a : gmap string value) (h : gmap loc (gmap string value))
    (p c f bp bc bf : loc) (dp dc df Bp Bc Bf : gmap string value)
    : gmap loc (gmap string value) :=
  <[bf := filled a _fit_params df ∪ Bf]> (
  <[bc := filled a _can_params dc ∪ Bc]> (
  <[bp := filled a _parameters dp ∪ Bp]> (
  <[f := filled a _fit_params df]> (
  <[c := filled a _can_params dc]> (
  <[p := filled a _parameters dp]> h))))).

(** The world of an instance: its attributes and the heap it shares
    with its caller and with the other instances. *)
Definition instance_world (self : gmap string value) (h : gmap loc (gmap string value))
    : world :=
  mk_world self h 0 [].

(** ** The concrete scenario of the documentation

    [res_freq = drive_freq = 277261 Hz], [k = 26.2 N/m], [q_factor = 432],
    [sampling_rate = 1e7], [total_time = 0.002 s], [trigger = 0.0005 s]. *)
Definition scenario_can : CantileverConfig := {|
  amp_invols := 552 / 10000000000;
  def_invols := 506 / 10000000000;
  soft_amp := 3 / 10;
  drive_freq := 277261;
  res_freq := 277261;
  k := 262 / 10;
  q_factor := 432
|}.

Definition scenario_force : ForceConfig := {|
  es_force := 372 / 10000000000;
  delta_freq := -170;
  tau := 1 / 100000;
  v_dc := 3;
  v_ac := 2;
  v_cpd := 1 / 2;
  dCdz := 1 / 10000000000
|}.

Definition scenario_sim : SimConfig := {|
  trigger := 5 / 10000;
  total_time := 2 / 1000;
  sampling_rate := 10000000
|}.

(** The caller's three dictionaries live at locations 4, 5 and 6. *)
Definition caller_heap (c : CantileverConfig) (f : ForceConfig) (s : SimConfig)
    : gmap loc (gmap string value) :=
  <[6%positive := sim_dict s]> (
  <[5%positive := force_dict f]> (
  <[4%positive := can_dict c]> class_heap)).

(** A cantilever driven at its resonance of 1 kHz, simulated for 2.7
    sample periods. *)
Definition khz_can : CantileverConfig := {|
  amp_invols := 552 / 10000000000;
  def_invols := 506 / 10000000000;
  soft_amp := 3 / 10;
  drive_freq := 1000;
  res_freq := 1000;
  k := 262 / 10;
  q_factor := 432
|}.

Definition short_sim : SimConfig := {|
  trigger := 1 / 10000;
  total_time := 27 / 100000;
  sampling_rate := 10000
|}.

(** A cantilever with a 1 kHz resonance driven at 100 Hz: one drive period
    is 100 samples, the pre-roll of two resonance cycles is 20 samples. *)
Definition slow_drive_can : CantileverConfig := {|
  amp_invols := 552 / 10000000000;
  def_invols := 506 / 10000000000;
  soft_amp := 3 / 10;
  drive_freq := 100;
  res_freq := 1000;
  k := 262 / 10;
  q_factor := 432
|}.

Definition slow_drive_sim : SimConfig := {|
  trigger := 1 / 1000;
  total_time := 1 / 100;
  sampling_rate := 10000
|}.

(** 2.86 sample periods at 11 kHz, which are 2.6 periods at 10 kHz. *)
Definition odd_rate_sim : SimConfig := {|
  trigger := 1 / 10000;
  total_time := 26 / 100000;
  sampling_rate := 11000
|}.

(** An instance that holds a four-sample waveform taken at 1 kHz. *)
Definition four_sample_world : world :=
  mk_world (<["Z" := VArr (array1 [1; 2; 3; 4])]> (
            <["def_invols" := VNum 2]> (
            <["total_time" := VNum (4 / 1000)]> (
            <["sampling_rate" := VNum 1000]> ∅))))
           ∅ 1 [].

(** A caller that, besides the three configuration dictionaries, holds
    the dictionaries it will pass to two consolidation calls:
    [{'roi': 0.004}], [{}], [{}] for the first, three empty ones for the
    second. *)
Definition overrides_heap : gmap loc (gmap string value) :=
  <[12%positive := ∅]> (<[11%positive := ∅]> (<[10%positive := ∅]> (
  <[9%positive := ∅]> (<[8%positive := ∅]> (
  <[7%positive := <["roi" := VNum (4 / 1000)]> ∅]> (
  caller_heap scenario_can scenario_force scenario_sim)))))).

(** A caller that holds the configuration of two cantilevers: the 1 kHz
    one at locations 4, 5, 6 and the 277261 Hz one at 7, 8, 9. *)
Definition two_instances_heap : gmap loc (gmap string value) :=
  <[9%positive := sim_dict scenario_sim]> (
  <[8%positive := force_dict scenario_force]> (
  <[7%positive := can_dict scenario_can]> (
  caller_heap khz_can scenario_force short_sim))).

(** An instance with its three bundles at 14, 15, 16 and an attribute
    [drive_freq], and a caller that passes the dicts at 11, 12, 13. *)
Definition consolidating_world : world :=
  mk_world
    (<["parameters" := VRef 14%positive]> (
     <["can_params" := VRef 15%positive]> (
     <["fit_params" := VRef 16%positive]> (
     <["drive_freq" := VNum 1000]> ∅))))
    (<[11%positive := <["roi" := VNum (4 / 1000)]> ∅]> (
     <[12%positive := ∅]> (<[13%positive := ∅]> (
     <[14%positive := <["es_force" := VNum 1]> (<["roi" := VNum 1]> ∅)]> (
     <[15%positive := ∅]> (<[16%positive := ∅]> ∅))))))
    0 [].

(** ** class Line (line.py)

    The per-pixel analyzer [pixel.Pixel] is an external collaborator: it
    is built from one pixel's signals and the parameter dictionary, and
    its [get_tfp] returns a time-to-first-peak and a frequency shift, or
    raises. *)
Class PixelAnalyzer := {
  pixel_get_tfp : ndarray -> gmap string value -> outcome (R * R)
}.

Record line := mk_line {
  signal_array : ndarray;
  n_pixels : Z;
  params : gmap string value;
  tfp : list R;
  shift : list R
}.

(** [np.empty(n)]: [n] entries whose content is not specified; the code
    overwrites each of them before it returns them. *)
Definition np_empty (n : Z) : outcome (list R) :=
  if (n <? 0)%Z then Raise (ValueError "negative dimensions are not allowed")
  else Ok (repeat 0 (Z.to_nat n)).

(** [Line.__init__] *)
Definition Line (signal : ndarray) (n : Z) (p : gmap string value) : outcome line :=
  match np_empty n with
  | Raise e => Raise e
  | Ok empty_tfp =>
      match np_empty n with
      | Raise e => Raise e
      | Ok empty_shift => Ok (mk_line signal n p empty_tfp empty_shift)
      end
  end.

(** Columns [from, from + width) of a two-dimensional array. *)
Definition column_block (a : ndarray) (nrow ncol from width : nat) : ndarray :=
  mk_ndarray [nrow; width]
    (concat (map (fun row => take width (drop from row)) (chunks nrow ncol (flat a)))).

(** [np.split(a, sections, axis=1)] on a two-dimensional array. *)
Definition np_split_columns (a : ndarray) (sections : Z) : outcome (list ndarray) :=
  match shape a with
  | [] | [_] => Raise (IndexError "tuple index out of range")
  | [nrow; ncol] =>
      if (sections =? 0)%Z then Raise ZeroDivisionError
      else if negb (Z.of_nat ncol mod sections =? 0)%Z
      then Raise (ValueError "array split does not result in an equal division")
      else if (sections <? 0)%Z
      then Raise (ValueError "number sections must be larger than 0.")
      else
        let width := (ncol / Z.to_nat sections)%nat in
        Ok (map (fun i => column_block a nrow ncol (i * width) width)
                (seq 0 (Z.to_nat sections)))
  | _ => Raise (OutOfModel "an array of more than two dimensions")
  end.

(** [a[i] = x] on a one-dimensional array. *)
Definition setitem (a : list R) (i : nat) (x : R) : outcome (list R) :=
  if bool_decide (i < length a)%nat then Ok (<[i := x]> a)
  else Raise (IndexError "index is out of bounds").

Section LineMethods.
Context `{PixelAnalyzer}.

(** The loop of [get_tfp]:
      for i, pix in enumerate(pixel_signals):
          p = pixel.Pixel(pix, self.params)
          self.tfp[i], self.shift[i] = p.get_tfp() *)
Fixpoint analyse_pixels (i : nat) (pixels : list ndarray) (l : line)
    : outcome unit * line :=
  match pixels with
  | [] => (Ok tt, l)
  | pix :: rest =>
      match pixel_get_tfp pix (params l) with
      | Raise e => (Raise e, l)
      | Ok (t, s) =>
          match setitem (tfp l) i t with
          | Raise e => (Raise e, l)
          | Ok tfp' =>
              let l1 := mk_line (signal_array l) (n_pixels l) (params l) tfp' (shift l) in
              match setitem (shift l1) i s with
              | Raise e => (Raise e, l1)
              | Ok shift' =>
                  analyse_pixels (S i) rest
                    (mk_line (signal_array l1) (n_pixels l1) (params l1) (tfp l1) shift')
              end
          end
      end
  end.

Definition get_tfp (l : line) : outcome (list R * list R) * line :=
  (* Split the signal array into pixels. *)
  match np_split_columns (signal_array l) (n_pixels l) with
  | Raise e => (Raise e, l)
  | Ok pixel_signals =>
      (* Iterate over pixels and return tFP and shift arrays. *)
      match analyse_pixels 0 pixel_signals l with
      | (Raise e, l') => (Raise e, l')
      | (Ok _, l') => (Ok (tfp l', shift l'), l')
      end
  end.

End LineMethods.

(** The analyzer's results on a list of pixel segments, when it succeeds
    on each of them. *)
Fixpoint analyzer_results `{PixelAnalyzer} (pixels : list ndarray)
    (p : gmap string value) : option (list (R * R)) :=
  match pixels with
  | [] => Some []
  | pix :: rest =>
      match pixel_get_tfp pix p, analyzer_results rest p with
      | Ok r, Some rs => Some (r :: rs)
      | _, _ => None
      end
  end.

(** An analyzer for the examples: the first sample of the pixel and the
    number of its samples. *)
Definition counting_analyzer : PixelAnalyzer := {|
  pixel_get_tfp pix _ := Ok (hd 0 (flat pix), INR (length (flat pix)))
|}.

(** A line of two rows and four columns. *)
Definition example_signal : ndarray :=
  mk_ndarray [2%nat; 4%nat] [1; 2; 3; 4; 5; 6; 7; 8].
(** ** The steady-state motion

    [set_conditions] takes the initial conditions "from the analytical
    solution" of the driven damped oscillator: the position
    [amp * sin(wd * t - delta)], evaluated with its velocity at [t = 0]. *)
Definition steady_z (amp wd dl : R) (t : R) : R := amp * sin (wd * t - dl).
Definition steady_v (amp wd dl : R) (t : R) : R := amp * wd * cos (wd * t - dl).
Definition steady_a (amp wd dl : R) (t : R) : R := - (amp * wd ^ 2 * sin (wd * t - dl)).

(** A constructed instance, seen without its heap. *)
Definition constructed (c : CantileverConfig) (f : ForceConfig) (s : SimConfig) : world :=
  instance_world (init_attrs c f s 4%positive 5%positive 7%positive) ∅.

(** A computation that leaves the state as it is, whatever it returns. *)
Definition readonly {A} (c : M A) : Prop := forall w, (c w).2 = w.

(** A computation that changes nothing but the attribute [name], and
    nothing at all when it raises. *)
Definition assigns_on_success {A} (name : string) (c : M A) : Prop :=
  forall w,
    heap (c w).2 = heap w /\ ode_calls (c w).2 = ode_calls w /\
    stdout (c w).2 = stdout w /\
    (forall key, key <> name -> attrs (c w).2 !! key = attrs w !! key) /\
    (forall e, (c w).1 = Raise e -> (c w).2 = w).

(** The documented cantilever with a quality factor of zero. *)
Definition zero_q_can : CantileverConfig := {|
  amp_invols := 552 / 10000000000;
  def_invols := 506 / 10000000000;
  soft_amp := 3 / 10;
  drive_freq := 277261;
  res_freq := 277261;
  k := 262 / 10;
  q_factor := 0
|}.

(** The advisory that the constructor prints. *)
Definition advisory : string :=
  "Resonance and Drive not equal. Make sure simulation is long enough!".

(** The three dicts that the routing loop of [analyze] builds from the
    keyword arguments, starting from [d]. *)
Definition routed_params (d : gmap string value) (kwargs : list (string * value))
    : gmap string value :=
  foldl (fun d kv => if bool_decide (kv.1 ∈ param_keys) then <[kv.1 := kv.2]> d else d)
        d kwargs.

Definition routed_can_params (d : gmap string value) (kwargs : list (string * value))
    : gmap string value :=
  foldl (fun d kv => if bool_decide (kv.1 ∈ param_keys) then d
                     else if bool_decide (kv.1 ∈ can_param_keys) then <[kv.1 := kv.2]> d
                     else d)
        d kwargs.

Definition routed_fit_params (d : gmap string value) (kwargs : list (string * value))
    : gmap string value :=
  foldl (fun d kv => if bool_decide (kv.1 ∈ param_keys) then d
                     else if bool_decide (kv.1 ∈ can_param_keys) then d
                     else if bool_decide (kv.1 ∈ fit_param_keys) then <[kv.1 := kv.2]> d
                     else d)
        d kwargs.

(** A keyword that one of the three allow-lists of [analyze] names. *)
Definition recognized (kv : string * value) : bool :=
  bool_decide (kv.1 ∈ param_keys) || bool_decide (kv.1 ∈ can_param_keys)
  || bool_decide (kv.1 ∈ fit_param_keys).

(** The three calls of [analyze] on the Pixel, in sequence. *)
Definition pixel_calls `{PixelClass} (plot : bool) (h : gmap loc (gmap string value))
    (Z p c : value) (fit_kwargs : gmap string value) : outcome value :=
  match pixel_new h Z p c fit_kwargs with
  | Raise e => Raise e
  | Ok pix =>
      match pixel_analyze pix with
      | Raise e => Raise e
      | Ok _ =>
          if plot then
            match pixel_plot pix with
            | Raise e => Raise e
            | Ok _ => Ok pix
            end
          else Ok pix
      end
  end.

(** A Pixel for the examples: it is built from anything, and its calls
    return. *)
Definition stub_pixel : PixelClass := {|
  pixel_new _ _ _ _ _ := Ok VPixel;
  pixel_analyze _ := Ok tt;
  pixel_plot _ := Ok tt
|}.

(** An instance with its three bundles at 14, 15, 16, a stored waveform
    and an attribute [drive_freq]. *)
Definition analysed_world : world :=
  mk_world
    (<["Z" := VArr (array1 [1; 2])]> (
     <["parameters" := VRef 14%positive]> (
     <["can_params" := VRef 15%positive]> (
     <["fit_params" := VRef 16%positive]> (
     <["drive_freq" := VNum 1000]> ∅)))))
    (<[14%positive := <["es_force" := VNum 1]> (<["roi" := VNum 1]> ∅)]> (
     <[15%positive := ∅]> (<[16%positive := ∅]> class_heap)))
    0 [].

(** An analyzer that finds no peak in a pixel whose first sample is 3. *)
Definition picky_analyzer : PixelAnalyzer := {|
  pixel_get_tfp pix _ :=
    if Req_dec_T (hd 0 (flat pix)) 3 then Raise (ValueError "no peak")
    else Ok (hd 0 (flat pix), INR (length (flat pix)))
|}.

(** A line of one row and three columns. *)
Definition three_columns : ndarray := mk_ndarray [1%nat; 3%nat] [1; 2; 3].

(** A cantilever with a 1 kHz resonance driven at 2 kHz. *)
Definition fast_drive_can : CantileverConfig := {|
  amp_invols := 552 / 10000000000;
  def_invols := 506 / 10000000000;
  soft_amp := 3 / 10;
  drive_freq := 2000;
  res_freq := 1000;
  k := 262 / 10;
  q_factor := 432
|}.


(** ** The arithmetic of [set_conditions] on binary64 floats

    [np.mod] and [int] are discontinuous, so that a rounding error in
    their argument can move the result by a whole modulus, or by one.
    The lines of [set_conditions] that compute the sample count, the
    normalised trigger phase and the resolved trigger time are given here
    as the program evaluates them, on IEEE 754 binary64 numbers. *)
Module F64.
Import PrimFloat SpecFloat FloatOps.
Local Open Scope float_scope.

(** [float(np.pi)] and [PI2 = 2 * float(np.pi)] *)
Definition pi : float := 0x1.921fb54442d18p+1.
Definition PI2 : float := 2 * pi.

(** C's [fmod] on finite numbers, the divisor not zero: the remainder of
    the magnitudes, computed exactly (it is a binary64 number), with the
    sign of the dividend. *)
Definition fmod (x y : float) : float :=
  match Prim2SF x, Prim2SF y with
  | S754_finite sx mx ex, S754_finite _ my ey =>
      let e := Z.min ex ey in
      let X := (Zpos mx * 2 ^ (ex - e))%Z in
      let Y := (Zpos my * 2 ^ (ey - e))%Z in
      let r := Z.ldexp (of_uint63 (Uint63.of_Z (X mod Y))) e in
      if sx then - r else r
  | S754_zero _, S754_finite _ _ _ => x
  | S754_finite _ _ _, S754_infinity _ => x
  | S754_zero _, S754_infinity _ => x
  | _, _ => nan
  end.

(** [np.mod(x, m)] on floats: [fmod], moved by the modulus when its sign
    differs from the sign of the modulus; a zero takes the sign of the
    modulus. *)
Definition np_mod (x m : float) : float :=
  let r := fmod x m in
  if is_nan r then r
  else if is_zero r then (if m <? 0 then - 0 else 0)
  else if Bool.eqb (m <? 0) (r <? 0) then r
  else r + m.

(** [int(x)] on a float: truncation towards zero; [None] stands for the
    exception that an infinity or a NaN raises. *)
Definition py_int (x : float) : option Z :=
  match Prim2SF x with
  | S754_zero _ => Some 0%Z
  | S754_finite s m e =>
      let v := (if (0 <=? e)%Z then Zpos m * 2 ^ e else Zpos m / 2 ^ (- e))%Z in
      Some (if s then (- v)%Z else v)
  | _ => None
  end.

(** [self.n_points = int(self.total_time * self.sampling_rate)] *)
Definition n_points (total_time sampling_rate : float) : option Z :=
  py_int (total_time * sampling_rate).

(** [self.wd = PI2 * self.drive_freq] *)
Definition wd (drive_freq : float) : float := PI2 * drive_freq.


(** The attributes [trigger_phase] and [t0] that [set_conditions] stores:
      self.trigger_phase = np.mod(np.pi * trigger_phase / 180, PI2)
      current_phase = np.mod(self.wd * self.trigger - self.delta, PI2)
      phase_diff = np.mod(self.trigger_phase - current_phase, PI2)
      self.t0 = self.trigger + phase_diff / self.wd
    The other attributes it stores do not depend on its argument. *)
Definition set_conditions (wd trigger delta : float) (trigger_phase : float)
    : float * float :=
  let trigger_phase := np_mod (pi * trigger_phase / 180) PI2 in
  let current_phase := np_mod (wd * trigger - delta) PI2 in
  let phase_diff := np_mod (trigger_phase - current_phase) PI2 in
  (trigger_phase, trigger + phase_diff / wd).

End F64.
(** ** Stepping through the monad *)

Lemma bind_ok {A B} (c : M A) (k : A -> M B) w a w' :
  c w = (Ok a, w') -> bind c k w = k a w'.
Proof. unfold bind. now intros ->. Qed.

Lemma bind_raise {A B} (c : M A) (k : A -> M B) w e w' :
  c w = (Raise e, w') -> bind c k w = (Raise e, w').
Proof. unfold bind. now intros ->. Qed.

Lemma getattr_some name v w :
  attrs w !! name = Some v -> getattr name w = (Ok v, w).
Proof. unfold getattr. now intros ->. Qed.

Lemma getattr_none name w :
  attrs w !! name = None -> getattr name w = (Raise (AttributeError name), w).
Proof. unfold getattr. now intros ->. Qed.

Lemma getnum_num name x w :
  attrs w !! name = Some (VNum x) -> getnum name w = (Ok x, w).
Proof. intros E. unfold getnum. now rewrite (bind_ok _ _ _ _ _ (getattr_some _ _ _ E)). Qed.

Lemma getnum_int name z w :
  attrs w !! name = Some (VInt z) -> getnum name w = (Ok (IZR z), w).
Proof. intros E. unfold getnum. now rewrite (bind_ok _ _ _ _ _ (getattr_some _ _ _ E)). Qed.

Lemma py_div_ok x y w : y <> 0 -> py_div x y w = (Ok (x / y), w).
Proof. intros Hy. unfold py_div. now destruct (Req_dec_T y 0). Qed.

Lemma py_div_zero x w : py_div x 0 w = (Raise ZeroDivisionError, w).
Proof. unfold py_div. now destruct (Req_dec_T 0 0). Qed.

Lemma deref_some l d w :
  heap w !! l = Some d -> deref l w = (Ok d, w).
Proof. unfold deref. now intros ->. Qed.

Lemma setattr_eq name v w :
  setattr name v w =
    (Ok tt, mk_world (<[name := v]> (attrs w)) (heap w) (ode_calls w) (stdout w)).
Proof. reflexivity. Qed.

Lemma setattr_items_ok l d w :
  heap w !! l = Some d ->
  setattr_items l w = (Ok tt, mk_world (d ∪ attrs w) (heap w) (ode_calls w) (stdout w)).
Proof.
  intros E. unfold setattr_items.
  now rewrite (bind_ok _ _ _ _ _ (deref_some _ _ _ E)).
Qed.

Lemma dict_update_ok l src s d w :
  heap w !! src = Some s -> heap w !! l = Some d ->
  dict_update l src w =
    (Ok tt, mk_world (attrs w) (<[l := s ∪ d]> (heap w)) (ode_calls w) (stdout w)).
Proof.
  intros Es Ed. unfold dict_update.
  rewrite (bind_ok _ _ _ _ _ (deref_some _ _ _ Es)).
  now rewrite (bind_ok _ _ _ _ _ (deref_some _ _ _ Ed)).
Qed.

Lemma dict_setitem_ok l key v d w :
  heap w !! l = Some d ->
  dict_setitem l key v w =
    (Ok tt, mk_world (attrs w) (<[l := <[key := v]> d]> (heap w)) (ode_calls w) (stdout w)).
Proof.
  intros Ed. unfold dict_setitem.
  now rewrite (bind_ok _ _ _ _ _ (deref_some _ _ _ Ed)).
Qed.

Lemma new_dict_eq w :
  new_dict w =
    (Ok (fresh (dom (heap w))),
     mk_world (attrs w) (<[fresh (dom (heap w)) := ∅]> (heap w)) (ode_calls w) (stdout w)).
Proof. reflexivity. Qed.

Lemma fresh_loc_ne (h : gmap loc (gmap string value)) l d :
  h !! l = Some d -> fresh (dom h) <> l.
Proof.
  intros E Heq. apply (is_fresh (dom h)). rewrite Heq.
  apply elem_of_dom. eauto.
Qed.

Lemma warn_eq (b : bool) s w :
  (if b then ret tt else print s) w =
    (Ok tt, mk_world (attrs w) (heap w) (ode_calls w)
              (stdout w ++ if b then [] else [s])).
Proof.
  destruct b; unfold ret, print; simpl.
  - rewrite app_nil_r. now destruct w.
  - reflexivity.
Qed.

(** One loop of [create_parameters] never raises on a dict object, and
    leaves [filled] in it. *)
Lemma fill_defaults_spec target defs w d :
  heap w !! target = Some d ->
  fill_defaults target defs w =
    (Ok tt, mk_world (attrs w) (<[target := filled (attrs w) defs d]> (heap w))
              (ode_calls w) (stdout w)).
Proof.
  revert w d. induction defs as [|[key val] defs IH]; intros w d Hd.
  - simpl. rewrite insert_id by done. now destruct w.
  - cbn [fill_defaults].
    rewrite (bind_ok _ _ _ _ _ (deref_some _ _ _ Hd)).
    destruct (d !! key) as [v|] eqn:E.
    + erewrite bind_ok by reflexivity.
      rewrite (IH w d Hd). simpl. unfold fill_one. simpl. now rewrite E.
    + unfold hasattr, dict_setitem, set_heap.
      destruct (attrs w !! key) as [v|] eqn:Ea.
      * erewrite bind_ok; cycle 1.
        { erewrite bind_ok by reflexivity.
          rewrite bool_decide_true by eauto.
          erewrite bind_ok by (apply getattr_some; eassumption).
          erewrite bind_ok by (apply deref_some; eassumption). reflexivity. }
        erewrite IH by (simpl; apply lookup_insert_eq).
        simpl. rewrite insert_insert_eq. unfold fill_one. simpl. now rewrite E, Ea.
      * erewrite bind_ok; cycle 1.
        { erewrite bind_ok by reflexivity.
          rewrite bool_decide_false by (intros [? ?]; congruence).
          erewrite bind_ok by (apply deref_some; eassumption). reflexivity. }
        erewrite IH by (simpl; apply lookup_insert_eq).
        simpl. rewrite insert_insert_eq. unfold fill_one. simpl. now rewrite E, Ea.
Qed.

(** *** Real-number facts about the primitives *)

Lemma PI2_pos : 0 < PI2.
Proof. unfold PI2. pose proof PI_RGT_0. lra. Qed.

Lemma py_int_nonneg_eq x : 0 <= x -> py_int x = Int_part x.
Proof. intros Hx. unfold py_int. now destruct (Rle_dec 0 x). Qed.

Lemma Int_part_bounds x : IZR (Int_part x) <= x < IZR (Int_part x) + 1.
Proof.
  pose proof (base_Int_part x) as [H1 H2]. lra.
Qed.

Lemma Int_part_unique x z : IZR z <= x < IZR z + 1 -> Int_part x = z.
Proof.
  intros [H1 H2]. symmetry. apply Int_part_spec. lra.
Qed.

Lemma py_int_nonneg x : 0 <= x -> (0 <= py_int x)%Z.
Proof.
  intros Hx. rewrite py_int_nonneg_eq by assumption.
  pose proof (Int_part_bounds x) as [H1 H2].
  apply le_IZR. 
  assert (-1 < IZR (Int_part x)) by lra.
  assert (-1 < Int_part x)%Z by (apply lt_IZR; lra). 
  apply IZR_le. lia.
Qed.

Lemma np_linspace_ok a b num w :
  (0 <= num)%Z ->
  np_linspace a b num w =
    (Ok (linspace_values a b num), w).
Proof.
  intros Hn. unfold np_linspace.
  destruct (num <? 0)%Z eqn:E; [apply Z.ltb_lt in E; lia | reflexivity].
Qed.


(** Tactics that run a method one statement at a time. *)
Ltac wsimp := cbn [attrs heap ode_calls stdout].

Ltac look :=
  wsimp;
  repeat (rewrite lookup_insert_ne by (clear; discriminate));
  first [ apply lookup_insert_eq | eassumption | reflexivity ].

Ltac hlook :=
  repeat first [ rewrite lookup_insert_eq | rewrite lookup_insert_ne by congruence ].

Ltac step_with lem := erewrite bind_ok by (apply lem; look); wsimp.
Ltac step_set := erewrite bind_ok by apply setattr_eq; wsimp.
Ltac step_pure := erewrite bind_ok by reflexivity; wsimp.

(** ** The constructor, run on a typed configuration *)

Section Construct.
Variables (cc : CantileverConfig) (fc : ForceConfig) (sc : SimConfig).
Variables (h : gmap loc (gmap string value)) (lc lf ls : loc).
Variable dfit : gmap string value.
Hypothesis Hc : h !! lc = Some (can_dict cc).
Hypothesis Hf : h !! lf = Some (force_dict fc).
Hypothesis Hs : h !! ls = Some (sim_dict sc).
Hypothesis Hd : h !! default_fit_params = Some dfit.
Hypothesis Hlcf : lc <> lf.
Hypothesis Hdc : default_fit_params <> lc.
Hypothesis Hdf : default_fit_params <> lf.
Hypothesis Hres : res_freq cc <> 0.
Hypothesis Hq : q_factor cc <> 0.
Hypothesis Hk : k cc <> 0.
Hypothesis Hn : 0 <= total_time sc * sampling_rate sc.

Lemma cfg_w0_sq_ne : cfg_w0 cc ^ 2 <> 0.
Proof.
  unfold cfg_w0. pose proof PI2_pos. 
  apply pow_nonzero. apply Rmult_integral_contrapositive. split; [lra | assumption].
Qed.

Lemma cfg_mass_ne : cfg_mass cc <> 0.
Proof.
  unfold cfg_mass. pose proof cfg_w0_sq_ne.
  unfold Rdiv. apply Rmult_integral_contrapositive. split; [assumption|].
  now apply Rinv_neq_0_compat.
Qed.

Lemma construct_spec :
  __init__ lc lf ls (caller_world h) =
    (Ok tt,
     mk_world (init_attrs cc fc sc lc lf (fresh (dom h)))
              (init_heap cc fc sc lc lf dfit h)
              0
              (if np_allclose (cfg_w0 cc) (cfg_wd cc) then []
               else ["Resonance and Drive not equal. Make sure simulation is long enough!"])).
Proof.
  unfold __init__, caller_world.
  erewrite bind_ok by (apply setattr_items_ok; exact Hc). wsimp.
  rewrite (right_id_L ∅ (∪)). unfold can_dict.
  step_with getnum_num. step_set.
  step_with getnum_num. step_set.
  step_with getnum_num. step_with getnum_num.
  erewrite bind_ok by apply warn_eq. wsimp.
  step_with getnum_num.
  erewrite bind_ok by (apply py_div_ok; lra). step_set.
  step_with getnum_num.
  erewrite bind_ok by (apply py_div_ok; apply cfg_w0_sq_ne). step_set.
  step_with getnum_num. step_with getnum_num. step_set.
  step_with getnum_num. step_set. step_set.
  erewrite bind_ok by (apply setattr_items_ok; exact Hf). wsimp.
  unfold force_dict. repeat rewrite <- insert_union_l. rewrite (left_id_L ∅ (∪)).
  step_with getnum_num. step_set.
  step_with getnum_num. step_with getnum_num.
  erewrite bind_ok by (apply py_div_ok; apply cfg_mass_ne). step_set.
  erewrite bind_ok by (apply setattr_items_ok; exact Hs). wsimp.
  unfold sim_dict. repeat rewrite <- insert_union_l. rewrite (left_id_L ∅ (∪)).
  step_with getnum_num. step_with getnum_num.
  erewrite bind_ok by (apply np_linspace_ok; apply py_int_nonneg; exact Hn). step_set.
  erewrite bind_ok; cycle 1.
  { apply np_linspace_ok. apply py_int_nonneg.
    pose proof (py_int_nonneg _ Hn) as Hz. apply IZR_le in Hz. lra. }
  step_set.
  erewrite bind_ok by apply new_dict_eq. wsimp. step_set. step_set.
  pose proof (fresh_loc_ne _ _ _ Hc) as Nc.
  pose proof (fresh_loc_ne _ _ _ Hf) as Nf.
  pose proof (fresh_loc_ne _ _ _ Hs) as Ns.
  pose proof (fresh_loc_ne _ _ _ Hd) as Nd.
  set (fit := fresh (dom h)) in *.
  erewrite bind_ok; cycle 1.
  { apply dict_update_ok; wsimp; rewrite lookup_insert_ne by congruence; eassumption. }
  wsimp. step_set.
  match goal with |- context [mk_world ?a _ _ _] =>
    replace a with (init_attrs cc fc sc lc lf fit)
      by (unfold init_attrs, attrs_sim, attrs_force, attrs_can, can_dict, force_dict,
            sim_dict, cfg_f0, cfg_delta, cfg_amp, cfg_mass, cfg_beta, cfg_wd, cfg_w0;
          cbv zeta; repeat rewrite <- insert_union_l; rewrite ?(left_id_L ∅ (∪));
          reflexivity)
  end.
  assert (Ap : init_attrs cc fc sc lc lf fit !! "parameters" = Some (VRef lf))
    by (unfold init_attrs; look).
  assert (Ac : init_attrs cc fc sc lc lf fit !! "can_params" = Some (VRef lc))
    by (unfold init_attrs; look).
  assert (Af : init_attrs cc fc sc lc lf fit !! "fit_params" = Some (VRef fit))
    by (unfold init_attrs; look).
  set (A := init_attrs cc fc sc lc lf fit) in *.
  step_with getattr_some. erewrite bind_ok by reflexivity.
  step_with getattr_some. erewrite bind_ok by reflexivity.
  unfold create_parameters.
  erewrite bind_ok by (apply fill_defaults_spec; wsimp; apply lookup_insert_eq). wsimp.
  erewrite bind_ok; cycle 1.
  { apply fill_defaults_spec; wsimp. rewrite !lookup_insert_ne by congruence. eassumption. }
  wsimp.
  erewrite bind_ok; cycle 1.
  { apply fill_defaults_spec; wsimp. rewrite !lookup_insert_ne by congruence. eassumption. }
  wsimp.
  step_with getattr_some. erewrite bind_ok by reflexivity.
  erewrite bind_ok; cycle 1.
  { apply dict_update_ok; wsimp.
    - rewrite !lookup_insert_ne by congruence. apply lookup_insert_eq.
    - rewrite !lookup_insert_ne by congruence. apply lookup_insert_eq. }
  wsimp.
  step_with getattr_some. erewrite bind_ok by reflexivity.
  erewrite bind_ok; cycle 1.
  { apply dict_update_ok; wsimp.
    - rewrite !lookup_insert_ne by congruence. apply lookup_insert_eq.
    - rewrite !lookup_insert_ne by congruence. apply lookup_insert_eq. }
  wsimp.
  step_with getattr_some. erewrite bind_ok by reflexivity.
  erewrite dict_update_ok; cycle 1.
  { wsimp. rewrite !lookup_insert_ne by congruence. apply lookup_insert_eq. }
  { wsimp. rewrite !lookup_insert_ne by congruence. apply lookup_insert_eq. }
  wsimp. rewrite !(idemp_L (∪)), (right_id_L ∅ (∪)).
  f_equal. f_equal.
  - unfold init_heap. fold fit. fold A.
    apply map_eq. intros i.
    destruct (decide (i = fit)) as [->|Hi1]; [hlook; reflexivity|].
    destruct (decide (i = lc)) as [->|Hi2]; [hlook; reflexivity|].
    destruct (decide (i = lf)) as [->|Hi3]; [hlook; reflexivity|].
    destruct (decide (i = default_fit_params)) as [->|Hi4]; [hlook; reflexivity|].
    hlook; reflexivity.
Qed.
End Construct.

(** ** The consolidator *)

Lemma fill_one_lookup_ne a d kv key :
  kv.1 <> key -> fill_one a d kv !! key = d !! key.
Proof.
  intros Hne. unfold fill_one. destruct (d !! kv.1); [reflexivity|].
  now rewrite lookup_insert_ne.
Qed.

Lemma filled_lookup_notin a defaults d key :
  key ∉ defaults.*1 -> filled a defaults d !! key = d !! key.
Proof.
  revert d. induction defaults as [|kv defaults IH]; intros d Hnot; [reflexivity|].
  simpl in *. apply not_elem_of_cons in Hnot as [Hne Hnot].
  unfold filled in *. simpl. rewrite IH by assumption.
  apply fill_one_lookup_ne. congruence.
Qed.

Lemma filled_lookup_in a defaults d key hard :
  NoDup defaults.*1 -> (key, hard) ∈ defaults ->
  filled a defaults d !! key = Some (resolve d a key hard).
Proof.
  revert d. induction defaults as [|[k0 v0] defaults IH]; intros d Hnd Hin.
  - now apply elem_of_nil in Hin.
  - simpl in Hnd. apply NoDup_cons in Hnd as [Hk0 Hnd].
    apply elem_of_cons in Hin as [Heq|Hin].
    + inversion Heq; subst k0 v0. unfold filled. simpl.
      fold (filled a defaults (fill_one a d (key, hard))).
      rewrite filled_lookup_notin by assumption.
      unfold fill_one, resolve. simpl.
      destruct (d !! key) as [v|] eqn:E; [assumption|].
      rewrite lookup_insert_eq. now destruct (a !! key).
    + assert (k0 <> key).
      { intros ->. apply Hk0. apply list_elem_of_fmap. now exists (key, hard). }
      unfold filled. simpl. fold (filled a defaults (fill_one a d (k0, v0))).
      rewrite (IH _ Hnd Hin). f_equal. unfold resolve.
      now rewrite fill_one_lookup_ne.
Qed.

Lemma parameters_keys_nodup : NoDup _parameters.*1.
Proof. apply NoDup_ListNoDup. repeat constructor; simpl; intuition discriminate. Qed.

Lemma can_params_keys_nodup : NoDup _can_params.*1.
Proof. apply NoDup_ListNoDup. repeat constructor; simpl; intuition discriminate. Qed.

Lemma fit_params_keys_nodup : NoDup _fit_params.*1.
Proof. apply NoDup_ListNoDup. repeat constructor; simpl; intuition discriminate. Qed.

Section CreateParameters.
Variables (w : world) (p c f bp bc bf : loc).
Variables (dp dc df Bp Bc Bf : gmap string value).
Hypothesis Ap : attrs w !! "parameters" = Some (VRef bp).
Hypothesis Ac : attrs w !! "can_params" = Some (VRef bc).
Hypothesis Af : attrs w !! "fit_params" = Some (VRef bf).
Hypothesis Hp : heap w !! p = Some dp.
Hypothesis Hc : heap w !! c = Some dc.
Hypothesis Hf : heap w !! f = Some df.
Hypothesis Hbp : heap w !! bp = Some Bp.
Hypothesis Hbc : heap w !! bc = Some Bc.
Hypothesis Hbf : heap w !! bf = Some Bf.
Hypothesis Hdistinct : List.NoDup [p; c; f; bp; bc; bf].

Lemma create_parameters_spec :
  create_parameters p c f w =
    (Ok tt, mk_world (attrs w)
              (consolidated_heap (attrs w) (heap w) p c f bp bc bf dp dc df Bp Bc Bf)
              (ode_calls w) (stdout w)).
Proof.
  assert (p <> c /\ p <> f /\ p <> bp /\ p <> bc /\ p <> bf /\ c <> f /\ c <> bp /\
          c <> bc /\ c <> bf /\ f <> bp /\ f <> bc /\ f <> bf /\ bp <> bc /\
          bp <> bf /\ bc <> bf) as (?&?&?&?&?&?&?&?&?&?&?&?&?&?&?).
  { repeat match goal with
           | H : List.NoDup (_ :: _) |- _ => inversion H; subst; clear H
           end.
    simpl in *. intuition congruence. }
  unfold create_parameters, consolidated_heap.
  erewrite bind_ok by (apply fill_defaults_spec; eassumption). wsimp.
  erewrite bind_ok by (apply fill_defaults_spec; wsimp; hlook; eassumption). wsimp.
  erewrite bind_ok by (apply fill_defaults_spec; wsimp; hlook; eassumption). wsimp.
  erewrite bind_ok by (apply getattr_some; eassumption). step_pure.
  erewrite bind_ok by (apply dict_update_ok; wsimp; hlook; first [eassumption|reflexivity]).
  wsimp.
  erewrite bind_ok by (apply getattr_some; eassumption). step_pure.
  erewrite bind_ok by (apply dict_update_ok; wsimp; hlook; first [eassumption|reflexivity]).
  wsimp.
  erewrite bind_ok by (apply getattr_some; eassumption). step_pure.
  erewrite dict_update_ok by (wsimp; hlook; first [eassumption|reflexivity]).
  reflexivity.
Qed.

End CreateParameters.

(** ** Derived constants at exact resonance *)

Lemma init_attrs_lookup_can cc fc sc lc lf fit key v :
  attrs_can cc !! key = Some v ->
  force_dict fc !! key = None -> sim_dict sc !! key = None ->
  key <> "fe" -> key <> "delta_w" -> key <> "freq_Z" -> key <> "t_Z" ->
  key <> "can_params" -> key <> "parameters" -> key <> "fit_params" ->
  init_attrs cc fc sc lc lf fit !! key = Some v.
Proof.
  intros Hv Hf Hs. intros. unfold init_attrs, attrs_sim, attrs_force. cbv zeta.
  rewrite !lookup_insert_ne by congruence.
  rewrite lookup_union_r by assumption.
  rewrite !lookup_insert_ne by congruence.
  now rewrite lookup_union_r by assumption.
Qed.

Ltac can_attr :=
  apply init_attrs_lookup_can;
  [ unfold attrs_can, can_dict; look
  | unfold force_dict; reflexivity | unfold sim_dict; reflexivity
  | .. ]; clear; discriminate.

Lemma resonance_delta cc :
  res_freq cc <> 0 -> q_factor cc <> 0 -> drive_freq cc = res_freq cc ->
  cfg_delta cc = Fin (PI / 2).
Proof.
  intros Hres Hq Heq. unfold cfg_delta, cfg_wd, cfg_beta, cfg_w0. rewrite Heq.
  replace ((PI2 * res_freq cc) ^ 2 - (PI2 * res_freq cc) ^ 2) with 0 by ring.
  unfold np_divide. destruct (Req_dec_T 0 0) as [_|N]; [|now elim N].
  pose proof PI_RGT_0 as Hpi.
  assert (Habs : Rabs (PI / 2) = PI / 2) by (apply Rabs_right; lra).
  assert (Habs' : Rabs (- (PI / 2)) = PI / 2) by (rewrite Rabs_Ropp; exact Habs).
  destruct (Rlt_dec 0 _) as [Hpos|Hnpos]; simpl; [now rewrite Habs|].
  destruct (Rlt_dec _ 0) as [Hneg|Hnneg]; simpl; [now rewrite Habs'|].
  exfalso.
  assert (Hz : 2 * (PI2 * res_freq cc) * (PI2 * res_freq cc / (2 * q_factor cc)) = 0) by lra.
  pose proof PI2_pos.
  assert (Hw : PI2 * res_freq cc <> 0) by (apply Rmult_integral_contrapositive; split; lra).
  replace (2 * (PI2 * res_freq cc) * (PI2 * res_freq cc / (2 * q_factor cc)))
    with ((PI2 * res_freq cc) * (PI2 * res_freq cc) * / q_factor cc) in Hz by (field; assumption).
  apply Rmult_integral in Hz as [Hz|Hz].
  - apply Rmult_integral in Hz as [Hz|Hz]; contradiction.
  - now apply (Rinv_neq_0_compat (q_factor cc)).
Qed.

Lemma resonance_f0 cc :
  0 < q_factor cc -> drive_freq cc = res_freq cc ->
  cfg_f0 cc = cfg_amp cc * 2 * cfg_beta cc * cfg_wd cc.
Proof.
  intros Hq Heq. unfold cfg_f0.
  assert (Hw : cfg_wd cc = cfg_w0 cc) by (unfold cfg_wd, cfg_w0; now rewrite Heq).
  rewrite Hw.
  replace ((cfg_w0 cc ^ 2 - cfg_w0 cc ^ 2) ^ 2 + 4 * cfg_beta cc ^ 2 * cfg_w0 cc ^ 2)
    with ((2 * cfg_beta cc * cfg_w0 cc) * (2 * cfg_beta cc * cfg_w0 cc)) by ring.
  rewrite sqrt_square; [ring|].
  unfold cfg_beta.
  replace (2 * (cfg_w0 cc / (2 * q_factor cc)) * cfg_w0 cc)
    with (cfg_w0 cc * cfg_w0 cc * / q_factor cc) by (field; lra).
  apply Rmult_le_pos; [nra|]. left. now apply Rinv_0_lt_compat.
Qed.

(** C5. When the drive frequency equals the resonance frequency, the
    constructor returns normally despite the division by zero in the
    phase-lag formula, and the derived constants are [delta = PI/2] and
    [f0 = amp * 2 * beta * wd] (for a configuration within the data model:
    non-zero resonance frequency and spring constant, positive quality
    factor, non-negative sample count). *)
Theorem resonance_construction
    (cc : CantileverConfig) (fc : ForceConfig) (sc : SimConfig)
    (h : gmap loc (gmap string value)) (lc lf ls : loc) (dfit : gmap string value)
    (Hc : h !! lc = Some (can_dict cc))
    (Hf : h !! lf = Some (force_dict fc))
    (Hs : h !! ls = Some (sim_dict sc))
    (Hd : h !! default_fit_params = Some dfit)
    (Hlcf : lc <> lf) (Hdc : default_fit_params <> lc) (Hdf : default_fit_params <> lf)
    (Hres : res_freq cc <> 0) (Hq : 0 < q_factor cc) (Hk : k cc <> 0)
    (Hn : 0 <= total_time sc * sampling_rate sc)
    (Heq : drive_freq cc = res_freq cc) :
  exists w amp beta wd,
    __init__ lc lf ls (caller_world h) = (Ok tt, w) /\
    attrs w !! "w0" = Some (VNum wd) /\
    attrs w !! "wd" = Some (VNum wd) /\
    attrs w !! "amp" = Some (VNum amp) /\
    attrs w !! "beta" = Some (VNum beta) /\
    attrs w !! "delta" = Some (VNum (PI / 2)) /\
    attrs w !! "f0" = Some (VNum (amp * 2 * beta * wd)).
Proof.
  eexists _, (cfg_amp cc), (cfg_beta cc), (cfg_wd cc).
  split.
  { eapply construct_spec; eauto. lra. }
  wsimp.
  assert (Hw : cfg_w0 cc = cfg_wd cc) by (unfold cfg_wd, cfg_w0; now rewrite Heq).
  repeat match goal with |- _ /\ _ => split end.
  - rewrite <- Hw. can_attr.
  - can_attr.
  - can_attr.
  - can_attr.
  - rewrite <- (resonance_delta cc) by (assumption || lra). can_attr.
  - rewrite <- resonance_f0 by assumption. can_attr.
Qed.

Lemma resonance_construction_witness :
  exists w amp beta wd,
    __init__ 4%positive 5%positive 6%positive (caller_world (caller_heap scenario_can scenario_force scenario_sim))
      = (Ok tt, w) /\
    attrs w !! "w0" = Some (VNum wd) /\
    attrs w !! "wd" = Some (VNum wd) /\
    attrs w !! "amp" = Some (VNum amp) /\
    attrs w !! "beta" = Some (VNum beta) /\
    attrs w !! "delta" = Some (VNum (PI / 2)) /\
    attrs w !! "f0" = Some (VNum (amp * 2 * beta * wd)).
Proof.
  apply (resonance_construction scenario_can scenario_force scenario_sim
           (caller_heap scenario_can scenario_force scenario_sim) 4%positive 5%positive 6%positive ∅);
    try reflexivity; try (clear; discriminate); simpl; lra.
Defined.

(** ** The phase trigger solver is 360-degree periodic *)

Lemma Int_part_plus_1 x : Int_part (x + 1) = (Int_part x + 1)%Z.
Proof.
  apply Int_part_unique. rewrite plus_IZR.
  pose proof (Int_part_bounds x). lra.
Qed.

Lemma Int_part_minus_1 x : Int_part (x - 1) = (Int_part x - 1)%Z.
Proof.
  apply Int_part_unique. rewrite minus_IZR.
  pose proof (Int_part_bounds x). lra.
Qed.

Lemma np_mod_plus_period x m : m <> 0 -> np_mod (x + m) m = np_mod x m.
Proof.
  intros Hm. unfold np_mod.
  replace ((x + m) / m) with (x / m + 1) by (field; assumption).
  rewrite Int_part_plus_1, plus_IZR. ring.
Qed.

Lemma np_mod_minus_period x m : m <> 0 -> np_mod (x - m) m = np_mod x m.
Proof.
  intros Hm. unfold np_mod.
  replace ((x - m) / m) with (x / m - 1) by (field; assumption).
  rewrite Int_part_minus_1, minus_IZR. ring.
Qed.

Lemma np_mod_range x m : 0 < m -> 0 <= np_mod x m < m.
Proof.
  intros Hm. unfold np_mod.
  pose proof (Int_part_bounds (x / m)) as [H1 H2].
  assert (Hx : x = x / m * m) by (field; lra).
  split.
  - assert (IZR (Int_part (x / m)) * m <= x / m * m) by (apply Rmult_le_compat_r; lra). lra.
  - assert (x / m * m < (IZR (Int_part (x / m)) + 1) * m) by (apply Rmult_lt_compat_r; lra). lra.
Qed.

(** The normalised trigger phase, as the first statement of
    [set_conditions] computes it. *)
Lemma normalised_phase_plus_360 tp :
  np_mod (PI * (tp + 360) / 180) PI2 = np_mod (PI * tp / 180) PI2.
Proof.
  replace (PI * (tp + 360) / 180) with (PI * tp / 180 + PI2) by (unfold PI2; field).
  apply np_mod_plus_period. pose proof PI2_pos. lra.
Qed.

Lemma normalised_phase_minus_360 tp :
  np_mod (PI * (tp - 360) / 180) PI2 = np_mod (PI * tp / 180) PI2.
Proof.
  replace (PI * (tp - 360) / 180) with (PI * tp / 180 - PI2) by (unfold PI2; field).
  apply np_mod_minus_period. pose proof PI2_pos. lra.
Qed.

(** In exact arithmetic, the phase trigger solver called with the trigger
    phase shifted by +360 or by -360 degrees gives the same outcome and
    leaves the instance in the same state as called with the trigger phase
    itself.  On binary64 numbers the wrap of [np.mod] does not commute with
    the rounding of its argument, see [F64.set_conditions]. *)
Lemma set_conditions_period (tp : R) (w : world) :
  set_conditions (tp + 360) w = set_conditions tp w /\
  set_conditions (tp - 360) w = set_conditions tp w.
Proof.
  unfold set_conditions.
  now rewrite normalised_phase_plus_360, normalised_phase_minus_360.
Qed.

(** ** simulate without an initial condition *)

Lemma np_divide_fin x y : y <> 0 -> np_divide x y = Fin (x / y).
Proof. intros Hy. unfold np_divide. now destruct (Req_dec_T y 0). Qed.

Lemma count_ode_call_eq w :
  count_ode_call w = (Ok tt, mk_world (attrs w) (heap w) (S (ode_calls w)) (stdout w)).
Proof. reflexivity. Qed.

Lemma length_array1_arange n : length (np_arange n) = Z.to_nat n.
Proof. unfold np_arange. now rewrite length_map, length_seq. Qed.

Section SimulateNominal.
Context `{OdeSolver}.
Variables (w : world) (T sr rf wd trg dl amp f0 w0 q : R) (tauv : value) (tp : R).
Hypothesis A_total_time : attrs w !! "total_time" = Some (VNum T).
Hypothesis A_sampling_rate : attrs w !! "sampling_rate" = Some (VNum sr).
Hypothesis A_res_freq : attrs w !! "res_freq" = Some (VNum rf).
Hypothesis A_wd : attrs w !! "wd" = Some (VNum wd).
Hypothesis A_trigger : attrs w !! "trigger" = Some (VNum trg).
Hypothesis A_delta : attrs w !! "delta" = Some (VNum dl).
Hypothesis A_amp : attrs w !! "amp" = Some (VNum amp).
Hypothesis A_tau : attrs w !! "tau" = Some tauv.
Hypothesis A_f0 : attrs w !! "f0" = Some (VNum f0).
Hypothesis A_w0 : attrs w !! "w0" = Some (VNum w0).
Hypothesis A_q : attrs w !! "q_factor" = Some (VNum q).
Hypothesis Hrf : rf <> 0.
Hypothesis Hwd : wd <> 0.

Lemma set_conditions_spec :
  set_conditions tp w =
    (Ok tt, mk_world (conditions_attrs tp T sr rf wd trg dl amp (attrs w))
              (heap w) (ode_calls w) (stdout w)).
Proof.
  unfold set_conditions.
  step_set. step_with getnum_num. step_with getnum_num. step_set.
  step_with getnum_num. erewrite bind_ok by (apply py_div_ok; assumption).
  erewrite bind_ok by (erewrite bind_ok by (apply getattr_some; look); reflexivity).
  step_set.
  erewrite bind_ok by (erewrite bind_ok by (apply getattr_some; look); reflexivity).
  step_set.
  step_with getnum_num. step_with getnum_num. step_with getnum_num.
  step_with getnum_num. rewrite np_divide_fin by assumption. cbn [np_add].
  step_set. step_with getnum_num.
  reflexivity.
Qed.

Lemma simulate_nominal :
  let rhs := dZ_dt f0 wd w0 q (VNum (sim_t0 tp wd trg dl)) tauv in
  let y0 := (amp * sin (- dl), amp * wd * cos (- dl)) in
  let Z := VArr (array1 (map fst (py_slice (odeint_rows rhs y0 (sim_time T sr rf))
                                    (sim_offset tp wd trg dl sr)
                                    (sim_stop tp wd trg dl sr T)))) in
  let info := VInfo (odeint_report rhs y0 (sim_time T sr rf)) in
  simulate tp VNone w =
    (Ok (Z, info),
     mk_world (<["Z" := Z]> (<["infodict" := info]>
                 (conditions_attrs tp T sr rf wd trg dl amp (attrs w))))
              (heap w) (S (ode_calls w)) (stdout w)).
Proof.
  cbv zeta. unfold simulate. step_pure.
  erewrite bind_ok by apply set_conditions_spec. wsimp.
  unfold conditions_attrs, run_odeint.
  erewrite bind_ok; cycle 1.
  { erewrite bind_ok by apply count_ode_call_eq. wsimp.
    erewrite bind_ok by (erewrite bind_ok by (apply getattr_some; look); reflexivity).
    erewrite bind_ok by (erewrite bind_ok by (apply getattr_some; look); reflexivity).
    step_with getattr_some. step_with getattr_some.
    step_with getnum_num. step_with getnum_num. step_with getnum_num.
    step_with getnum_num. reflexivity. }
  wsimp. step_with getattr_some. step_with getnum_num.
  erewrite bind_ok by reflexivity.
  step_with getattr_some.
  erewrite bind_ok by reflexivity.
  erewrite bind_ok by (erewrite bind_ok by (apply getattr_some; look); reflexivity).
  step_set. step_set.
  step_with getattr_some. step_with getattr_some.
  reflexivity.
Qed.

End SimulateNominal.

Lemma slice_bound_le len i : (slice_bound len i <= len)%nat.
Proof. unfold slice_bound. destruct (i <? 0)%Z eqn:E; [apply Z.ltb_lt in E|]; lia. Qed.

Lemma length_py_slice {A} (l : list A) a b :
  length (py_slice l a b) = (slice_bound (length l) b - slice_bound (length l) a)%nat.
Proof.
  unfold py_slice. rewrite length_take, length_drop.
  pose proof (slice_bound_le (length l) b). lia.
Qed.

Lemma length_window {A} (l : list A) (t0i ti n c : Z) :
  (0 <= t0i - ti <= c)%Z -> (0 <= n)%Z -> length l = Z.to_nat (c + n) ->
  length (py_slice l (t0i - ti) (t0i + n - ti)) = Z.to_nat n.
Proof.
  intros Hd Hn Hl. rewrite length_py_slice, Hl. unfold slice_bound.
  destruct (t0i - ti <? 0)%Z eqn:E1; [apply Z.ltb_lt in E1; lia|].
  destruct (t0i + n - ti <? 0)%Z eqn:E2; [apply Z.ltb_lt in E2; lia|].
  lia.
Qed.

Lemma Int_part_mono x y : x <= y -> (Int_part x <= Int_part y)%Z.
Proof.
  intros Hxy. pose proof (Int_part_bounds x). pose proof (Int_part_bounds y).
  assert (IZR (Int_part x) < IZR (Int_part y + 1)) by (rewrite plus_IZR; lra).
  apply lt_IZR in H1. lia.
Qed.

Lemma Int_part_lt_le (z : Z) y : IZR z < y -> (z <= Int_part y)%Z.
Proof.
  intros Hz. pose proof (Int_part_bounds y).
  assert (IZR z < IZR (Int_part y + 1)) by (rewrite plus_IZR; lra).
  apply lt_IZR in H0. lia.
Qed.

Lemma sim_phase_diff_range tp wd trg dl : 0 <= sim_phase_diff tp wd trg dl < PI2.
Proof. unfold sim_phase_diff. apply np_mod_range, PI2_pos. Qed.

(** The trimmed window starts inside the pre-roll when one drive period
    plus one sample fits in it. *)
Lemma sim_offset_bounds tp wd trg dl sr rf :
  0 < wd -> 0 < sr -> 0 <= trg -> 0 < rf ->
  sr * PI2 / wd + 1 <= 2 * sr / rf ->
  (0 <= sim_offset tp wd trg dl sr <= sim_cycle_points sr rf)%Z.
Proof.
  intros Hwd Hsr Htrg Hrf Hfit.
  unfold sim_offset, sim_cycle_points, sim_t0.
  pose proof (sim_phase_diff_range tp wd trg dl) as [Hp0 Hp1].
  set (pd := sim_phase_diff tp wd trg dl) in *.
  assert (Ha : 0 <= trg * sr) by (apply Rmult_le_pos; lra).
  assert (Hx0 : 0 <= pd / wd * sr).
  { apply Rmult_le_pos; [|lra]. apply Rmult_le_pos; [lra|]. left. now apply Rinv_0_lt_compat. }
  assert (Hx1 : pd / wd * sr < sr * PI2 / wd).
  { replace (pd / wd * sr) with (pd * (sr / wd)) by (field; lra).
    replace (sr * PI2 / wd) with (PI2 * (sr / wd)) by (field; lra).
    apply Rmult_lt_compat_r; [|lra]. apply Rdiv_lt_0_compat; lra. }
  replace ((trg + pd / wd) * sr) with (trg * sr + pd / wd * sr) by ring.
  assert (Hy : 0 <= 2 * sr / rf).
  { apply Rmult_le_pos; [lra|]. left. now apply Rinv_0_lt_compat. }
  rewrite !py_int_nonneg_eq by lra.
  pose proof (Int_part_mono (trg * sr) (trg * sr + pd / wd * sr) ltac:(lra)).
  pose proof (Int_part_bounds (trg * sr)) as [B1 B2].
  pose proof (Int_part_bounds (trg * sr + pd / wd * sr)) as [B3 B4].
  split; [lia|].
  apply Int_part_lt_le. rewrite minus_IZR. lra.
Qed.

Lemma cfg_delta_fin cc :
  res_freq cc <> 0 -> q_factor cc <> 0 -> drive_freq cc <> 0 ->
  exists dl, cfg_delta cc = Fin dl /\ 0 <= dl <= PI / 2.
Proof.
  intros Hres Hq Hdr. unfold cfg_delta.
  pose proof PI_RGT_0 as Hpi. pose proof PI2_pos as Hpi2.
  set (num := 2 * cfg_wd cc * cfg_beta cc).
  set (den := cfg_w0 cc ^ 2 - cfg_wd cc ^ 2).
  assert (Hnum : num <> 0).
  { unfold num, cfg_wd, cfg_beta, cfg_w0.
    assert (PI2 * drive_freq cc <> 0) by (apply Rmult_integral_contrapositive; split; lra).
    assert (PI2 * res_freq cc <> 0) by (apply Rmult_integral_contrapositive; split; lra).
    apply Rmult_integral_contrapositive. split.
    - apply Rmult_integral_contrapositive. split; [lra | assumption].
    - unfold Rdiv. apply Rmult_integral_contrapositive. split; [assumption|].
      apply Rinv_neq_0_compat. lra. }
  unfold np_divide. destruct (Req_dec_T den 0) as [Hz|Hnz].
  - destruct (Rlt_dec 0 num); simpl.
    + exists (Rabs (PI / 2)). rewrite Rabs_right by lra. split; [reflexivity | lra].
    + destruct (Rlt_dec num 0); simpl.
      * exists (Rabs (- (PI / 2))). rewrite Rabs_Ropp, Rabs_right by lra.
        split; [reflexivity | lra].
      * exfalso. lra.
  - simpl. exists (Rabs (atan (num / den))). split; [reflexivity|].
    pose proof (atan_bound (num / den)) as [B1 B2].
    split; [apply Rabs_pos|]. apply Rabs_le. lra.
Qed.

Ltac init_look :=
  unfold init_attrs, attrs_sim, attrs_force, attrs_can, can_dict, force_dict, sim_dict;
  cbv zeta; repeat rewrite <- insert_union_l; rewrite ?(left_id_L ∅ (∪)); look.

Section SimulateConstructed.
Context `{OdeSolver}.
Variables (cc : CantileverConfig) (fc : ForceConfig) (sc : SimConfig).
Variables (h : gmap loc (gmap string value)) (lc lf ls : loc).
Variable dfit : gmap string value.
Variable tp : R.
Hypothesis Hc : h !! lc = Some (can_dict cc).
Hypothesis Hf : h !! lf = Some (force_dict fc).
Hypothesis Hs : h !! ls = Some (sim_dict sc).
Hypothesis Hd : h !! default_fit_params = Some dfit.
Hypothesis Hlcf : lc <> lf.
Hypothesis Hdc : default_fit_params <> lc.
Hypothesis Hdf : default_fit_params <> lf.
Hypothesis Hres : res_freq cc <> 0.
Hypothesis Hdr : drive_freq cc <> 0.
Hypothesis Hq : q_factor cc <> 0.
Hypothesis Hk : k cc <> 0.
Hypothesis Hn : 0 <= total_time sc * sampling_rate sc.

Lemma simulate_constructed :
  exists w dl (rows : list (R * R)) info w',
    __init__ lc lf ls (caller_world h) = (Ok tt, w) /\
    attrs w = init_attrs cc fc sc lc lf (fresh (dom h)) /\
    ode_calls w = 0%nat /\
    cfg_delta cc = Fin dl /\
    length rows =
      Z.to_nat (sim_cycle_points (sampling_rate sc) (res_freq cc)
                + sim_n_points (total_time sc) (sampling_rate sc)) /\
    let Z := VArr (array1 (map fst (py_slice rows
              (sim_offset tp (cfg_wd cc) (trigger sc) dl (sampling_rate sc))
              (sim_stop tp (cfg_wd cc) (trigger sc) dl (sampling_rate sc) (total_time sc))))) in
    simulate tp VNone w = (Ok (Z, info), w') /\
    attrs w' =
      <["Z" := Z]> (<["infodict" := info]>
        (conditions_attrs tp (total_time sc) (sampling_rate sc) (res_freq cc) (cfg_wd cc)
           (trigger sc) dl (cfg_amp cc) (attrs w))) /\
    ode_calls w' = 1%nat.
Proof.
  destruct (cfg_delta_fin cc Hres Hq Hdr) as (dl & Hdl & _).
  pose proof PI2_pos as Hpi2.
  assert (Hwd : cfg_wd cc <> 0)
    by (unfold cfg_wd; apply Rmult_integral_contrapositive; split; lra).
  pose proof (simulate_nominal
               (mk_world (init_attrs cc fc sc lc lf (fresh (dom h)))
                         (init_heap cc fc sc lc lf dfit h) 0
                         (if np_allclose (cfg_w0 cc) (cfg_wd cc) then []
                          else ["Resonance and Drive not equal. Make sure simulation is long enough!"]))
               (total_time sc) (sampling_rate sc) (res_freq cc) (cfg_wd cc) (trigger sc)
               dl (cfg_amp cc) (cfg_f0 cc) (cfg_w0 cc) (q_factor cc) (VNum (tau fc)) tp)
    as Hsim.
  cbv zeta in Hsim.
  eexists _, dl, _, _, _. split; [eapply construct_spec; eassumption|].
  split; [reflexivity|]. split; [reflexivity|]. split; [exact Hdl|].
  split; [|cbv zeta; split; [apply Hsim | split; reflexivity]];
    try assumption; try (wsimp; try rewrite <- Hdl; init_look).
  rewrite odeint_rows_length. unfold sim_time.
  now rewrite length_map, length_array1_arange.
Qed.

End SimulateConstructed.

Lemma py_int_unique x z : 0 <= x -> IZR z <= x < IZR z + 1 -> py_int x = z.
Proof. intros Hx Hz. rewrite py_int_nonneg_eq by assumption. now apply Int_part_unique. Qed.

Lemma simulate_length_in_preroll `{OdeSolver}
    (cc : CantileverConfig) (fc : ForceConfig) (sc : SimConfig)
    (h : gmap loc (gmap string value)) (lc lf ls : loc) (dfit : gmap string value)
    (tp : R) :
  h !! lc = Some (can_dict cc) ->
  h !! lf = Some (force_dict fc) ->
  h !! ls = Some (sim_dict sc) ->
  h !! default_fit_params = Some dfit ->
  lc <> lf -> default_fit_params <> lc -> default_fit_params <> lf ->
  0 < res_freq cc -> 0 < drive_freq cc -> q_factor cc <> 0 -> k cc <> 0 ->
  0 < total_time sc -> 0 < sampling_rate sc -> 0 <= trigger sc ->
  sampling_rate sc / drive_freq cc + 1 <= 2 * sampling_rate sc / res_freq cc ->
  exists w Z info w',
    __init__ lc lf ls (caller_world h) = (Ok tt, w) /\
    simulate tp VNone w = (Ok (VArr Z, info), w') /\
    shape Z = [Z.to_nat (py_int (total_time sc * sampling_rate sc))] /\
    length (flat Z) = Z.to_nat (py_int (total_time sc * sampling_rate sc)).
Proof.
  intros Hc Hf Hs Hd Hlcf Hdc Hdf Hres Hdr Hq Hk HT Hsr Htrg Hfit.
  assert (Hn : 0 <= total_time sc * sampling_rate sc) by (apply Rmult_le_pos; lra).
  destruct (simulate_constructed cc fc sc h lc lf ls dfit tp)
    as (w & dl & rows & info & w' & Hinit & _ & _ & Hdl & Hrows & Hsim & _);
    try assumption; try lra.
  eexists w, _, info, w'. split; [exact Hinit|]. split; [exact Hsim|].
  pose proof PI2_pos as Hpi2.
  assert (Hwd : 0 < cfg_wd cc) by (unfold cfg_wd; apply Rmult_lt_0_compat; lra).
  assert (Hb : (0 <= sim_offset tp (cfg_wd cc) (trigger sc) dl (sampling_rate sc)
                <= sim_cycle_points (sampling_rate sc) (res_freq cc))%Z).
  { apply sim_offset_bounds; try lra.
    replace (sampling_rate sc * PI2 / cfg_wd cc) with (sampling_rate sc / drive_freq cc)
      by (unfold cfg_wd; field; lra).
    exact Hfit. }
  assert (Hlen : length (map fst (py_slice rows
              (sim_offset tp (cfg_wd cc) (trigger sc) dl (sampling_rate sc))
              (sim_stop tp (cfg_wd cc) (trigger sc) dl (sampling_rate sc) (total_time sc))))
            = Z.to_nat (py_int (total_time sc * sampling_rate sc))).
  { rewrite length_map. unfold sim_offset, sim_stop in *.
    eapply length_window; [exact Hb | | exact Hrows].
    now apply py_int_nonneg. }
  unfold array1. simpl. now rewrite Hlen.
Qed.

Lemma py_round_27_tenths : py_round (27 / 10) = 3%Z.
Proof.
  unfold py_round. rewrite (Int_part_unique (27 / 10) 2) by (simpl; lra).
  destruct (Rlt_dec _ _) as [Hlt|_]; [exfalso; lra|].
  destruct (Rlt_dec _ _) as [_|Hn]; [reflexivity | exfalso; lra].
Qed.

(** The sample count is truncated, not rounded: with
    [total_time * sampling_rate = 2.7] the waveform has 2 samples, while
    [round(2.7)] is 3. *)
Lemma simulate_length_not_rounded :
  exists w Z info w',
    __init__ 4%positive 5%positive 6%positive
      (caller_world (caller_heap khz_can scenario_force short_sim)) = (Ok tt, w) /\
    simulate (H := euler_solver) 180 VNone w = (Ok (VArr Z, info), w') /\
    length (flat Z) = 2%nat /\
    Z.to_nat (py_round (total_time short_sim * sampling_rate short_sim)) = 3%nat.
Proof.
  destruct (simulate_length_in_preroll (H := euler_solver) khz_can scenario_force short_sim
              (caller_heap khz_can scenario_force short_sim)
              4%positive 5%positive 6%positive ∅ 180)
    as (w & Z & info & w' & Hinit & Hsim & _ & Hlen);
    try reflexivity; try (clear; discriminate); try (simpl; lra).
  exists w, Z, info, w'. split; [exact Hinit|]. split; [exact Hsim|]. split.
  - rewrite Hlen. simpl.
    replace (27 / 100000 * 10000) with (27 / 10) by lra.
    now rewrite (py_int_unique (27 / 10) 2) by (simpl; lra).
  - simpl. replace (27 / 100000 * 10000) with (27 / 10) by lra.
    now rewrite py_round_27_tenths.
Qed.

Lemma np_mod_id x m : 0 <= x < m -> np_mod x m = x.
Proof.
  intros [H0 H1]. unfold np_mod.
  rewrite (Int_part_unique (x / m) 0).
  - simpl. ring.
  - simpl. assert (0 < m) by lra.
    split.
    + apply Rmult_le_pos; [lra|]. left. now apply Rinv_0_lt_compat.
    + apply (Rmult_lt_reg_r m); [lra|]. unfold Rdiv. rewrite Rmult_assoc, Rinv_l by lra. lra.
Qed.

Lemma np_mod_wrap x m : - m <= x < 0 -> np_mod x m = x + m.
Proof.
  intros [H0 H1].
  rewrite <- (np_mod_plus_period x m) by lra.
  apply np_mod_id. lra.
Qed.

(** The phase deficit of the slow-drive configuration at 180 degrees. *)
Lemma slow_drive_phase_diff dl :
  0 <= dl <= PI / 2 ->
  4 / 10 * PI2 <= sim_phase_diff 180 (cfg_wd slow_drive_can) (trigger slow_drive_sim) dl
    <= 65 / 100 * PI2.
Proof.
  intros [Hd0 Hd1]. pose proof PI_RGT_0 as Hpi.
  unfold sim_phase_diff, cfg_wd. simpl.
  replace (PI * 180 / 180) with PI by field.
  rewrite (np_mod_id PI PI2) by (unfold PI2; lra).
  replace (PI2 * 100 * (1 / 1000) - dl) with (PI2 / 10 - dl) by field.
  destruct (Rle_dec 0 (PI2 / 10 - dl)) as [Hpos|Hneg].
  - rewrite (np_mod_id (PI2 / 10 - dl)) by (unfold PI2 in *; lra).
    rewrite np_mod_id by (unfold PI2 in *; lra).
    unfold PI2 in *. lra.
  - rewrite (np_mod_wrap (PI2 / 10 - dl)) by (unfold PI2 in *; lra).
    rewrite np_mod_wrap by (unfold PI2 in *; lra).
    unfold PI2 in *. lra.
Qed.

Lemma slow_drive_offset dl :
  0 <= dl <= PI / 2 ->
  (40 <= sim_offset 180 (cfg_wd slow_drive_can) (trigger slow_drive_sim) dl
           (sampling_rate slow_drive_sim) <= 65)%Z.
Proof.
  intros Hdl. pose proof (slow_drive_phase_diff dl Hdl) as [Hp0 Hp1].
  pose proof PI2_pos as Hpi2.
  unfold sim_offset, sim_t0.
  set (pd := sim_phase_diff _ _ _ _) in *.
  unfold cfg_wd. simpl.
  replace ((1 / 1000 + pd / (PI2 * 100)) * 10000) with (10 + 100 * (pd / PI2))
    by (field; lra).
  replace (1 / 1000 * 10000) with 10 by field.
  assert (Hr0 : 4 / 10 <= pd / PI2).
  { apply (Rmult_le_reg_r PI2); [lra|]. unfold Rdiv at 2.
    rewrite Rmult_assoc, Rinv_l by lra. lra. }
  assert (Hr1 : pd / PI2 <= 65 / 100).
  { apply (Rmult_le_reg_r PI2); [lra|]. unfold Rdiv at 1.
    rewrite Rmult_assoc, Rinv_l by lra. lra. }
  rewrite (py_int_unique 10 10) by (simpl; lra).
  rewrite py_int_nonneg_eq by lra.
  pose proof (Int_part_bounds (10 + 100 * (pd / PI2))) as [B1 B2].
  split.
  - assert (IZR 49 < IZR (Int_part (10 + 100 * (pd / PI2)))) by (simpl; lra).
    apply lt_IZR in H. lia.
  - assert (IZR (Int_part (10 + 100 * (pd / PI2))) < IZR 76) by (simpl; lra).
    apply lt_IZR in H. lia.
Qed.

(** C1, at the failing input. A 1 kHz cantilever driven at 100 Hz for
    0.01 s at 10 kHz, trigger at 0.001 s, trigger phase 180 degrees: the
    drive period (100 samples) is longer than the pre-roll of two
    resonance cycles (20 samples), the trimmed window runs past the end of
    the integrated series of 120 rows, and the waveform that [simulate]
    returns has at most 80 samples, while [total_time * sampling_rate] is
    100, rounded or truncated.  The waveform is shorter than [n_points],
    and its length depends on the trigger phase. *)
Theorem simulate_length_short_when_drive_slow :
  exists w Z info w',
    __init__ 4%positive 5%positive 6%positive
      (caller_world (caller_heap slow_drive_can scenario_force slow_drive_sim)) = (Ok tt, w) /\
    simulate (H := euler_solver) 180 VNone w = (Ok (VArr Z, info), w') /\
    (length (flat Z) <= 80)%nat /\
    py_int (total_time slow_drive_sim * sampling_rate slow_drive_sim) = 100%Z /\
    py_round (total_time slow_drive_sim * sampling_rate slow_drive_sim) = 100%Z.
Proof.
  destruct (simulate_constructed (H := euler_solver) slow_drive_can scenario_force
              slow_drive_sim (caller_heap slow_drive_can scenario_force slow_drive_sim)
              4%positive 5%positive 6%positive ∅ 180)
    as (w & dl & rows & info & w' & Hinit & _ & _ & Hdl & Hrows & Hsim & _);
    try reflexivity; try (clear; discriminate); try (simpl; lra).
  destruct (cfg_delta_fin slow_drive_can) as (dl' & Hdl' & Hb); try (simpl; lra).
  rewrite Hdl in Hdl'. inversion Hdl'; subst dl'.
  pose proof (slow_drive_offset dl Hb) as Hoff.
  assert (Hn : sim_n_points (total_time slow_drive_sim) (sampling_rate slow_drive_sim) = 100%Z).
  { unfold sim_n_points. simpl. apply py_int_unique; simpl; lra. }
  assert (Hcyc : sim_cycle_points (sampling_rate slow_drive_sim) (res_freq slow_drive_can) = 20%Z).
  { unfold sim_cycle_points. simpl. apply py_int_unique; simpl; lra. }
  eexists w, _, info, w'. split; [exact Hinit|]. split; [exact Hsim|]. split.
  - unfold array1. cbn [flat].
    rewrite length_map, length_py_slice, Hrows, Hn, Hcyc.
    unfold sim_stop, sim_offset in *. rewrite Hn.
    set (a := py_int (sim_t0 _ _ _ _ * _)) in *.
    set (b := py_int (trigger slow_drive_sim * sampling_rate slow_drive_sim)) in *.
    unfold slice_bound.
    destruct (a + 100 - b <? 0)%Z eqn:E1; [apply Z.ltb_lt in E1; lia|].
    destruct (a - b <? 0)%Z eqn:E2; [apply Z.ltb_lt in E2; lia|].
    lia.
  - split; [exact Hn|].
    simpl. replace (1 / 100 * 10000) with 100 by lra.
    unfold py_round. rewrite (Int_part_unique 100 100) by (simpl; lra).
    destruct (Rlt_dec _ _) as [_|Hge]; [reflexivity | exfalso; apply Hge; simpl; lra].
Qed.


(** ** simulate with an explicit initial condition *)

Section SimulateInitialCondition.
Context `{OdeSolver}.
Variables (tp : R) (w : world).

(** A falsy initial condition takes the branch of [None]. *)
Lemma simulate_falsy Z0 :
  py_truth Z0 w = (Ok false, w) -> simulate tp Z0 w = simulate tp VNone w.
Proof.
  intros Hf. unfold simulate.
  rewrite (bind_ok _ _ _ _ _ Hf).
  now erewrite (bind_ok (py_truth VNone)) by reflexivity.
Qed.

Lemma simulate_rejects_type Z0 :
  py_truth Z0 w = (Ok true, w) -> is_array_or_list Z0 = false ->
  simulate tp Z0 w = (Raise (TypeError "Must be 2-size array or list"), w).
Proof.
  intros Ht Hi. unfold simulate.
  rewrite (bind_ok _ _ _ _ _ Ht). rewrite Hi.
  erewrite bind_raise; [reflexivity|].
  erewrite bind_raise; reflexivity.
Qed.

Lemma simulate_rejects_length Z0 n :
  py_truth Z0 w = (Ok true, w) -> is_array_or_list Z0 = true ->
  py_len Z0 w = (Ok n, w) -> n <> 2%nat ->
  simulate tp Z0 w = (Raise (ValueError "Must specify exactly [z0, v0]"), w).
Proof.
  intros Ht Hi Hl Hn. unfold simulate.
  rewrite (bind_ok _ _ _ _ _ Ht). rewrite Hi.
  erewrite bind_raise; [reflexivity|].
  erewrite bind_ok by reflexivity.
  rewrite (bind_ok _ _ _ _ _ Hl).
  apply Nat.eqb_neq in Hn. rewrite Hn.
  erewrite bind_raise; reflexivity.
Qed.

Lemma simulate_ambiguous_array a :
  (2 <= length (flat a))%nat ->
  simulate tp (VArr a) w =
    (Raise (ValueError "The truth value of an array with more than one element is ambiguous"), w).
Proof.
  intros Hlen. unfold simulate.
  erewrite bind_raise; [reflexivity|].
  unfold py_truth. destruct (flat a) as [|x [|y l]]; simpl in Hlen; try lia.
  reflexivity.
Qed.

Lemma py_truth_empty_list : py_truth (VList []) w = (Ok false, w).
Proof. reflexivity. Qed.

Lemma py_truth_zero_array : py_truth (VArr (array1 [0])) w = (Ok false, w).
Proof.
  unfold py_truth, array1. simpl.
  destruct (Req_dec_T 0 0) as [_|N]; [reflexivity | now elim N].
Qed.

End SimulateInitialCondition.

(** What the validation of [simulate] achieves: an initial condition that
    the truth test accepts and that is not a list or array, or is one of
    a length other than 2, is rejected with the state untouched, so that
    no integration is run. *)
Lemma simulate_validation `{OdeSolver} tp Z0 w :
  py_truth Z0 w = (Ok true, w) ->
  (is_array_or_list Z0 = false \/
   exists n, py_len Z0 w = (Ok n, w) /\ n <> 2%nat) ->
  exists e, simulate tp Z0 w = (Raise e, w) /\
            (e = TypeError "Must be 2-size array or list" \/
             e = ValueError "Must specify exactly [z0, v0]").
Proof.
  intros Ht [Hi|(n & Hl & Hn)].
  - eexists. split; [now apply simulate_rejects_type | now left].
  - destruct (is_array_or_list Z0) eqn:Hi.
    + eexists. split; [eapply simulate_rejects_length; eassumption | now right].
    + eexists. split; [now apply simulate_rejects_type | now left].
Qed.

(** C3, at the failing input. An empty list is a wrong-length initial
    condition, yet [simulate] raises nothing: it takes the branch of the
    phase trigger solver and runs the integrator once. *)
Theorem simulate_empty_list_integrates :
  exists w Z info w',
    __init__ 4%positive 5%positive 6%positive
      (caller_world (caller_heap scenario_can scenario_force scenario_sim)) = (Ok tt, w) /\
    simulate (H := euler_solver) 180 (VList []) w = (Ok (VArr Z, info), w') /\
    ode_calls w = 0%nat /\ ode_calls w' = 1%nat.
Proof.
  destruct (simulate_constructed (H := euler_solver) scenario_can scenario_force
              scenario_sim (caller_heap scenario_can scenario_force scenario_sim)
              4%positive 5%positive 6%positive ∅ 180)
    as (w & dl & rows & info & w' & Hinit & _ & Hcalls0 & Hdl & Hrows & Hsim & _ & Hcalls);
    try reflexivity; try (clear; discriminate); try (simpl; lra).
  eexists w, _, info, w'. split; [exact Hinit|].
  split; [|split; [exact Hcalls0 | exact Hcalls]].
  rewrite simulate_falsy by apply py_truth_empty_list. exact Hsim.
Qed.

(** C10 (amended). An array of two or more elements, a well-formed
    2-element one included, makes [simulate] raise at the truth test, before
    any validation or integration and with the state untouched; an empty
    list is treated as no initial condition at all. *)
Theorem simulate_truth_test `{OdeSolver} (tp : R) (a : ndarray) (w : world)
    (Hsize : (2 <= length (flat a))%nat) :
  simulate tp (VArr a) w =
    (Raise (ValueError "The truth value of an array with more than one element is ambiguous"), w)
  /\ simulate tp (VList []) w = simulate tp VNone w.
Proof.
  split; [now apply simulate_ambiguous_array|].
  apply simulate_falsy, py_truth_empty_list.
Qed.

Lemma simulate_truth_test_witness :
  (2 <= length (flat (array1 [0%R; 1%R])))%nat /\
  (simulate (H := euler_solver) 180 (VArr (array1 [0%R; 1%R])) (caller_world class_heap) =
    (Raise (ValueError "The truth value of an array with more than one element is ambiguous"),
     caller_world class_heap)
   /\ simulate (H := euler_solver) 180 (VList []) (caller_world class_heap)
      = simulate (H := euler_solver) 180 VNone (caller_world class_heap)).
Proof.
  split; [simpl; lia|].
  apply (simulate_truth_test (H := euler_solver) 180 (array1 [0%R; 1%R]) (caller_world class_heap)).
  simpl; lia.
Defined.

(** C10, counterexample. A one-element array holding zero is a non-empty
    array, and [simulate] raises nothing at all: the truth test finds it
    false, and the integrator runs. *)
Lemma simulate_zero_array_integrates :
  exists w Z info w',
    __init__ 4%positive 5%positive 6%positive
      (caller_world (caller_heap scenario_can scenario_force scenario_sim)) = (Ok tt, w) /\
    simulate (H := euler_solver) 180 (VArr (array1 [0])) w = (Ok (VArr Z, info), w') /\
    ode_calls w' = 1%nat.
Proof.
  destruct (simulate_constructed (H := euler_solver) scenario_can scenario_force
              scenario_sim (caller_heap scenario_can scenario_force scenario_sim)
              4%positive 5%positive 6%positive ∅ 180)
    as (w & dl & rows & info & w' & Hinit & _ & Hcalls0 & Hdl & Hrows & Hsim & _ & Hcalls);
    try reflexivity; try (clear; discriminate); try (simpl; lra).
  eexists w, _, info, w'. split; [exact Hinit|]. split; [|exact Hcalls].
  rewrite simulate_falsy by apply py_truth_zero_array. exact Hsim.
Qed.

(** ** downsample *)


Lemma never_raises_bind {A B} e (c : M A) (k : A -> M B) :
  never_raises e c -> (forall a, never_raises e (k a)) -> never_raises e (bind c k).
Proof.
  intros Hc Hk w w'. unfold bind.
  destruct (c w) as [[a|e'] w1] eqn:E.
  - apply Hk.
  - intros Heq. inversion Heq; subst. now apply (Hc w w').
Qed.

Lemma never_raises_ret {A} e (a : A) : never_raises e (ret a).
Proof. intros w w'. discriminate. Qed.

Lemma never_raises_raise {A} e e' : e' <> e -> never_raises e (@raise A e').
Proof. intros Hne w w' Heq. inversion Heq. contradiction. Qed.

Lemma never_raises_getattr name : never_raises validation_error (getattr name).
Proof. intros w w'. unfold getattr. destruct (attrs w !! name); discriminate. Qed.

Lemma never_raises_as_num v : never_raises validation_error (as_num v).
Proof. intros w w'. destruct v as [| | |[]| | | | | | | |]; discriminate. Qed.

Lemma never_raises_getnum name : never_raises validation_error (getnum name).
Proof.
  apply never_raises_bind; [apply never_raises_getattr | apply never_raises_as_num].
Qed.

Lemma never_raises_py_div x y : never_raises validation_error (py_div x y).
Proof. intros w w'. unfold py_div. destruct (Req_dec_T y 0); discriminate. Qed.

Lemma never_raises_as_array v : never_raises validation_error (as_array v).
Proof. intros w w'. destruct v; discriminate. Qed.

Lemma never_raises_step_slice a step : never_raises validation_error (arr_step_slice a step).
Proof.
  intros w w'. unfold arr_step_slice.
  destruct (shape a); [discriminate|]. destruct (step =? 0)%Z; discriminate.
Qed.

Lemma never_raises_reshape a n : never_raises validation_error (arr_reshape_column a n).
Proof.
  intros w w'. unfold arr_reshape_column.
  destruct (n <? 0)%Z; [discriminate|].
  destruct (bool_decide _); discriminate.
Qed.

Lemma never_raises_setattr name v : never_raises validation_error (setattr name v).
Proof. intros w w'. discriminate. Qed.


Lemma downsample_accepts w sr target :
  attrs w !! "sampling_rate" = Some (VNum sr) -> target <= sr ->
  forall w', downsample target w <> (Raise validation_error, w').
Proof.
  intros Hsr Hle w'. unfold downsample.
  erewrite bind_ok by (apply getnum_num; exact Hsr).
  destruct (Rgt_dec target sr) as [Hgt|_]; [exfalso; lra|].
  erewrite bind_ok by reflexivity.
  clear Hsr. revert w w'.
  change (never_raises validation_error
            (let! ratio := py_div sr target in
             let step := py_int ratio in
             let! total_time := getnum "total_time" in
             let n_points := py_int (total_time * target) in
             let! Z := let! v := getattr "Z" in as_array v in
             let! picked := arr_step_slice Z step in
             let! column := arr_reshape_column picked n_points in
             let! def_invols := getnum "def_invols" in
             setattr "Z" (VArr (arr_div column def_invols)))).
  repeat first
    [ apply never_raises_getnum | apply never_raises_getattr | apply never_raises_as_array
    | apply never_raises_as_num | apply never_raises_py_div | apply never_raises_step_slice
    | apply never_raises_reshape | apply never_raises_setattr
    | apply never_raises_bind; [|intros ?] ].
Qed.

Lemma chunks_singletons (l : list R) :
  chunks (length l) 1 l = map (fun x => [x]) l.
Proof. induction l as [|x l IH]; simpl; [reflexivity | now rewrite drop_0, IH]. Qed.

Lemma decimate_map {A B} (g : A -> B) step skip (l : list A) :
  decimate step skip (map g l) = map g (decimate step skip l).
Proof.
  revert skip. induction l as [|x l IH]; intros skip; simpl; [reflexivity|].
  destruct skip; simpl; now rewrite IH.
Qed.

Lemma concat_singletons (l : list R) : concat (map (fun x => [x]) l) = l.
Proof. induction l as [|x l IH]; simpl; [reflexivity | now rewrite IH]. Qed.

(** Every [step]-th element: the count is the length divided by the
    step, rounded up. *)
Lemma length_decimate {A} (step skip : nat) (l : list A) :
  (skip < step)%nat ->
  length (decimate step skip l) = ((length l + step - 1 - skip) / step)%nat.
Proof.
  revert skip. induction l as [|x l IH]; intros skip Hs; simpl.
  - symmetry. apply Nat.div_small. lia.
  - destruct skip as [|skip]; simpl.
    + rewrite IH by lia.
      replace (length l + step - 1 - (step - 1))%nat with (length l) by lia.
      replace (length l + step - 0 - 0)%nat with (length l + 1 * step)%nat by lia.
      rewrite Nat.div_add by lia. lia.
    + rewrite IH by lia. f_equal. lia.
Qed.

Lemma step_slice_1d (a : ndarray) (step : Z) w :
  shape a = [length (flat a)] -> (0 < step)%Z ->
  arr_step_slice a step w =
    (Ok (array1 (decimate (Z.to_nat step) 0 (flat a))), w).
Proof.
  intros Hshape Hstep. unfold arr_step_slice, row_size. rewrite Hshape. simpl.
  destruct (step =? 0)%Z eqn:E0; [apply Z.eqb_eq in E0; lia|].
  destruct (step <? 0)%Z eqn:E1; [apply Z.ltb_lt in E1; lia|].
  rewrite chunks_singletons, decimate_map, concat_singletons, length_map.
  reflexivity.
Qed.

Lemma reshape_column_ok (a : ndarray) (n : Z) w :
  (0 <= n)%Z -> length (flat a) = Z.to_nat n ->
  arr_reshape_column a n w = (Ok (mk_ndarray [Z.to_nat n; 1%nat] (flat a)), w).
Proof.
  intros Hn Hlen. unfold arr_reshape_column.
  destruct (n <? 0)%Z eqn:E1; [apply Z.ltb_lt in E1; lia|].
  now rewrite bool_decide_true by (symmetry; exact Hlen).
Qed.



(** It does return when every [int(sampling_rate / target_rate)]-th sample
    of a one-dimensional waveform makes [int(total_time * target_rate)]
    samples. *)
Lemma downsample_returns w sr T d target (a : ndarray) :
  attrs w !! "sampling_rate" = Some (VNum sr) ->
  attrs w !! "total_time" = Some (VNum T) ->
  attrs w !! "Z" = Some (VArr a) ->
  attrs w !! "def_invols" = Some (VNum d) ->
  shape a = [length (flat a)] ->
  0 < target <= sr -> 0 <= T ->
  length (decimate (Z.to_nat (py_int (sr / target))) 0 (flat a))
    = Z.to_nat (py_int (T * target)) ->
  downsample target w =
    (Ok tt, mk_world
              (<["Z" := VArr (arr_div (mk_ndarray [Z.to_nat (py_int (T * target)); 1%nat]
                                        (decimate (Z.to_nat (py_int (sr / target))) 0 (flat a)))
                                      d)]> (attrs w))
              (heap w) (ode_calls w) (stdout w)).
Proof.
  intros Hsr HT HZ Hd Hshape [Ht0 Ht1] HT0 Hcount. unfold downsample.
  erewrite bind_ok by (apply getnum_num; exact Hsr).
  destruct (Rgt_dec target sr) as [Hgt|_]; [exfalso; lra|].
  erewrite bind_ok by reflexivity.
  erewrite bind_ok by (apply py_div_ok; lra).
  erewrite bind_ok by (apply getnum_num; exact HT).
  erewrite bind_ok by (erewrite bind_ok by (apply getattr_some; exact HZ); reflexivity).
  assert (Hstep : (0 < py_int (sr / target))%Z).
  { assert (1 <= sr / target).
    { apply (Rmult_le_reg_r target); [lra|]. unfold Rdiv.
      rewrite Rmult_assoc, Rinv_l by lra. lra. }
    rewrite py_int_nonneg_eq by lra.
    assert (IZR 0 < IZR (Int_part (sr / target) + 1)).
    { rewrite plus_IZR. pose proof (Int_part_bounds (sr / target)). simpl. lra. }
    apply lt_IZR in H0. pose proof (Int_part_mono 1 (sr / target) H).
    rewrite (Int_part_unique 1 1) in H1 by (simpl; lra). lia. }
  erewrite bind_ok by (apply step_slice_1d; assumption).
  erewrite bind_ok; cycle 1.
  { apply reshape_column_ok; [|exact Hcount].
    apply py_int_nonneg. apply Rmult_le_pos; lra. }
  erewrite bind_ok by (apply getnum_num; exact Hd).
  reflexivity.
Qed.

Lemma decimate_step1 {A} (l : list A) : decimate 1 0 l = l.
Proof. induction l as [|x l IH]; simpl; [reflexivity | now rewrite IH]. Qed.

(** The four-sample waveform, downsampled from 1 kHz to 500 Hz, becomes a
    column of two rows. *)
Lemma downsample_four_samples :
  exists w' a, downsample 500 four_sample_world = (Ok tt, w') /\
               attrs w' !! "Z" = Some (VArr a) /\ shape a = [2%nat; 1%nat].
Proof.
  assert (Hstep : py_int (1000 / 500) = 2%Z) by (apply py_int_unique; simpl; lra).
  assert (Hn : py_int (4 / 1000 * 500) = 2%Z) by (apply py_int_unique; simpl; lra).
  eexists _, _. split.
  - eapply (downsample_returns four_sample_world 1000 (4 / 1000) 2 500 (array1 [1; 2; 3; 4]));
      try (unfold four_sample_world; look); try lra; try reflexivity.
    rewrite Hstep, Hn. reflexivity.
  - wsimp. rewrite lookup_insert_eq. rewrite Hn. split; reflexivity.
Qed.

(** The row count is truncated, not rounded: 2.86 sample periods at
    11 kHz are simulated and downsampled to 10 kHz; the call returns, and
    the waveform has [int(2.6) = 2] rows, while [round(2.6)] is 3. *)
Lemma downsample_length_not_rounded :
  exists w info w1 w2 a,
    __init__ 4%positive 5%positive 6%positive
      (caller_world (caller_heap khz_can scenario_force odd_rate_sim)) = (Ok tt, w) /\
    (exists Z, simulate (H := euler_solver) 180 VNone w = (Ok (Z, info), w1)) /\
    10000 < sampling_rate odd_rate_sim /\
    downsample 10000 w1 = (Ok tt, w2) /\
    attrs w2 !! "Z" = Some (VArr a) /\
    length (flat a) = 2%nat /\
    Z.to_nat (py_round (total_time odd_rate_sim * 10000)) = 3%nat.
Proof.
  destruct (simulate_constructed (H := euler_solver) khz_can scenario_force odd_rate_sim
              (caller_heap khz_can scenario_force odd_rate_sim)
              4%positive 5%positive 6%positive ∅ 180)
    as (w & dl & rows & info & w1 & Hinit & Hattrs & _ & Hdl & Hrows & Hsim & Hattrs1 & _);
    try reflexivity; try (clear; discriminate); try (simpl; lra).
  cbv zeta in Hsim, Hattrs1.
  pose proof PI2_pos as Hpi2.
  assert (Hb : (0 <= sim_offset 180 (cfg_wd khz_can) (trigger odd_rate_sim) dl
                       (sampling_rate odd_rate_sim)
                <= sim_cycle_points (sampling_rate odd_rate_sim) (res_freq khz_can))%Z).
  { apply sim_offset_bounds; try (simpl; lra).
    - unfold cfg_wd. simpl. lra.
    - replace (sampling_rate odd_rate_sim * PI2 / cfg_wd khz_can) with 11
        by (unfold cfg_wd; simpl; field; lra).
      simpl. lra. }
  assert (Hn : sim_n_points (total_time odd_rate_sim) (sampling_rate odd_rate_sim) = 2%Z).
  { unfold sim_n_points. simpl. apply py_int_unique; simpl; lra. }
  set (Zc := map fst (py_slice rows _ _)) in *.
  assert (Hlen : length Zc = 2%nat).
  { unfold Zc. rewrite length_map. unfold sim_offset, sim_stop in *.
    erewrite length_window; [| exact Hb | | exact Hrows]; rewrite Hn; [reflexivity | lia]. }
  assert (Hstep : py_int (11000 / 10000) = 1%Z) by (apply py_int_unique; simpl; lra).
  assert (Hrows' : py_int (26 / 100000 * 10000) = 2%Z) by (apply py_int_unique; simpl; lra).
  eexists w, info, w1, _, _.
  split; [exact Hinit|]. split; [eexists; exact Hsim|]. split; [simpl; lra|].
  split; [|split; [|split]].
  - eapply (downsample_returns w1 11000 (26 / 100000) (506 / 10000000000) 10000 (array1 Zc));
      try (rewrite Hattrs1, Hattrs; unfold conditions_attrs; init_look);
      try lra; try reflexivity.
    cbn [array1 flat]. rewrite Hstep, Hrows'. simpl. now rewrite decimate_step1.
  - wsimp. apply lookup_insert_eq.
  - cbn [arr_div flat array1]. rewrite length_map, Hstep. simpl.
    now rewrite decimate_step1.
  - simpl. replace (26 / 100000 * 10000) with (26 / 10) by lra.
    unfold py_round. rewrite (Int_part_unique (26 / 10) 2) by (simpl; lra).
    destruct (Rlt_dec _ _) as [Hlt|_]; [exfalso; simpl in Hlt; lra|].
    destruct (Rlt_dec _ _) as [_|Hn']; [reflexivity | exfalso; simpl in Hn'; lra].
Qed.

(** A target rate that does not divide the sampling rate: every third of
    four samples makes two samples, [int(0.004 * 300)] is 1, and the
    reshape raises, although the target is below the sampling rate.  The
    stored waveform is left as it was. *)
Lemma downsample_uneven_raises :
  downsample 300 four_sample_world =
    (Raise (ValueError "cannot reshape array"), four_sample_world).
Proof.
  assert (Hstep : py_int (1000 / 300) = 3%Z) by (apply py_int_unique; simpl; lra).
  assert (Hn : py_int (4 / 1000 * 300) = 1%Z) by (apply py_int_unique; simpl; lra).
  unfold downsample.
  erewrite bind_ok by (apply getnum_num; unfold four_sample_world; look).
  destruct (Rgt_dec 300 1000) as [Hgt|_]; [exfalso; lra|].
  erewrite bind_ok by reflexivity.
  erewrite bind_ok by (apply py_div_ok; lra).
  erewrite bind_ok by (apply getnum_num; unfold four_sample_world; look).
  erewrite bind_ok
    by (erewrite bind_ok by (apply getattr_some; unfold four_sample_world; look); reflexivity).
  rewrite Hstep, Hn.
  erewrite bind_ok by (apply step_slice_1d; [reflexivity | lia]).
  erewrite bind_raise; reflexivity.
Qed.

(** A target rate equal to the sampling rate passes the validation. *)
Lemma downsample_equal_rate_accepted w sr :
  attrs w !! "sampling_rate" = Some (VNum sr) ->
  forall w', downsample sr w <> (Raise validation_error, w').
Proof. intros Hsr. apply downsample_accepts with sr; [assumption | lra]. Qed.

(** C2, at the failing input. On the documented scenario, sampled at
    10 MHz, the waveform is simulated and [downsample] is called with a
    target rate of 10 MHz, its default: the target rate equals the
    sampling rate, the guard [target_rate > self.sampling_rate] lets it
    pass, and the call returns instead of raising the input-validation
    error whose message says that the target should be less than the
    sampling rate.  The stored waveform is not left as it was: the
    one-dimensional waveform of 20000 samples in metres is overwritten by
    a column of 20000 rows, divided by [def_invols]. *)
Theorem downsample_default_rate_returns `{OdeSolver} :
  exists w Z info w1 w2 a,
    __init__ 4%positive 5%positive 6%positive
      (caller_world (caller_heap scenario_can scenario_force scenario_sim)) = (Ok tt, w) /\
    simulate 180 VNone w = (Ok (VArr Z, info), w1) /\
    attrs w1 !! "sampling_rate" = Some (VNum 10000000) /\
    attrs w1 !! "Z" = Some (VArr Z) /\
    shape Z = [Z.to_nat 20000] /\
    downsample 10000000 w1 = (Ok tt, w2) /\
    attrs w2 !! "Z" = Some (VArr a) /\
    shape a = [Z.to_nat 20000; 1%nat] /\
    flat a = map (fun x => x / def_invols scenario_can) (flat Z).
Proof.
  destruct (simulate_constructed scenario_can scenario_force scenario_sim
              (caller_heap scenario_can scenario_force scenario_sim)
              4%positive 5%positive 6%positive ∅ 180)
    as (w & dl & rows & info & w1 & Hinit & Hattrs & _ & Hdl & Hrows & Hsim & Hattrs1 & _);
    try reflexivity; try (clear; discriminate); try (simpl; lra).
  cbv zeta in Hsim, Hattrs1.
  pose proof PI2_pos as Hpi2.
  assert (Hb : (0 <= sim_offset 180 (cfg_wd scenario_can) (trigger scenario_sim) dl
                       (sampling_rate scenario_sim)
                <= sim_cycle_points (sampling_rate scenario_sim) (res_freq scenario_can))%Z).
  { apply sim_offset_bounds; try (simpl; lra).
    - unfold cfg_wd. simpl. lra.
    - replace (sampling_rate scenario_sim * PI2 / cfg_wd scenario_can)
        with (10000000 / 277261) by (unfold cfg_wd; simpl; field; lra).
      simpl. lra. }
  assert (Hn : sim_n_points (total_time scenario_sim) (sampling_rate scenario_sim) = 20000%Z).
  { unfold sim_n_points. simpl. apply py_int_unique; simpl; lra. }
  set (Zc := map fst (py_slice rows _ _)) in *.
  assert (Hlen : length Zc = Z.to_nat 20000).
  { unfold Zc. rewrite length_map. unfold sim_offset, sim_stop in *.
    erewrite length_window; [| exact Hb | | exact Hrows]; rewrite Hn; [reflexivity | lia]. }
  assert (Hstep : py_int (10000000 / 10000000) = 1%Z) by (apply py_int_unique; simpl; lra).
  assert (Hrows' : py_int (2 / 1000 * 10000000) = 20000%Z) by (apply py_int_unique; simpl; lra).
  assert (HZ1 : attrs w1 !! "Z" = Some (VArr (array1 Zc)))
    by (rewrite Hattrs1; look).
  eexists w, (array1 Zc), info, w1, _, _.
  split; [exact Hinit|]. split; [exact Hsim|].
  split; [rewrite Hattrs1, Hattrs; unfold conditions_attrs; init_look|].
  split; [exact HZ1|].
  split; [unfold array1; cbn [shape]; now rewrite Hlen|].
  split; [|split; [|split]].
  - eapply (downsample_returns w1 10000000 (2 / 1000) (506 / 10000000000) 10000000
              (array1 Zc));
      try (rewrite Hattrs1, Hattrs; unfold conditions_attrs; init_look);
      try exact HZ1; try lra; try reflexivity.
    cbn [array1 flat]. rewrite Hstep, Hrows'.
    change (Z.to_nat 1) with 1%nat. now rewrite decimate_step1.
  - wsimp. apply lookup_insert_eq.
  - cbn [arr_div shape]. now rewrite Hrows'.
  - cbn [arr_div flat array1]. rewrite Hstep.
    change (Z.to_nat 1) with 1%nat. now rewrite decimate_step1.
Qed.

(** ** Ownership of the configuration dictionaries *)

Ltac init_chain :=
  unfold init_attrs, attrs_sim, attrs_force, attrs_can, can_dict, force_dict, sim_dict;
  cbv zeta; repeat rewrite <- insert_union_l; rewrite ?(left_id_L ∅ (∪)).

(** Every attribute of a fresh instance is a number, an array, or one of
    the three bundle references. *)
Lemma init_attrs_refs cc fc sc lc lf fit key l :
  init_attrs cc fc sc lc lf fit !! key = Some (VRef l) -> l = lc \/ l = lf \/ l = fit.
Proof.
  init_chain. intros Hl.
  repeat (apply lookup_insert_Some in Hl as [[_ Hl]|[_ Hl]];
          [inversion Hl; auto|]).
  now rewrite lookup_empty in Hl.
Qed.

Lemma can_dict_copied cc fc sc lc lf fit :
  can_dict cc ⊆ init_attrs cc fc sc lc lf fit.
Proof.
  apply map_subseteq_spec. intros key v Hl.
  unfold can_dict in Hl.
  repeat (apply lookup_insert_Some in Hl as [[<- <-]|[_ Hl]]; [init_chain; look|]).
  now rewrite lookup_empty in Hl.
Qed.

Lemma force_dict_copied cc fc sc lc lf fit :
  force_dict fc ⊆ init_attrs cc fc sc lc lf fit.
Proof.
  apply map_subseteq_spec. intros key v Hl.
  unfold force_dict in Hl.
  repeat (apply lookup_insert_Some in Hl as [[<- <-]|[_ Hl]]; [init_chain; look|]).
  now rewrite lookup_empty in Hl.
Qed.

Lemma sim_dict_copied cc fc sc lc lf fit :
  sim_dict sc ⊆ init_attrs cc fc sc lc lf fit.
Proof.
  apply map_subseteq_spec. intros key v Hl.
  unfold sim_dict in Hl.
  repeat (apply lookup_insert_Some in Hl as [[<- <-]|[_ Hl]]; [init_chain; look|]).
  now rewrite lookup_empty in Hl.
Qed.

(** A loop of [create_parameters] only adds keys. *)
Lemma fill_one_subseteq a d kv : d ⊆ fill_one a d kv.
Proof.
  unfold fill_one. destruct (d !! kv.1) eqn:E; [reflexivity|].
  now apply insert_subseteq.
Qed.

Lemma filled_subseteq a defaults d : d ⊆ filled a defaults d.
Proof.
  revert d. induction defaults as [|kv defaults IH]; intros d; [reflexivity|].
  unfold filled. simpl. etransitivity; [apply fill_one_subseteq|]. apply IH.
Qed.

Lemma filled_complete a defaults d :
  (forall key, key ∈ defaults.*1 -> is_Some (d !! key)) -> filled a defaults d = d.
Proof.
  revert d. induction defaults as [|[k0 v0] defaults IH]; intros d Hall; [reflexivity|].
  unfold filled. simpl. fold (filled a defaults (fill_one a d (k0, v0))).
  assert (Hk : is_Some (d !! k0)) by (apply Hall; simpl; apply elem_of_cons; now left).
  destruct Hk as [v Hv]. unfold fill_one at 1. simpl. rewrite Hv.
  apply IH. intros key Hin. apply Hall. simpl. apply elem_of_cons. now right.
Qed.

Lemma can_dict_complete a cc : filled a _can_params (can_dict cc) = can_dict cc.
Proof.
  apply filled_complete. intros key Hin. simpl in Hin.
  repeat (apply elem_of_cons in Hin as [->|Hin]; [unfold can_dict; eexists; look|]).
  now apply elem_of_nil in Hin.
Qed.

Lemma sim_force_distinct sc fc : sim_dict sc <> force_dict fc.
Proof.
  intros Heq. assert (Hl : sim_dict sc !! "trigger" = force_dict fc !! "trigger") by now rewrite Heq.
  unfold sim_dict, force_dict in Hl. rewrite lookup_insert_eq in Hl.
  repeat (rewrite lookup_insert_ne in Hl by (clear; discriminate)).
  now rewrite lookup_empty in Hl.
Qed.

Lemma sim_can_distinct sc cc : sim_dict sc <> can_dict cc.
Proof.
  intros Heq. assert (Hl : sim_dict sc !! "trigger" = can_dict cc !! "trigger") by now rewrite Heq.
  unfold sim_dict, can_dict in Hl. rewrite lookup_insert_eq in Hl.
  repeat (rewrite lookup_insert_ne in Hl by (clear; discriminate)).
  now rewrite lookup_empty in Hl.
Qed.

Section Ownership.
Variables (cc : CantileverConfig) (fc : ForceConfig) (sc : SimConfig).
Variables (h : gmap loc (gmap string value)) (lc lf ls : loc).
Variable dfit : gmap string value.
Hypothesis Hc : h !! lc = Some (can_dict cc).
Hypothesis Hf : h !! lf = Some (force_dict fc).
Hypothesis Hs : h !! ls = Some (sim_dict sc).
Hypothesis Hd : h !! default_fit_params = Some dfit.
Hypothesis Hlcf : lc <> lf.
Hypothesis Hdc : default_fit_params <> lc.
Hypothesis Hdf : default_fit_params <> lf.
Hypothesis Hds : default_fit_params <> ls.
Hypothesis Hres : res_freq cc <> 0.
Hypothesis Hq : q_factor cc <> 0.
Hypothesis Hk : k cc <> 0.
Hypothesis Hn : 0 <= total_time sc * sampling_rate sc.

Lemma construction_effects :
  exists w,
    __init__ lc lf ls (caller_world h) = (Ok tt, w) /\
    (* the entries of the three mappings are copied into attributes *)
    can_dict cc ⊆ attrs w /\ force_dict fc ⊆ attrs w /\ sim_dict sc ⊆ attrs w /\
    (* sim_params is neither mutated nor referred to by the instance *)
    heap w !! ls = Some (sim_dict sc) /\
    (forall key, attrs w !! key <> Some (VRef ls)) /\
    (* can_params is the cantilever bundle; it already holds every
       recognized key and is left as it was *)
    attrs w !! "can_params" = Some (VRef lc) /\
    heap w !! lc = Some (can_dict cc) /\
    (* force_params is the parameter bundle, and has grown *)
    attrs w !! "parameters" = Some (VRef lf) /\
    exists d, heap w !! lf = Some d /\
              force_dict fc ⊆ d /\ sim_dict sc ⊆ d /\
              (forall key, key ∈ _parameters.*1 -> is_Some (d !! key)).
Proof.
  assert (Hsf : ls <> lf).
  { intros ->. apply (sim_force_distinct sc fc). congruence. }
  assert (Hsc : ls <> lc).
  { intros ->. apply (sim_can_distinct sc cc). congruence. }
  pose proof (fresh_loc_ne _ _ _ Hc) as Nc.
  pose proof (fresh_loc_ne _ _ _ Hf) as Nf.
  pose proof (fresh_loc_ne _ _ _ Hs) as Ns.
  eexists. split; [eapply construct_spec; eassumption|]. wsimp.
  split; [apply can_dict_copied|]. split; [apply force_dict_copied|].
  split; [apply sim_dict_copied|].
  split; [unfold init_heap; cbv zeta; hlook; exact Hs|].
  split.
  { intros key Hl. apply init_attrs_refs in Hl as [?|[?|?]]; congruence. }
  split; [unfold init_attrs; look|].
  split.
  { unfold init_heap. cbv zeta. hlook. now rewrite can_dict_complete. }
  split; [unfold init_attrs; look|].
  eexists. split; [unfold init_heap; cbv zeta; hlook; reflexivity|].
  split; [|split].
  - etransitivity; [|apply filled_subseteq]. apply map_union_subseteq_r.
    apply map_disjoint_spec. intros key x y Hx Hy.
    unfold sim_dict in Hx.
    repeat (apply lookup_insert_Some in Hx as [[<- _]|[_ Hx]];
            [unfold force_dict in Hy;
             repeat (rewrite lookup_insert_ne in Hy by (clear; discriminate));
             now rewrite lookup_empty in Hy|]).
    now rewrite lookup_empty in Hx.
  - etransitivity; [|apply filled_subseteq]. apply map_union_subseteq_l.
  - intros key Hin.
    apply list_elem_of_fmap in Hin as ([key' hard] & -> & Hin). cbn [fst].
    rewrite (filled_lookup_in _ _ _ _ hard parameters_keys_nodup Hin). eauto.
Qed.

End Ownership.

(** C4 (amended). Construction copies the entries of the three mappings
    into attributes of the instance.  Of the three caller-held
    dictionaries only [sim_params] is neither kept nor mutated: the
    instance keeps [can_params] itself as its cantilever bundle (unchanged,
    as it holds every recognized key) and [force_params] itself as its
    parameter bundle, into which it writes the entries of [sim_params] and
    a value for every recognized analysis key. *)
Theorem construction_ownership
    (cc : CantileverConfig) (fc : ForceConfig) (sc : SimConfig)
    (h : gmap loc (gmap string value)) (lc lf ls : loc) (dfit : gmap string value)
    (Hc : h !! lc = Some (can_dict cc))
    (Hf : h !! lf = Some (force_dict fc))
    (Hs : h !! ls = Some (sim_dict sc))
    (Hd : h !! default_fit_params = Some dfit)
    (Hlcf : lc <> lf) (Hdc : default_fit_params <> lc) (Hdf : default_fit_params <> lf)
    (Hds : default_fit_params <> ls)
    (Hres : res_freq cc <> 0) (Hq : q_factor cc <> 0) (Hk : k cc <> 0)
    (Hn : 0 <= total_time sc * sampling_rate sc) :
  exists w,
    __init__ lc lf ls (caller_world h) = (Ok tt, w) /\
    can_dict cc ⊆ attrs w /\ force_dict fc ⊆ attrs w /\ sim_dict sc ⊆ attrs w /\
    heap w !! ls = Some (sim_dict sc) /\
    (forall key, attrs w !! key <> Some (VRef ls)) /\
    attrs w !! "can_params" = Some (VRef lc) /\
    heap w !! lc = Some (can_dict cc) /\
    attrs w !! "parameters" = Some (VRef lf) /\
    exists d, heap w !! lf = Some d /\
              force_dict fc ⊆ d /\ sim_dict sc ⊆ d /\
              (forall key, key ∈ _parameters.*1 -> is_Some (d !! key)).
Proof.
  exact (construction_effects cc fc sc h lc lf ls dfit Hc Hf Hs Hd Hlcf Hdc Hdf Hds
           Hres Hq Hk Hn).
Qed.

Lemma construction_ownership_witness :
  exists w,
    __init__ 4%positive 5%positive 6%positive
      (caller_world (caller_heap scenario_can scenario_force scenario_sim)) = (Ok tt, w) /\
    can_dict scenario_can ⊆ attrs w /\ force_dict scenario_force ⊆ attrs w /\
    sim_dict scenario_sim ⊆ attrs w /\
    heap w !! 6%positive = Some (sim_dict scenario_sim) /\
    (forall key, attrs w !! key <> Some (VRef 6%positive)) /\
    attrs w !! "can_params" = Some (VRef 4%positive) /\
    heap w !! 4%positive = Some (can_dict scenario_can) /\
    attrs w !! "parameters" = Some (VRef 5%positive) /\
    exists d, heap w !! 5%positive = Some d /\
              force_dict scenario_force ⊆ d /\ sim_dict scenario_sim ⊆ d /\
              (forall key, key ∈ _parameters.*1 -> is_Some (d !! key)).
Proof.
  apply (construction_ownership scenario_can scenario_force scenario_sim
           (caller_heap scenario_can scenario_force scenario_sim)
           4%positive 5%positive 6%positive ∅);
    try reflexivity; try (clear; discriminate); simpl; lra.
Defined.

(** C4, counterexample. After construction the instance's parameter
    bundle is the caller's [force_params] dictionary itself, and that
    dictionary has changed: it now has a ["trigger"] entry. *)
Lemma construction_aliases_force_params :
  exists w d,
    __init__ 4%positive 5%positive 6%positive
      (caller_world (caller_heap scenario_can scenario_force scenario_sim)) = (Ok tt, w) /\
    caller_heap scenario_can scenario_force scenario_sim !! 5%positive
      = Some (force_dict scenario_force) /\
    attrs w !! "parameters" = Some (VRef 5%positive) /\
    heap w !! 5%positive = Some d /\
    force_dict scenario_force !! "trigger" = None /\
    d !! "trigger" = Some (VNum (trigger scenario_sim)).
Proof.
  destruct (construction_effects scenario_can scenario_force scenario_sim
              (caller_heap scenario_can scenario_force scenario_sim)
              4%positive 5%positive 6%positive ∅)
    as (w & Hinit & _ & _ & _ & _ & _ & _ & _ & Hp & d & Hd & _ & Hsim & _);
    try reflexivity; try (clear; discriminate); try (simpl; lra).
  exists w, d. split; [exact Hinit|]. split; [reflexivity|]. split; [exact Hp|].
  split; [exact Hd|]. split.
  - unfold force_dict. repeat (rewrite lookup_insert_ne by (clear; discriminate)).
    apply lookup_empty.
  - eapply lookup_weaken; [|exact Hsim]. unfold sim_dict. apply lookup_insert_eq.
Qed.

(** ** Consolidation: precedence and persistence *)

Lemma bundle_lookup_recognized a defaults d B key hard :
  NoDup defaults.*1 -> (key, hard) ∈ defaults ->
  (filled a defaults d ∪ B) !! key = Some (resolve d a key hard).
Proof.
  intros Hnd Hin. apply lookup_union_Some_l. now apply filled_lookup_in.
Qed.

Lemma bundle_lookup_other a defaults d (B : gmap string value) key :
  key ∉ defaults.*1 -> d !! key = None ->
  (filled a defaults d ∪ B) !! key = B !! key.
Proof.
  intros Hnot Hnone. apply lookup_union_r.
  now rewrite filled_lookup_notin.
Qed.

Section Consolidation.
Variables (w : world) (p c f bp bc bf : loc).
Variables (dp dc df Bp Bc Bf : gmap string value).
Hypothesis Ap : attrs w !! "parameters" = Some (VRef bp).
Hypothesis Ac : attrs w !! "can_params" = Some (VRef bc).
Hypothesis Af : attrs w !! "fit_params" = Some (VRef bf).
Hypothesis Hp : heap w !! p = Some dp.
Hypothesis Hc : heap w !! c = Some dc.
Hypothesis Hf : heap w !! f = Some df.
Hypothesis Hbp : heap w !! bp = Some Bp.
Hypothesis Hbc : heap w !! bc = Some Bc.
Hypothesis Hbf : heap w !! bf = Some Bf.
Hypothesis Hdistinct : List.NoDup [p; c; f; bp; bc; bf].

Lemma consolidation_effects :
  exists w' Bp' Bc' Bf',
    create_parameters p c f w = (Ok tt, w') /\
    attrs w' = attrs w /\
    heap w' !! bp = Some Bp' /\ heap w' !! bc = Some Bc' /\ heap w' !! bf = Some Bf' /\
    (* every recognized key is resolved afresh: caller, attribute, default *)
    (forall key hard, (key, hard) ∈ _parameters ->
       Bp' !! key = Some (resolve dp (attrs w) key hard)) /\
    (forall key hard, (key, hard) ∈ _can_params ->
       Bc' !! key = Some (resolve dc (attrs w) key hard)) /\
    (forall key hard, (key, hard) ∈ _fit_params ->
       Bf' !! key = Some (resolve df (attrs w) key hard)) /\
    (* a key that is not recognized and not passed keeps its entry *)
    (forall key, key ∉ _parameters.*1 -> dp !! key = None -> Bp' !! key = Bp !! key) /\
    (forall key, key ∉ _can_params.*1 -> dc !! key = None -> Bc' !! key = Bc !! key) /\
    (forall key, key ∉ _fit_params.*1 -> df !! key = None -> Bf' !! key = Bf !! key) /\
    (* the argument dicts are filled, every other dict is untouched *)
    heap w' !! p = Some (filled (attrs w) _parameters dp) /\
    heap w' !! c = Some (filled (attrs w) _can_params dc) /\
    heap w' !! f = Some (filled (attrs w) _fit_params df) /\
    (forall l, l ∉ [p; c; f; bp; bc; bf] -> heap w' !! l = heap w !! l).
Proof.
  assert (p <> c /\ p <> f /\ p <> bp /\ p <> bc /\ p <> bf /\ c <> f /\ c <> bp /\
          c <> bc /\ c <> bf /\ f <> bp /\ f <> bc /\ f <> bf /\ bp <> bc /\
          bp <> bf /\ bc <> bf) as (?&?&?&?&?&?&?&?&?&?&?&?&?&?&?).
  { repeat match goal with
           | H : List.NoDup (_ :: _) |- _ => inversion H; subst; clear H
           end.
    simpl in *. intuition congruence. }
  eexists _, _, _, _. split; [eapply create_parameters_spec; eassumption|]. wsimp.
  unfold consolidated_heap.
  split; [reflexivity|].
  split; [hlook; reflexivity|]. split; [hlook; reflexivity|]. split; [hlook; reflexivity|].
  split; [intros; apply bundle_lookup_recognized; [apply parameters_keys_nodup | assumption]|].
  split; [intros; apply bundle_lookup_recognized; [apply can_params_keys_nodup | assumption]|].
  split; [intros; apply bundle_lookup_recognized; [apply fit_params_keys_nodup | assumption]|].
  split; [intros; now apply bundle_lookup_other|].
  split; [intros; now apply bundle_lookup_other|].
  split; [intros; now apply bundle_lookup_other|].
  split; [hlook; reflexivity|]. split; [hlook; reflexivity|]. split; [hlook; reflexivity|].
  intros l Hl.
  assert (l <> p /\ l <> c /\ l <> f /\ l <> bp /\ l <> bc /\ l <> bf) as (?&?&?&?&?&?).
  { rewrite !not_elem_of_cons in Hl. intuition. }
  hlook. reflexivity.
Qed.

End Consolidation.

(** C6 (amended). [create_parameters] is called with three argument dicts
    that are objects distinct from one another and from the three bundles
    of the instance, as [analyze] calls it and as a call with the default
    arguments does; the call of the constructor, which passes the objects
    that become the bundles, is not covered.  The call resolves each
    recognized key of each of the three groups by the precedence: the
    entry that the argument dict holds when the call starts, else the
    instance attribute of that name, else the hard default.  It writes the
    result into the argument dict and into the bundle, where it replaces
    the entry: what an earlier call resolved for a recognized key stays
    only if the argument dict still holds it, as a dict that is passed
    again and the shared default arguments do, which the earlier call
    filled.  A key that is not recognized and that the argument dict does
    not hold keeps the entry it had in the bundle. *)
Theorem consolidation_precedence
    (w : world) (p c f bp bc bf : loc) (dp dc df Bp Bc Bf : gmap string value)
    (Ap : attrs w !! "parameters" = Some (VRef bp))
    (Ac : attrs w !! "can_params" = Some (VRef bc))
    (Af : attrs w !! "fit_params" = Some (VRef bf))
    (Hp : heap w !! p = Some dp) (Hc : heap w !! c = Some dc) (Hf : heap w !! f = Some df)
    (Hbp : heap w !! bp = Some Bp) (Hbc : heap w !! bc = Some Bc)
    (Hbf : heap w !! bf = Some Bf)
    (Hdistinct : List.NoDup [p; c; f; bp; bc; bf]) :
  exists w' Bp' Bc' Bf',
    create_parameters p c f w = (Ok tt, w') /\
    attrs w' = attrs w /\
    heap w' !! bp = Some Bp' /\ heap w' !! bc = Some Bc' /\ heap w' !! bf = Some Bf' /\
    (forall key hard, (key, hard) ∈ _parameters ->
       Bp' !! key = Some (resolve dp (attrs w) key hard)) /\
    (forall key hard, (key, hard) ∈ _can_params ->
       Bc' !! key = Some (resolve dc (attrs w) key hard)) /\
    (forall key hard, (key, hard) ∈ _fit_params ->
       Bf' !! key = Some (resolve df (attrs w) key hard)) /\
    (forall key, key ∉ _parameters.*1 -> dp !! key = None -> Bp' !! key = Bp !! key) /\
    (forall key, key ∉ _can_params.*1 -> dc !! key = None -> Bc' !! key = Bc !! key) /\
    (forall key, key ∉ _fit_params.*1 -> df !! key = None -> Bf' !! key = Bf !! key) /\
    heap w' !! p = Some (filled (attrs w) _parameters dp) /\
    heap w' !! c = Some (filled (attrs w) _can_params dc) /\
    heap w' !! f = Some (filled (attrs w) _fit_params df) /\
    (forall key hard, (key, hard) ∈ _parameters ->
       filled (attrs w) _parameters dp !! key = Some (resolve dp (attrs w) key hard)) /\
    (forall key hard, (key, hard) ∈ _can_params ->
       filled (attrs w) _can_params dc !! key = Some (resolve dc (attrs w) key hard)) /\
    (forall key hard, (key, hard) ∈ _fit_params ->
       filled (attrs w) _fit_params df !! key = Some (resolve df (attrs w) key hard)).
Proof.
  destruct (consolidation_effects w p c f bp bc bf dp dc df Bp Bc Bf
              Ap Ac Af Hp Hc Hf Hbp Hbc Hbf Hdistinct)
    as (w' & Bp' & Bc' & Bf' & H1 & H2 & H3 & H4 & H5 & H6 & H7 & H8 & H9 & H10 & H11
        & H12 & H13 & H14 & _).
  exists w', Bp', Bc', Bf'. repeat (split; [assumption|]).
  split; [|split]; intros key hard Hin; apply filled_lookup_in; try assumption.
  - apply parameters_keys_nodup.
  - apply can_params_keys_nodup.
  - apply fit_params_keys_nodup.
Qed.

Lemma consolidation_precedence_witness :
  exists w' Bp' Bc' Bf',
    create_parameters 11%positive 12%positive 13%positive consolidating_world = (Ok tt, w') /\
    attrs w' = attrs consolidating_world /\
    heap w' !! 14%positive = Some Bp' /\ heap w' !! 15%positive = Some Bc' /\
    heap w' !! 16%positive = Some Bf' /\
    (forall key hard, (key, hard) ∈ _parameters ->
       Bp' !! key = Some (resolve (<["roi" := VNum (4 / 1000)]> ∅)
                            (attrs consolidating_world) key hard)) /\
    (forall key hard, (key, hard) ∈ _can_params ->
       Bc' !! key = Some (resolve ∅ (attrs consolidating_world) key hard)) /\
    (forall key hard, (key, hard) ∈ _fit_params ->
       Bf' !! key = Some (resolve ∅ (attrs consolidating_world) key hard)) /\
    (forall key, key ∉ _parameters.*1 -> (<["roi" := VNum (4 / 1000)]> ∅ : gmap string value) !! key = None ->
       Bp' !! key = (<["es_force" := VNum 1]> (<["roi" := VNum 1]> ∅) : gmap string value) !! key) /\
    (forall key, key ∉ _can_params.*1 -> (∅ : gmap string value) !! key = None ->
       Bc' !! key = (∅ : gmap string value) !! key) /\
    (forall key, key ∉ _fit_params.*1 -> (∅ : gmap string value) !! key = None ->
       Bf' !! key = (∅ : gmap string value) !! key) /\
    heap w' !! 11%positive
    = Some (filled (attrs consolidating_world) _parameters (<["roi" := VNum (4 / 1000)]> ∅)) /\
    heap w' !! 12%positive = Some (filled (attrs consolidating_world) _can_params ∅) /\
    heap w' !! 13%positive = Some (filled (attrs consolidating_world) _fit_params ∅) /\
    (forall key hard, (key, hard) ∈ _parameters ->
       filled (attrs consolidating_world) _parameters (<["roi" := VNum (4 / 1000)]> ∅) !! key
       = Some (resolve (<["roi" := VNum (4 / 1000)]> ∅) (attrs consolidating_world) key hard)) /\
    (forall key hard, (key, hard) ∈ _can_params ->
       filled (attrs consolidating_world) _can_params ∅ !! key
       = Some (resolve ∅ (attrs consolidating_world) key hard)) /\
    (forall key hard, (key, hard) ∈ _fit_params ->
       filled (attrs consolidating_world) _fit_params ∅ !! key
       = Some (resolve ∅ (attrs consolidating_world) key hard)).
Proof.
  apply (consolidation_precedence consolidating_world
           11%positive 12%positive 13%positive 14%positive 15%positive 16%positive);
    try reflexivity.
  repeat constructor; simpl; intuition discriminate.
Defined.

(** The three ways a key of the witness is resolved: ["roi"] by the
    caller's value, ["drive_freq"] by the instance attribute, ["n_taps"]
    by the hard default. *)
Lemma resolve_three_ways :
  let a := attrs consolidating_world in
  let d : gmap string value := <["roi" := VNum (4 / 1000)]> ∅ in
  resolve d a "roi" (VNum (3 / 10000)) = VNum (4 / 1000) /\
  resolve d a "drive_freq" (VInt 277261) = VNum 1000 /\
  resolve d a "n_taps" (VInt 799) = VInt 799.
Proof. cbv zeta. repeat split; reflexivity. Qed.

Lemma init_attrs_no_roi cc fc sc lc lf fit :
  init_attrs cc fc sc lc lf fit !! "roi" = None.
Proof.
  init_chain. repeat (rewrite lookup_insert_ne by (clear; discriminate)).
  apply lookup_empty.
Qed.


Lemma fresh_loc_none (h : gmap loc (gmap string value)) : h !! fresh (dom h) = None.
Proof. apply not_elem_of_dom. apply is_fresh. Qed.

Section ConstructPost.
Variables (cc : CantileverConfig) (fc : ForceConfig) (sc : SimConfig).
Variables (h : gmap loc (gmap string value)) (lc lf ls : loc).
Variable dfit : gmap string value.
Hypothesis Hc : h !! lc = Some (can_dict cc).
Hypothesis Hf : h !! lf = Some (force_dict fc).
Hypothesis Hs : h !! ls = Some (sim_dict sc).
Hypothesis Hd : h !! default_fit_params = Some dfit.
Hypothesis Hlcf : lc <> lf.
Hypothesis Hdc : default_fit_params <> lc.
Hypothesis Hdf : default_fit_params <> lf.
Hypothesis Hres : res_freq cc <> 0.
Hypothesis Hq : q_factor cc <> 0.
Hypothesis Hk : k cc <> 0.
Hypothesis Hn : 0 <= total_time sc * sampling_rate sc.

(** The state in which the constructor leaves the instance and the heap. *)
Lemma construct_post :
  exists w fit,
    __init__ lc lf ls (caller_world h) = (Ok tt, w) /\
    h !! fit = None /\
    attrs w = init_attrs cc fc sc lc lf fit /\
    heap w !! lf = Some (filled (attrs w) _parameters (sim_dict sc ∪ force_dict fc)) /\
    heap w !! lc = Some (can_dict cc) /\
    heap w !! fit = Some (filled (attrs w) _fit_params dfit) /\
    heap w !! default_fit_params = Some (filled (attrs w) _fit_params dfit) /\
    (forall l, l <> lc -> l <> lf -> l <> default_fit_params -> l <> fit ->
               heap w !! l = h !! l).
Proof.
  pose proof (fresh_loc_ne _ _ _ Hc) as Nc.
  pose proof (fresh_loc_ne _ _ _ Hf) as Nf.
  pose proof (fresh_loc_ne _ _ _ Hd) as Nd.
  exists (mk_world (init_attrs cc fc sc lc lf (fresh (dom h)))
                   (init_heap cc fc sc lc lf dfit h) 0
                   (if np_allclose (cfg_w0 cc) (cfg_wd cc) then []
                    else ["Resonance and Drive not equal. Make sure simulation is long enough!"])),
         (fresh (dom h)).
  split; [now apply construct_spec|].
  split; [apply fresh_loc_none|]. wsimp. unfold init_heap. cbv zeta.
  split; [reflexivity|].
  split; [hlook; reflexivity|].
  split; [hlook; now rewrite can_dict_complete|].
  split; [hlook; reflexivity|].
  split; [hlook; reflexivity|].
  intros l H1 H2 H3 H4. hlook. reflexivity.
Qed.

End ConstructPost.

Lemma allocated_ne_free (h : gmap loc (gmap string value)) l l' d :
  h !! l = None -> h !! l' = Some d -> l' <> l.
Proof. intros Hn Hs ->. rewrite Hn in Hs. discriminate. Qed.

Ltac in_defaults :=
  unfold _parameters, _can_params, _fit_params;
  repeat first [ apply list_elem_of_here | apply list_elem_of_further ].

Ltac loc_ne :=
  first [ assumption | (apply not_eq_sym; assumption) | (clear; discriminate) ].

Ltac not_in_list :=
  rewrite ?not_elem_of_cons; repeat split; try loc_ne; apply not_elem_of_nil.

Ltac locs_nodup :=
  apply NoDup_ListNoDup; repeat (apply NoDup_cons_2; [not_in_list|]); apply NoDup_nil_2.

Section RepeatedConsolidation.
Variables (cc : CantileverConfig) (fc : ForceConfig) (sc : SimConfig).
Variable h : gmap loc (gmap string value).
Variable v : value.
Hypothesis H3 : h !! default_fit_params = Some ∅.
Hypothesis H4 : h !! 4%positive = Some (can_dict cc).
Hypothesis H5 : h !! 5%positive = Some (force_dict fc).
Hypothesis H6 : h !! 6%positive = Some (sim_dict sc).
Hypothesis H7 : h !! 7%positive = Some (<["roi" := v]> ∅).
Hypothesis H8 : h !! 8%positive = Some ∅.
Hypothesis H9 : h !! 9%positive = Some ∅.
Hypothesis H10 : h !! 10%positive = Some ∅.
Hypothesis H11 : h !! 11%positive = Some ∅.
Hypothesis H12 : h !! 12%positive = Some ∅.
Hypothesis Hres : res_freq cc <> 0.
Hypothesis Hq : q_factor cc <> 0.
Hypothesis Hk : k cc <> 0.
Hypothesis Hn : 0 <= total_time sc * sampling_rate sc.

Lemma second_call_resets :
  exists w0 w1 w2 B1 B2,
    __init__ 4%positive 5%positive 6%positive (caller_world h) = (Ok tt, w0) /\
    attrs w0 !! "parameters" = Some (VRef 5%positive) /\
    create_parameters 7%positive 8%positive 9%positive w0 = (Ok tt, w1) /\
    heap w1 !! 5%positive = Some B1 /\ B1 !! "roi" = Some v /\
    heap w1 !! 10%positive = Some ∅ /\
    create_parameters 10%positive 11%positive 12%positive w1 = (Ok tt, w2) /\
    heap w2 !! 5%positive = Some B2 /\ B2 !! "roi" = Some (VNum (3 / 10000)).
Proof.
  destruct (construct_post cc fc sc h 4%positive 5%positive 6%positive ∅)
    as (w0 & fit & Hinit & Hfit & Hattrs & Hlf & Hlc & Hfitd & _ & Hframe);
    try assumption; try (clear; discriminate).
  unfold default_fit_params in *.
  assert (Ap : attrs w0 !! "parameters" = Some (VRef 5%positive))
    by (rewrite Hattrs; unfold init_attrs; look).
  assert (Ac : attrs w0 !! "can_params" = Some (VRef 4%positive))
    by (rewrite Hattrs; unfold init_attrs; look).
  assert (Af : attrs w0 !! "fit_params" = Some (VRef fit))
    by (rewrite Hattrs; unfold init_attrs; look).
  assert (Hroi : attrs w0 !! "roi" = None) by (rewrite Hattrs; apply init_attrs_no_roi).
  pose proof (allocated_ne_free _ _ _ _ Hfit H4) as N4.
  pose proof (allocated_ne_free _ _ _ _ Hfit H5) as N5.
  pose proof (allocated_ne_free _ _ _ _ Hfit H7) as N7.
  pose proof (allocated_ne_free _ _ _ _ Hfit H8) as N8.
  pose proof (allocated_ne_free _ _ _ _ Hfit H9) as N9.
  pose proof (allocated_ne_free _ _ _ _ Hfit H10) as N10.
  pose proof (allocated_ne_free _ _ _ _ Hfit H11) as N11.
  pose proof (allocated_ne_free _ _ _ _ Hfit H12) as N12.
  assert (F7 : heap w0 !! 7%positive = Some (<["roi" := v]> ∅))
    by (rewrite Hframe; [exact H7 | clear; discriminate .. | exact N7]).
  assert (F8 : heap w0 !! 8%positive = Some ∅)
    by (rewrite Hframe; [exact H8 | clear; discriminate .. | exact N8]).
  assert (F9 : heap w0 !! 9%positive = Some ∅)
    by (rewrite Hframe; [exact H9 | clear; discriminate .. | exact N9]).
  assert (F10 : heap w0 !! 10%positive = Some ∅)
    by (rewrite Hframe; [exact H10 | clear; discriminate .. | exact N10]).
  assert (F11 : heap w0 !! 11%positive = Some ∅)
    by (rewrite Hframe; [exact H11 | clear; discriminate .. | exact N11]).
  assert (F12 : heap w0 !! 12%positive = Some ∅)
    by (rewrite Hframe; [exact H12 | clear; discriminate .. | exact N12]).
  destruct (consolidation_effects w0 7%positive 8%positive 9%positive 5%positive 4%positive fit
              _ _ _ _ _ _ Ap Ac Af F7 F8 F9 Hlf Hlc Hfitd)
    as (w1 & B1 & Bc1 & Bf1 & Hc1 & Hattrs1 & Hb1 & Hbc1 & Hbf1 & Hres1 & _ & _ & _ & _ & _
        & _ & _ & _ & Hframe1).
  { locs_nodup. }
  assert (G10 : heap w1 !! 10%positive = Some ∅) by (rewrite Hframe1; [exact F10 | not_in_list]).
  assert (G11 : heap w1 !! 11%positive = Some ∅) by (rewrite Hframe1; [exact F11 | not_in_list]).
  assert (G12 : heap w1 !! 12%positive = Some ∅) by (rewrite Hframe1; [exact F12 | not_in_list]).
  rewrite <- Hattrs1 in Ap, Ac, Af.
  destruct (consolidation_effects w1 10%positive 11%positive 12%positive 5%positive 4%positive fit
              _ _ _ _ _ _ Ap Ac Af G10 G11 G12 Hb1 Hbc1 Hbf1)
    as (w2 & B2 & Bc2 & Bf2 & Hc2 & Hattrs2 & Hb2 & _ & _ & Hres2 & _).
  { locs_nodup. }
  exists w0, w1, w2, B1, B2.
  rewrite Hattrs1 in Ap.
  split; [exact Hinit|]. split; [exact Ap|]. split; [exact Hc1|]. split; [exact Hb1|].
  split.
  { rewrite (Hres1 "roi" (VNum (3 / 10000))) by in_defaults.
    unfold resolve. now rewrite lookup_insert_eq. }
  split; [exact G10|]. split; [exact Hc2|]. split; [exact Hb2|].
  rewrite (Hres2 "roi" (VNum (3 / 10000))) by in_defaults.
  unfold resolve. now rewrite lookup_empty, Hattrs1, Hroi.
Qed.

End RepeatedConsolidation.

(** C6, counterexample. After construction, a first consolidation call
    is passed [{'roi': 0.004}] and resolves ["roi"] to 0.004; a second call
    is passed three empty dicts, so mentions no key, and the bundle's
    ["roi"] is back at the hard default 0.0003. *)
Lemma consolidation_does_not_persist :
  exists w0 w1 w2 B1 B2,
    __init__ 4%positive 5%positive 6%positive (caller_world overrides_heap) = (Ok tt, w0) /\
    attrs w0 !! "parameters" = Some (VRef 5%positive) /\
    create_parameters 7%positive 8%positive 9%positive w0 = (Ok tt, w1) /\
    heap w1 !! 5%positive = Some B1 /\ B1 !! "roi" = Some (VNum (4 / 1000)) /\
    heap w1 !! 10%positive = Some ∅ /\
    create_parameters 10%positive 11%positive 12%positive w1 = (Ok tt, w2) /\
    heap w2 !! 5%positive = Some B2 /\ B2 !! "roi" = Some (VNum (3 / 10000)).
Proof.
  apply (second_call_resets scenario_can scenario_force scenario_sim overrides_heap
           (VNum (4 / 1000))); try reflexivity; simpl; lra.
Qed.

(** ** Isolation between instances *)

Lemma init_attrs_drive_freq cc fc sc lc lf fit :
  init_attrs cc fc sc lc lf fit !! "drive_freq" = Some (VNum (drive_freq cc)).
Proof. can_attr. Qed.

Section TwoInstances.
Variables (cc1 cc2 : CantileverConfig) (fc1 fc2 : ForceConfig) (sc1 sc2 : SimConfig).
Variable h : gmap loc (gmap string value).
Hypothesis H1 : h !! default_params = Some ∅.
Hypothesis H2 : h !! default_can_params = Some ∅.
Hypothesis H3 : h !! default_fit_params = Some ∅.
Hypothesis H4 : h !! 4%positive = Some (can_dict cc1).
Hypothesis H5 : h !! 5%positive = Some (force_dict fc1).
Hypothesis H6 : h !! 6%positive = Some (sim_dict sc1).
Hypothesis H7 : h !! 7%positive = Some (can_dict cc2).
Hypothesis H8 : h !! 8%positive = Some (force_dict fc2).
Hypothesis H9 : h !! 9%positive = Some (sim_dict sc2).
Hypothesis Hres1 : res_freq cc1 <> 0.
Hypothesis Hq1 : q_factor cc1 <> 0.
Hypothesis Hk1 : k cc1 <> 0.
Hypothesis Hn1 : 0 <= total_time sc1 * sampling_rate sc1.
Hypothesis Hres2 : res_freq cc2 <> 0.
Hypothesis Hq2 : q_factor cc2 <> 0.
Hypothesis Hk2 : k cc2 <> 0.
Hypothesis Hn2 : 0 <= total_time sc2 * sampling_rate sc2.

(** Two instances are constructed; [c1.create_parameters()] and then
    [c2.create_parameters()] are called with the default arguments. *)
Lemma default_arguments_leak :
  exists w1 w2 u1 u2 B,
    __init__ 4%positive 5%positive 6%positive (caller_world h) = (Ok tt, w1) /\
    __init__ 7%positive 8%positive 9%positive (caller_world (heap w1)) = (Ok tt, w2) /\
    attrs w2 !! "parameters" = Some (VRef 8%positive) /\
    attrs w2 !! "drive_freq" = Some (VNum (drive_freq cc2)) /\
    create_parameters default_params default_can_params default_fit_params
      (instance_world (attrs w1) (heap w2)) = (Ok tt, u1) /\
    create_parameters default_params default_can_params default_fit_params
      (instance_world (attrs w2) (heap u1)) = (Ok tt, u2) /\
    heap u2 !! 8%positive = Some B /\
    B !! "drive_freq" = Some (VNum (drive_freq cc1)) /\
    (* without the call on the first instance *)
    exists u2' B',
      create_parameters default_params default_can_params default_fit_params
        (instance_world (attrs w2) (heap w2)) = (Ok tt, u2') /\
      heap u2' !! 8%positive = Some B' /\
      B' !! "drive_freq" = Some (VNum (drive_freq cc2)).
Proof.
  destruct (construct_post cc1 fc1 sc1 h 4%positive 5%positive 6%positive ∅)
    as (w1 & fit1 & Hinit1 & Hfit1 & Hattrs1 & Hlf1 & Hlc1 & Hfitd1 & Hdef1 & Hframe1);
    try assumption; try (clear; discriminate).
  unfold default_params, default_can_params, default_fit_params in *.
  pose proof (allocated_ne_free _ _ _ _ Hfit1 H1) as N11.
  pose proof (allocated_ne_free _ _ _ _ Hfit1 H2) as N12.
  pose proof (allocated_ne_free _ _ _ _ Hfit1 H3) as N13.
  pose proof (allocated_ne_free _ _ _ _ Hfit1 H4) as N14.
  pose proof (allocated_ne_free _ _ _ _ Hfit1 H5) as N15.
  pose proof (allocated_ne_free _ _ _ _ Hfit1 H7) as N17.
  pose proof (allocated_ne_free _ _ _ _ Hfit1 H8) as N18.
  pose proof (allocated_ne_free _ _ _ _ Hfit1 H9) as N19.
  assert (F1 : heap w1 !! 1%positive = Some ∅)
    by (rewrite Hframe1; [exact H1 | clear; discriminate .. | exact N11]).
  assert (F2 : heap w1 !! 2%positive = Some ∅)
    by (rewrite Hframe1; [exact H2 | clear; discriminate .. | exact N12]).
  assert (F7 : heap w1 !! 7%positive = Some (can_dict cc2))
    by (rewrite Hframe1; [exact H7 | clear; discriminate .. | exact N17]).
  assert (F8 : heap w1 !! 8%positive = Some (force_dict fc2))
    by (rewrite Hframe1; [exact H8 | clear; discriminate .. | exact N18]).
  assert (F9 : heap w1 !! 9%positive = Some (sim_dict sc2))
    by (rewrite Hframe1; [exact H9 | clear; discriminate .. | exact N19]).
  destruct (construct_post cc2 fc2 sc2 (heap w1) 7%positive 8%positive 9%positive _
              F7 F8 F9 Hdef1)
    as (w2 & fit2 & Hinit2 & Hfit2 & Hattrs2 & Hlf2 & Hlc2 & Hfitd2 & Hdef2 & Hframe2);
    try assumption; try (clear; discriminate).
  pose proof (allocated_ne_free _ _ _ _ Hfit2 F1) as M1.
  pose proof (allocated_ne_free _ _ _ _ Hfit2 F2) as M2.
  pose proof (allocated_ne_free _ _ _ _ Hfit2 Hdef1) as M3.
  pose proof (allocated_ne_free _ _ _ _ Hfit2 Hlc1) as M4.
  pose proof (allocated_ne_free _ _ _ _ Hfit2 Hlf1) as M5.
  pose proof (allocated_ne_free _ _ _ _ Hfit2 F7) as M7.
  pose proof (allocated_ne_free _ _ _ _ Hfit2 F8) as M8.
  pose proof (allocated_ne_free _ _ _ _ Hfit2 Hfitd1) as Mf.
  assert (G1 : heap w2 !! 1%positive = Some ∅)
    by (rewrite Hframe2; [exact F1 | clear; discriminate .. | exact M1]).
  assert (G2 : heap w2 !! 2%positive = Some ∅)
    by (rewrite Hframe2; [exact F2 | clear; discriminate .. | exact M2]).
  assert (G5 : heap w2 !! 5%positive = heap w1 !! 5%positive)
    by (rewrite Hframe2; [reflexivity | clear; discriminate .. | exact M5]).
  assert (G4 : heap w2 !! 4%positive = heap w1 !! 4%positive)
    by (rewrite Hframe2; [reflexivity | clear; discriminate .. | exact M4]).
  assert (Gf : heap w2 !! fit1 = heap w1 !! fit1)
    by (rewrite Hframe2; [reflexivity | loc_ne .. ]).
  rewrite Hlf1 in G5. rewrite Hlc1 in G4. rewrite Hfitd1 in Gf.
  (* c1.create_parameters() *)
  assert (Ap1 : attrs w1 !! "parameters" = Some (VRef 5%positive))
    by (rewrite Hattrs1; unfold init_attrs; look).
  assert (Ac1 : attrs w1 !! "can_params" = Some (VRef 4%positive))
    by (rewrite Hattrs1; unfold init_attrs; look).
  assert (Af1 : attrs w1 !! "fit_params" = Some (VRef fit1))
    by (rewrite Hattrs1; unfold init_attrs; look).
  assert (Ad1 : attrs w1 !! "drive_freq" = Some (VNum (drive_freq cc1)))
    by (rewrite Hattrs1; apply init_attrs_drive_freq).
  assert (Ap2 : attrs w2 !! "parameters" = Some (VRef 8%positive))
    by (rewrite Hattrs2; unfold init_attrs; look).
  assert (Ac2 : attrs w2 !! "can_params" = Some (VRef 7%positive))
    by (rewrite Hattrs2; unfold init_attrs; look).
  assert (Af2 : attrs w2 !! "fit_params" = Some (VRef fit2))
    by (rewrite Hattrs2; unfold init_attrs; look).
  assert (Ad2 : attrs w2 !! "drive_freq" = Some (VNum (drive_freq cc2)))
    by (rewrite Hattrs2; apply init_attrs_drive_freq).
  destruct (consolidation_effects (instance_world (attrs w1) (heap w2))
              1%positive 2%positive 3%positive 5%positive 4%positive fit1
              _ _ _ _ _ _ Ap1 Ac1 Af1 G1 G2 Hdef2 G5 G4 Gf)
    as (u1 & B1 & Bc1 & Bf1 & Hu1 & _ & _ & _ & _ & _ & _ & _ & _ & _ & _
        & Hp1 & Hc1 & Hf1 & Hfr1).
  { locs_nodup. }
  cbn [attrs heap instance_world] in Hp1, Hc1, Hf1, Hfr1.
  assert (K8 : heap u1 !! 8%positive = heap w2 !! 8%positive) by (apply Hfr1; not_in_list).
  assert (K7 : heap u1 !! 7%positive = heap w2 !! 7%positive) by (apply Hfr1; not_in_list).
  assert (Kf : heap u1 !! fit2 = heap w2 !! fit2) by (apply Hfr1; not_in_list).
  rewrite Hlf2 in K8. rewrite Hlc2 in K7. rewrite Hfitd2 in Kf.
  (* c2.create_parameters() *)
  destruct (consolidation_effects (instance_world (attrs w2) (heap u1))
              1%positive 2%positive 3%positive 8%positive 7%positive fit2
              _ _ _ _ _ _ Ap2 Ac2 Af2 Hp1 Hc1 Hf1 K8 K7 Kf)
    as (u2 & B2 & Bc2 & Bf2 & Hu2 & _ & Hb2 & _ & _ & Hr2 & _).
  { locs_nodup. }
  cbn [attrs heap instance_world] in Hr2.
  (* c2.create_parameters() alone *)
  destruct (consolidation_effects (instance_world (attrs w2) (heap w2))
              1%positive 2%positive 3%positive 8%positive 7%positive fit2
              _ _ _ _ _ _ Ap2 Ac2 Af2 G1 G2 Hdef2 Hlf2 Hlc2 Hfitd2)
    as (u2' & B2' & Bc2' & Bf2' & Hu2' & _ & Hb2' & _ & _ & Hr2' & _).
  { locs_nodup. }
  cbn [attrs heap instance_world] in Hr2'.
  exists w1, w2, u1, u2, B2.
  split; [exact Hinit1|]. split; [exact Hinit2|]. split; [exact Ap2|]. split; [exact Ad2|].
  split; [exact Hu1|]. split; [exact Hu2|]. split; [exact Hb2|].
  split.
  { rewrite (Hr2 "drive_freq" (VInt 277261)) by in_defaults.
    unfold resolve.
    rewrite (filled_lookup_in _ _ _ _ (VInt 277261) parameters_keys_nodup) by in_defaults.
    unfold resolve. now rewrite lookup_empty, Ad1. }
  exists u2', B2'. split; [exact Hu2'|]. split; [exact Hb2'|].
  rewrite (Hr2' "drive_freq" (VInt 277261)) by in_defaults.
  unfold resolve. now rewrite lookup_empty, Ad2.
Qed.

End TwoInstances.

(** C8, at the failing input. The 1 kHz cantilever and the 277261 Hz
    cantilever are constructed; after [c1.create_parameters()], the call
    [c2.create_parameters()] writes the drive frequency of the first
    instance, 1000, into the parameter bundle of the second, whose own
    [drive_freq] is 277261.  Without the call on the first instance the
    second resolves its own 277261. *)
Theorem shared_defaults_leak :
  exists w1 w2 u1 u2 B,
    __init__ 4%positive 5%positive 6%positive (caller_world two_instances_heap) = (Ok tt, w1) /\
    __init__ 7%positive 8%positive 9%positive (caller_world (heap w1)) = (Ok tt, w2) /\
    attrs w2 !! "parameters" = Some (VRef 8%positive) /\
    attrs w2 !! "drive_freq" = Some (VNum (drive_freq scenario_can)) /\
    create_parameters default_params default_can_params default_fit_params
      (instance_world (attrs w1) (heap w2)) = (Ok tt, u1) /\
    create_parameters default_params default_can_params default_fit_params
      (instance_world (attrs w2) (heap u1)) = (Ok tt, u2) /\
    heap u2 !! 8%positive = Some B /\
    B !! "drive_freq" = Some (VNum (drive_freq khz_can)) /\
    exists u2' B',
      create_parameters default_params default_can_params default_fit_params
        (instance_world (attrs w2) (heap w2)) = (Ok tt, u2') /\
      heap u2' !! 8%positive = Some B' /\
      B' !! "drive_freq" = Some (VNum (drive_freq scenario_can)).
Proof.
  apply (default_arguments_leak khz_can scenario_can scenario_force scenario_force
           short_sim scenario_sim two_instances_heap);
    try reflexivity; simpl; lra.
Qed.

(** ** The per-line fan-out *)

Lemma setitem_ok (a : list R) i x :
  (i < length a)%nat -> setitem a i x = Ok (<[i := x]> a).
Proof. intros Hi. unfold setitem. now rewrite bool_decide_true. Qed.

Lemma analyzer_results_length `{PixelAnalyzer} pixels p results :
  analyzer_results pixels p = Some results -> length results = length pixels.
Proof.
  revert results. induction pixels as [|pix rest IH]; intros results Hr; simpl in Hr.
  - now inversion Hr.
  - destruct (pixel_get_tfp pix p) as [r|e]; [|discriminate].
    destruct (analyzer_results rest p) as [rs|]; [|discriminate].
    inversion Hr; subst. simpl. f_equal. now apply IH.
Qed.

Lemma analyzer_results_total `{PixelAnalyzer} pixels p :
  (forall pix, pix ∈ pixels -> exists r, pixel_get_tfp pix p = Ok r) ->
  exists results, analyzer_results pixels p = Some results.
Proof.
  induction pixels as [|pix rest IH]; intros Hall; simpl.
  - now exists [].
  - destruct (Hall pix) as [r Hr]; [apply list_elem_of_here|].
    destruct IH as [rs Hrs].
    { intros pix' Hin. apply Hall. now apply list_elem_of_further. }
    rewrite Hr, Hrs. now exists (r :: rs).
Qed.

(** The loop writes the analyzer's results into entries
    [i, i + 1, ...] of the two arrays and leaves the others. *)
Lemma analyse_pixels_spec `{PixelAnalyzer} pixels :
  forall results i l,
    analyzer_results pixels (params l) = Some results ->
    (i + length pixels <= length (tfp l))%nat ->
    (i + length pixels <= length (shift l))%nat ->
    exists l',
      analyse_pixels i pixels l = (Ok tt, l') /\
      tfp l' = (take i (tfp l) ++ map fst results ++ drop (i + length pixels) (tfp l))%list /\
      shift l' = (take i (shift l) ++ map snd results ++ drop (i + length pixels) (shift l))%list /\
      params l' = params l /\ signal_array l' = signal_array l /\ n_pixels l' = n_pixels l.
Proof.
  induction pixels as [|pix rest IH]; intros results i l Hr Ht Hs; simpl in *.
  - inversion Hr; subst. exists l. simpl.
    rewrite Nat.add_0_r, !take_drop. repeat split.
  - destruct (pixel_get_tfp pix (params l)) as [[t s]|e] eqn:Ep; [|discriminate].
    destruct (analyzer_results rest (params l)) as [rs|] eqn:Ers; [|discriminate].
    inversion Hr; subst results. clear Hr.
    rewrite setitem_ok by lia. cbn [shift]. rewrite setitem_ok by lia.
    cbn [signal_array n_pixels params tfp].
    edestruct (IH rs (S i)
                 (mk_line (signal_array l) (n_pixels l) (params l)
                    (<[i := t]> (tfp l)) (<[i := s]> (shift l))))
      as (l' & Hrun & Htfp & Hshift & Hp & Hsig & Hn).
    { exact Ers. }
    { cbn [tfp]. rewrite length_insert. lia. }
    { cbn [shift]. rewrite length_insert. lia. }
    cbn [tfp shift params signal_array n_pixels] in *.
    exists l'. split; [exact Hrun|].
    split; [|split; [|auto]].
    + rewrite Htfp. simpl.
      rewrite (take_S_r _ _ t) by (apply list_lookup_insert_eq; lia).
      rewrite take_insert_ge by lia. rewrite drop_insert_lt by lia.
      rewrite <- app_assoc. simpl. do 3 f_equal. f_equal. lia.
    + rewrite Hshift. simpl.
      rewrite (take_S_r _ _ s) by (apply list_lookup_insert_eq; lia).
      rewrite take_insert_ge by lia. rewrite drop_insert_lt by lia.
      rewrite <- app_assoc. simpl. do 3 f_equal. f_equal. lia.
Qed.

Lemma np_split_columns_ok (a : ndarray) (nrow ncol : nat) (n : Z) :
  shape a = [nrow; ncol] -> (0 < n)%Z -> (Z.of_nat ncol mod n = 0)%Z ->
  np_split_columns a n =
    Ok (map (fun i => column_block a nrow ncol (i * (ncol / Z.to_nat n)) (ncol / Z.to_nat n))
            (seq 0 (Z.to_nat n))).
Proof.
  intros Hshape Hn Hmod. unfold np_split_columns. rewrite Hshape.
  destruct (n =? 0)%Z eqn:E0; [apply Z.eqb_eq in E0; lia|].
  rewrite Hmod. simpl.
  destruct (n <? 0)%Z eqn:E1; [apply Z.ltb_lt in E1; lia|].
  reflexivity.
Qed.

Lemma Line_ok (a : ndarray) (n : Z) p :
  (0 <= n)%Z ->
  Line a n p = Ok (mk_line a n p (repeat 0 (Z.to_nat n)) (repeat 0 (Z.to_nat n))).
Proof.
  intros Hn. unfold Line, np_empty.
  destruct (n <? 0)%Z eqn:E; [apply Z.ltb_lt in E; lia | reflexivity].
Qed.

(** C9. For a two-dimensional signal array whose number of columns is a
    multiple of the (positive) number of pixels, [get_tfp] splits the
    array into [n_pixels] segments of equal width, hands each segment with
    the parameters to the per-pixel analyzer, and, the analyzer returning
    on each segment, returns the two arrays of its results, each with one
    entry per segment: [n_pixels] entries. *)
Theorem get_tfp_per_pixel `{PixelAnalyzer}
    (signal : ndarray) (nrow ncol : nat) (n : Z) (p : gmap string value)
    (Hshape : shape signal = [nrow; ncol])
    (Hn : (0 < n)%Z)
    (Hmod : (Z.of_nat ncol mod n = 0)%Z)
    (Hanalyzer : forall i, (i < Z.to_nat n)%nat ->
       exists r, pixel_get_tfp
                   (column_block signal nrow ncol (i * (ncol / Z.to_nat n)) (ncol / Z.to_nat n))
                   p = Ok r) :
  exists l pixels results l',
    Line signal n p = Ok l /\
    np_split_columns signal n = Ok pixels /\
    length pixels = Z.to_nat n /\
    (forall i pix, pixels !! i = Some pix ->
       pix = column_block signal nrow ncol (i * (ncol / Z.to_nat n)) (ncol / Z.to_nat n)) /\
    analyzer_results pixels p = Some results /\
    get_tfp l = (Ok (map fst results, map snd results), l') /\
    length (map fst results) = Z.to_nat n /\
    length (map snd results) = Z.to_nat n.
Proof.
  set (w := (ncol / Z.to_nat n)%nat).
  set (pixels := map (fun i => column_block signal nrow ncol (i * w) w) (seq 0 (Z.to_nat n))).
  assert (Hlen : length pixels = Z.to_nat n) by (unfold pixels; now rewrite length_map, length_seq).
  destruct (analyzer_results_total pixels p) as [results Hres].
  { intros pix Hin. unfold pixels in Hin.
    apply list_elem_of_fmap in Hin as (i & -> & Hi).
    apply elem_of_seq in Hi. apply Hanalyzer. lia. }
  pose proof (analyzer_results_length _ _ _ Hres) as Hrl.
  set (l := mk_line signal n p (repeat 0 (Z.to_nat n)) (repeat 0 (Z.to_nat n))).
  destruct (analyse_pixels_spec pixels results 0%nat l) as (l' & Hrun & Htfp & Hshift & _).
  { exact Hres. }
  { simpl. rewrite repeat_length. lia. }
  { simpl. rewrite repeat_length. lia. }
  exists l, pixels, results, l'.
  split; [apply Line_ok; lia|].
  split; [now apply np_split_columns_ok|].
  split; [exact Hlen|].
  split.
  { intros i pix Hi. unfold pixels in Hi. rewrite list_lookup_fmap in Hi.
    destruct (seq 0 (Z.to_nat n) !! i) as [j|] eqn:Ej; [|discriminate].
    apply lookup_seq in Ej as [-> _]. simpl in Hi. now inversion Hi. }
  split; [exact Hres|].
  split.
  { unfold get_tfp. cbn [signal_array n_pixels l].
    rewrite (np_split_columns_ok signal nrow ncol n Hshape Hn Hmod).
    fold w. fold pixels. fold l. rewrite Hrun.
    rewrite Htfp, Hshift. simpl.
    rewrite !drop_ge by (rewrite repeat_length; lia).
    now rewrite !app_nil_r. }
  rewrite !length_map. lia.
Qed.

Lemma get_tfp_per_pixel_witness :
  exists l pixels results l',
    Line example_signal 2 ∅ = Ok l /\
    np_split_columns example_signal 2 = Ok pixels /\
    length pixels = Z.to_nat 2 /\
    (forall i pix, pixels !! i = Some pix ->
       pix = column_block example_signal 2 4 (i * (4 / Z.to_nat 2)) (4 / Z.to_nat 2)) /\
    analyzer_results (H := counting_analyzer) pixels ∅ = Some results /\
    get_tfp (H := counting_analyzer) l = (Ok (map fst results, map snd results), l') /\
    length (map fst results) = Z.to_nat 2 /\
    length (map snd results) = Z.to_nat 2.
Proof.
  apply (get_tfp_per_pixel (H := counting_analyzer) example_signal 2 4 2 ∅).
  - reflexivity.
  - lia.
  - reflexivity.
  - intros i _. eexists. reflexivity.
Defined.

(** The example line: two pixels of two columns each; the results are
    the first sample and the sample count of each pixel. *)
Lemma get_tfp_example :
  fst (get_tfp (H := counting_analyzer)
         (mk_line example_signal 2 ∅ [0; 0] [0; 0]))
  = Ok ([1; 3], [INR 4; INR 4]).
Proof. reflexivity. Qed.
(** ** The resolved trigger time *)

Lemma Int_part_plus_int x (z : Z) : Int_part (x + IZR z) = (Int_part x + z)%Z.
Proof.
  apply Int_part_unique. rewrite plus_IZR.
  pose proof (Int_part_bounds x). lra.
Qed.

Lemma np_mod_plus_periods x m (z : Z) : m <> 0 -> np_mod (x + IZR z * m) m = np_mod x m.
Proof.
  intros Hm. unfold np_mod.
  replace ((x + IZR z * m) / m) with (x / m + IZR z) by (field; assumption).
  rewrite Int_part_plus_int, plus_IZR. ring.
Qed.

(** The drive phase at the resolved trigger time is the requested one. *)
Lemma sim_t0_phase tp wd trg dl :
  wd <> 0 ->
  np_mod (wd * sim_t0 tp wd trg dl - dl) PI2 = np_mod (PI * tp / 180) PI2.
Proof.
  intros Hwd. pose proof PI2_pos as Hpi2.
  unfold sim_t0, sim_phase_diff.
  set (P := np_mod (PI * tp / 180) PI2).
  assert (HP : 0 <= P < PI2) by (apply np_mod_range; lra).
  set (X := wd * trg - dl).
  set (k2 := Int_part (X / PI2)).
  assert (Hcp : np_mod X PI2 = X - IZR k2 * PI2) by reflexivity.
  rewrite Hcp.
  set (k1 := Int_part ((P - (X - IZR k2 * PI2)) / PI2)).
  assert (Hpd : np_mod (P - (X - IZR k2 * PI2)) PI2
                = P - (X - IZR k2 * PI2) - IZR k1 * PI2) by reflexivity.
  rewrite Hpd.
  replace (wd * (trg + (P - (X - IZR k2 * PI2) - IZR k1 * PI2) / wd) - dl)
    with (P + IZR (k2 - k1) * PI2)
    by (unfold X; rewrite minus_IZR; field; assumption).
  rewrite np_mod_plus_periods by lra.
  now apply np_mod_id.
Qed.

Lemma sim_t0_window tp wd trg dl :
  0 < wd -> trg <= sim_t0 tp wd trg dl < trg + PI2 / wd.
Proof.
  intros Hwd. unfold sim_t0.
  pose proof (sim_phase_diff_range tp wd trg dl) as [H0 H1].
  split.
  - assert (0 <= sim_phase_diff tp wd trg dl / wd); [|lra].
    apply Rmult_le_pos; [assumption|]. left. now apply Rinv_0_lt_compat.
  - apply Rplus_lt_compat_l. unfold Rdiv.
    apply Rmult_lt_compat_r; [now apply Rinv_0_lt_compat | assumption].
Qed.

Lemma set_conditions_constructed cc fc sc lc lf fit tp w dl :
  attrs w = init_attrs cc fc sc lc lf fit ->
  res_freq cc <> 0 -> drive_freq cc <> 0 -> cfg_delta cc = Fin dl ->
  set_conditions tp w =
    (Ok tt, mk_world (conditions_attrs tp (total_time sc) (sampling_rate sc) (res_freq cc)
                        (cfg_wd cc) (trigger sc) dl (cfg_amp cc) (attrs w))
              (heap w) (ode_calls w) (stdout w)).
Proof.
  intros Ha Hres Hdr Hdl. pose proof PI2_pos as Hpi2.
  assert (Hwd : cfg_wd cc <> 0)
    by (unfold cfg_wd; apply Rmult_integral_contrapositive; split; lra).
  eapply (set_conditions_spec w (total_time sc) (sampling_rate sc) (res_freq cc) (cfg_wd cc)
           (trigger sc) dl (cfg_amp cc));
    try assumption; rewrite Ha; try rewrite <- Hdl; init_look.
Qed.

(** X1. On a constructed instance with a positive drive frequency, the
    phase trigger solver resolves the trigger time [t0] to an instant in
    the drive period that starts at the nominal trigger, and the phase of
    the steady-state motion at [t0], [wd * t0 - delta], is the requested
    trigger phase modulo a full turn. *)
Theorem trigger_time_phase_locked
    (cc : CantileverConfig) (fc : ForceConfig) (sc : SimConfig) (lc lf fit : loc)
    (tp : R) (w : world)
    (Hattrs : attrs w = init_attrs cc fc sc lc lf fit)
    (Hres : res_freq cc <> 0) (Hq : q_factor cc <> 0) (Hdr : 0 < drive_freq cc) :
  exists w' t0 dl,
    set_conditions tp w = (Ok tt, w') /\
    attrs w' !! "t0" = Some (VNum t0) /\
    attrs w' !! "delta" = Some (VNum dl) /\
    trigger sc <= t0 < trigger sc + 1 / drive_freq cc /\
    np_mod (cfg_wd cc * t0 - dl) PI2 = np_mod (PI * tp / 180) PI2.
Proof.
  assert (Hdr' : drive_freq cc <> 0) by lra.
  destruct (cfg_delta_fin cc Hres Hq Hdr') as (dl & Hdl & _).
  pose proof PI2_pos as Hpi2.
  assert (Hwd : 0 < cfg_wd cc) by (unfold cfg_wd; apply Rmult_lt_0_compat; lra).
  eexists _, (sim_t0 tp (cfg_wd cc) (trigger sc) dl), dl.
  split; [eapply set_conditions_constructed; eassumption|].
  split; [unfold conditions_attrs; look|].
  split; [unfold conditions_attrs; wsimp; rewrite Hattrs, <- Hdl; init_look|].
  split.
  - replace (1 / drive_freq cc) with (PI2 / cfg_wd cc)
      by (unfold cfg_wd; field; split; lra).
    now apply sim_t0_window.
  - apply sim_t0_phase. lra.
Qed.

Lemma trigger_time_phase_locked_witness :
  exists w' t0 dl,
    set_conditions 180 (constructed scenario_can scenario_force scenario_sim) = (Ok tt, w') /\
    attrs w' !! "t0" = Some (VNum t0) /\
    attrs w' !! "delta" = Some (VNum dl) /\
    trigger scenario_sim <= t0 < trigger scenario_sim + 1 / drive_freq scenario_can /\
    np_mod (cfg_wd scenario_can * t0 - dl) PI2 = np_mod (PI * 180 / 180) PI2.
Proof.
  apply (trigger_time_phase_locked scenario_can scenario_force scenario_sim
           4%positive 5%positive 7%positive 180
           (constructed scenario_can scenario_force scenario_sim));
    [reflexivity | simpl; lra ..].
Defined.

(** X2. When the drive frequency equals the resonance frequency, the
    initial condition that the phase trigger solver sets is the turning
    point of the motion: position [-amp], velocity [0]. *)
Theorem resonant_initial_condition
    (cc : CantileverConfig) (fc : ForceConfig) (sc : SimConfig) (lc lf fit : loc)
    (tp : R) (w : world)
    (Hattrs : attrs w = init_attrs cc fc sc lc lf fit)
    (Hres : res_freq cc <> 0) (Hq : q_factor cc <> 0)
    (Heq : drive_freq cc = res_freq cc) :
  exists w' z0 v0,
    set_conditions tp w = (Ok tt, w') /\
    attrs w' !! "Z0" = Some (VArr (array1 [z0; v0])) /\
    z0 = - cfg_amp cc /\ v0 = 0.
Proof.
  pose proof (resonance_delta cc Hres Hq Heq) as Hdl.
  assert (Hdr : drive_freq cc <> 0) by congruence.
  eexists _, _, _.
  split; [eapply set_conditions_constructed; eassumption|].
  split; [unfold conditions_attrs; look|].
  rewrite sin_neg, cos_neg, sin_PI2, cos_PI2. split; ring.
Qed.

Lemma resonant_initial_condition_witness :
  exists w' z0 v0,
    set_conditions 180 (constructed scenario_can scenario_force scenario_sim) = (Ok tt, w') /\
    attrs w' !! "Z0" = Some (VArr (array1 [z0; v0])) /\
    z0 = - cfg_amp scenario_can /\ v0 = 0.
Proof.
  apply (resonant_initial_condition scenario_can scenario_force scenario_sim
           4%positive 5%positive 7%positive 180
           (constructed scenario_can scenario_force scenario_sim));
    [reflexivity | simpl; lra | simpl; lra | reflexivity].
Defined.

(** ** The steady-state motion solves the equation of motion *)

Lemma drive_phase_derivative wd dl t :
  derivable_pt_lim (fun t => wd * t - dl) t wd.
Proof.
  assert (H : derivable_pt_lim (mult_real_fct wd id - fct_cte dl)%F t (wd * 1 - 0)).
  { apply derivable_pt_lim_minus.
    - apply derivable_pt_lim_scal. apply derivable_pt_lim_id.
    - apply derivable_pt_lim_const. }
  replace (wd * 1 - 0) with wd in H by ring. exact H.
Qed.

Lemma steady_z_derivative amp wd dl t :
  derivable_pt_lim (steady_z amp wd dl) t (steady_v amp wd dl t).
Proof.
  unfold steady_z, steady_v.
  pose proof (drive_phase_derivative wd dl t) as Hin.
  replace (amp * wd * cos (wd * t - dl)) with (amp * (cos (wd * t - dl) * wd)) by ring.
  apply (derivable_pt_lim_scal (comp sin (fun t => wd * t - dl)) amp).
  apply derivable_pt_lim_comp; [exact Hin|]. apply derivable_pt_lim_sin.
Qed.

Lemma steady_v_derivative amp wd dl t :
  derivable_pt_lim (steady_v amp wd dl) t (steady_a amp wd dl t).
Proof.
  unfold steady_v, steady_a.
  pose proof (drive_phase_derivative wd dl t) as Hin.
  replace (- (amp * wd ^ 2 * sin (wd * t - dl)))
    with (amp * wd * (- sin (wd * t - dl) * wd)) by ring.
  apply (derivable_pt_lim_scal (comp cos (fun t => wd * t - dl)) (amp * wd)).
  apply derivable_pt_lim_comp; [exact Hin|]. apply derivable_pt_lim_cos.
Qed.

(** The drive, split along the steady-state phase. *)
Lemma drive_decomposition cc dl :
  0 < res_freq cc -> 0 < drive_freq cc <= res_freq cc -> 0 < q_factor cc ->
  cfg_delta cc = Fin dl ->
  cfg_f0 cc * cos dl = cfg_amp cc * (cfg_w0 cc ^ 2 - cfg_wd cc ^ 2) /\
  cfg_f0 cc * sin dl = cfg_amp cc * (2 * cfg_beta cc * cfg_wd cc).
Proof.
  intros Hres [Hdr Hle] Hq Hdl. pose proof PI2_pos as Hpi2.
  assert (Hwd : 0 < cfg_wd cc) by (unfold cfg_wd; apply Rmult_lt_0_compat; lra).
  assert (Hw0 : 0 < cfg_w0 cc) by (unfold cfg_w0; apply Rmult_lt_0_compat; lra).
  assert (Hwle : cfg_wd cc <= cfg_w0 cc)
    by (unfold cfg_wd, cfg_w0; apply Rmult_le_compat_l; lra).
  assert (Hbeta : 0 < cfg_beta cc).
  { unfold cfg_beta. apply Rdiv_lt_0_compat; lra. }
  unfold cfg_f0. unfold cfg_delta in Hdl.
  set (a := cfg_w0 cc ^ 2 - cfg_wd cc ^ 2) in *.
  set (b := 2 * cfg_beta cc * cfg_wd cc).
  replace (2 * cfg_wd cc * cfg_beta cc) with b in Hdl by (unfold b; ring).
  replace (4 * cfg_beta cc ^ 2 * cfg_wd cc ^ 2) with (b ^ 2) by (unfold b; ring).
  assert (Hb : 0 < b) by (unfold b; apply Rmult_lt_0_compat; [lra | assumption]).
  assert (Ha : 0 <= a) by (unfold a; nra).
  unfold np_divide in Hdl. destruct (Req_dec_T a 0) as [Ha0|Ha0].
  - destruct (Rlt_dec 0 b) as [_|N]; [|contradiction].
    simpl in Hdl. pose proof PI_RGT_0.
    rewrite Rabs_right in Hdl by lra.
    injection Hdl as <-. rewrite Ha0, cos_PI2, sin_PI2.
    replace (0 ^ 2 + b ^ 2) with (b ^ 2) by ring.
    rewrite sqrt_pow2 by lra. split; ring.
  - simpl in Hdl. assert (Hapos : 0 < a) by lra.
    assert (Hx : 0 < b / a) by (apply Rdiv_lt_0_compat; assumption).
    assert (Hatan : 0 < atan (b / a)) by (rewrite <- atan_0; apply atan_increasing; exact Hx).
    rewrite Rabs_right in Hdl by lra.
    injection Hdl as <-.
    rewrite cos_atan, sin_atan.
    assert (Hs : sqrt (a ^ 2 + b ^ 2) = a * sqrt (1 + (b / a)²)).
    { rewrite <- (sqrt_pow2 a) at 2 by lra.
      rewrite <- sqrt_mult_alt by (apply pow2_ge_0).
      f_equal. unfold Rsqr. field. lra. }
    assert (Hpos : 0 < sqrt (1 + (b / a)²)).
    { apply sqrt_lt_R0. pose proof (Rle_0_sqr (b / a)). lra. }
    rewrite Hs. split; field; lra.
Qed.

Lemma steady_state_rhs cc dl t t0 tau :
  0 < res_freq cc -> 0 < drive_freq cc <= res_freq cc -> 0 < q_factor cc ->
  cfg_delta cc = Fin dl ->
  dZ_dt (cfg_f0 cc) (cfg_wd cc) (cfg_w0 cc) (q_factor cc) t0 tau
        (steady_z (cfg_amp cc) (cfg_wd cc) dl t, steady_v (cfg_amp cc) (cfg_wd cc) dl t) t
  = (steady_v (cfg_amp cc) (cfg_wd cc) dl t, steady_a (cfg_amp cc) (cfg_wd cc) dl t).
Proof.
  intros Hres Hdr Hq Hdl.
  destruct (drive_decomposition cc dl Hres Hdr Hq Hdl) as [Hc Hs].
  unfold dZ_dt, force, omega, steady_z, steady_v, steady_a. cbn [fst snd]. f_equal.
  set (th := cfg_wd cc * t - dl).
  replace (cfg_wd cc * t) with (th + dl) by (unfold th; ring).
  rewrite sin_plus.
  replace (cfg_f0 cc * (sin th * cos dl + cos th * sin dl))
    with (sin th * (cfg_f0 cc * cos dl) + cos th * (cfg_f0 cc * sin dl)) by ring.
  rewrite Hc, Hs. unfold cfg_beta. field. lra.
Qed.

(** X3. For a cantilever driven at or below its resonance frequency, the
    initial condition that the phase trigger solver stores lies on an
    exact solution of the equation of motion that [dZ_dt] encodes with
    [force] and [omega]: it is the value at time zero of the motion
    [amp * sin(wd * t - delta)] and of its velocity, and at every time
    the right-hand side evaluated on the motion and its velocity is the
    velocity and the acceleration of the motion. *)
Theorem initial_condition_on_steady_state
    (cc : CantileverConfig) (fc : ForceConfig) (sc : SimConfig) (lc lf fit : loc)
    (tp : R) (w : world)
    (Hattrs : attrs w = init_attrs cc fc sc lc lf fit)
    (Hres : 0 < res_freq cc) (Hdr : 0 < drive_freq cc <= res_freq cc)
    (Hq : 0 < q_factor cc) :
  exists w' dl,
    let z := steady_z (cfg_amp cc) (cfg_wd cc) dl in
    let v := steady_v (cfg_amp cc) (cfg_wd cc) dl in
    let a := steady_a (cfg_amp cc) (cfg_wd cc) dl in
    set_conditions tp w = (Ok tt, w') /\
    attrs w' !! "delta" = Some (VNum dl) /\
    attrs w' !! "Z0" = Some (VArr (array1 [z 0; v 0])) /\
    forall (t : R) (t0 tau : value),
      derivable_pt_lim z t (v t) /\
      derivable_pt_lim v t (a t) /\
      dZ_dt (cfg_f0 cc) (cfg_wd cc) (cfg_w0 cc) (q_factor cc) t0 tau (z t, v t) t
      = (v t, a t).
Proof.
  assert (Hres' : res_freq cc <> 0) by lra.
  assert (Hq' : q_factor cc <> 0) by lra.
  assert (Hdr' : drive_freq cc <> 0) by lra.
  destruct (cfg_delta_fin cc Hres' Hq' Hdr') as (dl & Hdl & _).
  eexists _, dl. cbv zeta.
  split; [eapply set_conditions_constructed; eassumption|].
  split; [unfold conditions_attrs; wsimp; rewrite Hattrs, <- Hdl; init_look|].
  split.
  - unfold conditions_attrs, steady_z, steady_v.
    replace (cfg_wd cc * 0 - dl) with (- dl) by ring. look.
  - intros t t0 tau. split; [apply steady_z_derivative|].
    split; [apply steady_v_derivative|]. now apply steady_state_rhs.
Qed.

Lemma initial_condition_on_steady_state_witness :
  exists w' dl,
    let z := steady_z (cfg_amp slow_drive_can) (cfg_wd slow_drive_can) dl in
    let v := steady_v (cfg_amp slow_drive_can) (cfg_wd slow_drive_can) dl in
    let a := steady_a (cfg_amp slow_drive_can) (cfg_wd slow_drive_can) dl in
    set_conditions 180 (constructed slow_drive_can scenario_force slow_drive_sim)
    = (Ok tt, w') /\
    attrs w' !! "delta" = Some (VNum dl) /\
    attrs w' !! "Z0" = Some (VArr (array1 [z 0; v 0])) /\
    forall (t : R) (t0 tau : value),
      derivable_pt_lim z t (v t) /\
      derivable_pt_lim v t (a t) /\
      dZ_dt (cfg_f0 slow_drive_can) (cfg_wd slow_drive_can) (cfg_w0 slow_drive_can)
            (q_factor slow_drive_can) t0 tau (z t, v t) t
      = (v t, a t).
Proof.
  apply (initial_condition_on_steady_state slow_drive_can scenario_force slow_drive_sim
           4%positive 5%positive 7%positive 180
           (constructed slow_drive_can scenario_force slow_drive_sim));
    [reflexivity | simpl; lra ..].
Defined.

(** *** Above resonance *)

(** The drive, split along the stored phase lag, when the drive is above
    the resonance: the in-phase part has the wrong sign. *)
Lemma drive_decomposition_above cc dl :
  0 < res_freq cc < drive_freq cc -> 0 < q_factor cc ->
  cfg_delta cc = Fin dl ->
  cfg_f0 cc * cos dl = - (cfg_amp cc * (cfg_w0 cc ^ 2 - cfg_wd cc ^ 2)) /\
  cfg_f0 cc * sin dl = cfg_amp cc * (2 * cfg_beta cc * cfg_wd cc).
Proof.
  intros [Hres Hlt] Hq Hdl. pose proof PI2_pos as Hpi2.
  assert (Hw0 : 0 < cfg_w0 cc) by (unfold cfg_w0; apply Rmult_lt_0_compat; lra).
  assert (Hwlt : cfg_w0 cc < cfg_wd cc)
    by (unfold cfg_wd, cfg_w0; apply Rmult_lt_compat_l; lra).
  assert (Hbeta : 0 < cfg_beta cc).
  { unfold cfg_beta. apply Rdiv_lt_0_compat; lra. }
  unfold cfg_f0. unfold cfg_delta in Hdl.
  set (a := cfg_w0 cc ^ 2 - cfg_wd cc ^ 2) in *.
  set (b := 2 * cfg_beta cc * cfg_wd cc).
  replace (2 * cfg_wd cc * cfg_beta cc) with b in Hdl by (unfold b; ring).
  replace (4 * cfg_beta cc ^ 2 * cfg_wd cc ^ 2) with (b ^ 2) by (unfold b; ring).
  assert (Hb : 0 < b) by (unfold b; apply Rmult_lt_0_compat; lra).
  assert (Ha : a < 0) by (unfold a; nra).
  unfold np_divide in Hdl. destruct (Req_dec_T a 0) as [Ha0|Ha0]; [lra|].
  simpl in Hdl.
  assert (Hx : 0 < b / - a) by (apply Rdiv_lt_0_compat; lra).
  assert (Hatan : Rabs (atan (b / a)) = atan (b / - a)).
  { replace (b / a) with (- (b / - a)) by (field; lra).
    rewrite atan_opp, Rabs_Ropp. apply Rabs_right.
    left. rewrite <- atan_0. now apply atan_increasing. }
  rewrite Hatan in Hdl. injection Hdl as <-.
  rewrite cos_atan, sin_atan.
  assert (Hs : sqrt (a ^ 2 + b ^ 2) = - a * sqrt (1 + (b / - a)²)).
  { rewrite <- (sqrt_pow2 (- a)) at 1 by lra.
    rewrite <- sqrt_mult_alt by (apply pow2_ge_0).
    f_equal. unfold Rsqr. field. lra. }
  assert (Hpos : 0 < sqrt (1 + (b / - a)²)).
  { apply sqrt_lt_R0. pose proof (Rle_0_sqr (b / - a)). lra. }
  rewrite Hs. split; field; lra.
Qed.

(** X4. For a cantilever driven above its resonance frequency, with a
    non-zero amplitude, the motion [amp * sin(wd * t - delta)] from which
    the phase trigger solver takes the initial condition is not a
    solution of the equation of motion that [dZ_dt] encodes: at the time
    when its phase is a quarter turn, the acceleration that [dZ_dt] gives
    is not the acceleration of the motion. *)
Theorem steady_state_fails_above_resonance
    (cc : CantileverConfig) (fc : ForceConfig) (sc : SimConfig) (lc lf fit : loc)
    (tp : R) (w : world)
    (Hattrs : attrs w = init_attrs cc fc sc lc lf fit)
    (Hres : 0 < res_freq cc < drive_freq cc) (Hq : 0 < q_factor cc)
    (Hamp : cfg_amp cc <> 0) :
  exists w' dl t,
    let z := steady_z (cfg_amp cc) (cfg_wd cc) dl in
    let v := steady_v (cfg_amp cc) (cfg_wd cc) dl in
    let a := steady_a (cfg_amp cc) (cfg_wd cc) dl in
    set_conditions tp w = (Ok tt, w') /\
    attrs w' !! "delta" = Some (VNum dl) /\
    attrs w' !! "Z0" = Some (VArr (array1 [z 0; v 0])) /\
    forall t0 tau : value,
      dZ_dt (cfg_f0 cc) (cfg_wd cc) (cfg_w0 cc) (q_factor cc) t0 tau (z t, v t) t
      <> (v t, a t).
Proof.
  assert (Hres' : res_freq cc <> 0) by lra.
  assert (Hq' : q_factor cc <> 0) by lra.
  assert (Hdr' : drive_freq cc <> 0) by lra.
  destruct (cfg_delta_fin cc Hres' Hq' Hdr') as (dl & Hdl & _).
  pose proof PI2_pos as Hpi2.
  assert (Hwd : 0 < cfg_wd cc) by (unfold cfg_wd; apply Rmult_lt_0_compat; lra).
  assert (Hw0 : 0 < cfg_w0 cc) by (unfold cfg_w0; apply Rmult_lt_0_compat; lra).
  assert (Hwlt : cfg_w0 cc < cfg_wd cc)
    by (unfold cfg_wd, cfg_w0; apply Rmult_lt_compat_l; lra).
  eexists _, dl, ((PI / 2 + dl) / cfg_wd cc). cbv zeta.
  split; [eapply set_conditions_constructed; eassumption|].
  split; [unfold conditions_attrs; wsimp; rewrite Hattrs, <- Hdl; init_look|].
  split.
  - unfold conditions_attrs, steady_z, steady_v.
    replace (cfg_wd cc * 0 - dl) with (- dl) by ring. look.
  - intros t0 tau Heq.
    destruct (drive_decomposition_above cc dl Hres Hq Hdl) as [Hc Hs].
    unfold dZ_dt, force, omega, steady_z, steady_v, steady_a in Heq. cbn [fst snd] in Heq.
    injection Heq as Heq.
    replace (cfg_wd cc * ((PI / 2 + dl) / cfg_wd cc) - dl) with (PI / 2) in Heq
      by (field; lra).
    replace (cfg_wd cc * ((PI / 2 + dl) / cfg_wd cc)) with (PI / 2 + dl) in Heq
      by (field; lra).
    rewrite sin_plus, sin_PI2, cos_PI2 in Heq.
    replace (cfg_f0 cc * (1 * cos dl + 0 * sin dl)) with (cfg_f0 cc * cos dl) in Heq by ring.
    rewrite Hc in Heq.
    assert (Hz : cfg_amp cc * (2 * (cfg_wd cc ^ 2 - cfg_w0 cc ^ 2)) = 0).
    { replace (cfg_w0 cc * (cfg_amp cc * cfg_wd cc * 0) / q_factor cc) with 0 in Heq
        by (field; lra).
      lra. }
    apply Rmult_integral in Hz as [Hz|Hz]; [contradiction|]. nra.
Qed.

Lemma steady_state_fails_above_resonance_witness :
  exists w' dl t,
    let z := steady_z (cfg_amp fast_drive_can) (cfg_wd fast_drive_can) dl in
    let v := steady_v (cfg_amp fast_drive_can) (cfg_wd fast_drive_can) dl in
    let a := steady_a (cfg_amp fast_drive_can) (cfg_wd fast_drive_can) dl in
    set_conditions 180 (constructed fast_drive_can scenario_force slow_drive_sim)
    = (Ok tt, w') /\
    attrs w' !! "delta" = Some (VNum dl) /\
    attrs w' !! "Z0" = Some (VArr (array1 [z 0; v 0])) /\
    forall t0 tau : value,
      dZ_dt (cfg_f0 fast_drive_can) (cfg_wd fast_drive_can) (cfg_w0 fast_drive_can)
            (q_factor fast_drive_can) t0 tau (z t, v t) t
      <> (v t, a t).
Proof.
  apply (steady_state_fails_above_resonance fast_drive_can scenario_force slow_drive_sim
           4%positive 5%positive 7%positive 180
           (constructed fast_drive_can scenario_force slow_drive_sim));
    [reflexivity | simpl; lra | simpl; lra | unfold cfg_amp; simpl; lra].
Defined.

(** ** A shift of the trigger phase by a full turn *)








Section Doubles.
Import PrimFloat.
Local Open Scope float_scope.


(** The sample count on binary64 numbers: 0.29 s at 100 Hz make 28
    samples, since the product of the two doubles is just below 29, while
    the documented scenario, 0.002 s at 10 MHz, makes 20000. *)
Lemma n_points_truncates_the_rounded_product :
  F64.n_points 0x1.28f5c28f5c28fp-2 100 = Some 28%Z /\
  F64.n_points 0x1.0624dd2f1a9fcp-9 10000000 = Some 20000%Z.
Proof. split; vm_compute; reflexivity. Qed.

End Doubles.
(** ** simulate with a well-formed initial condition *)

Lemma py_slice_all {A} (l : list A) (i n : Z) :
  length l = Z.to_nat n -> py_slice l (i - i) (i + n - i) = l.
Proof.
  intros Hl. replace (i - i)%Z with 0%Z by lia. replace (i + n - i)%Z with n by lia.
  unfold py_slice, slice_bound. cbn [Z.ltb Z.compare Z.to_nat].
  rewrite Nat.min_0_l, drop_0.
  destruct (n <? 0)%Z eqn:E.
  - apply Z.ltb_lt in E. destruct l; [now rewrite take_nil | simpl in Hl; lia].
  - apply take_ge. lia.
Qed.

Section SimulateExplicit.
Context `{OdeSolver}.
Variables (w : world) (T sr trg f0 wd w0 q : R) (tauv : value) (z0 v0 : R).
Hypothesis A_total_time : attrs w !! "total_time" = Some (VNum T).
Hypothesis A_sampling_rate : attrs w !! "sampling_rate" = Some (VNum sr).
Hypothesis A_trigger : attrs w !! "trigger" = Some (VNum trg).
Hypothesis A_tau : attrs w !! "tau" = Some tauv.
Hypothesis A_f0 : attrs w !! "f0" = Some (VNum f0).
Hypothesis A_wd : attrs w !! "wd" = Some (VNum wd).
Hypothesis A_w0 : attrs w !! "w0" = Some (VNum w0).
Hypothesis A_q : attrs w !! "q_factor" = Some (VNum q).

Lemma simulate_explicit tp :
  let n := py_int (T * sr) in
  let t := map (fun x => x / sr) (np_arange n) in
  let rhs := dZ_dt f0 wd w0 q (VNum trg) tauv in
  let Z := VArr (array1 (map fst (odeint_rows rhs (z0, v0) t))) in
  let info := VInfo (odeint_report rhs (z0, v0) t) in
  simulate tp (VList [z0; v0]) w =
    (Ok (Z, info),
     mk_world (<["Z" := Z]> (<["infodict" := info]> (
               <["Z0" := VList [z0; v0]]> (<["t0" := VNum trg]> (
               <["t" := VArr (arr_div (array1 (np_arange n)) sr)]> (
               <["n_points" := VInt n]> (attrs w)))))))
              (heap w) (S (ode_calls w)) (stdout w)).
Proof.
  cbv zeta. unfold simulate. step_pure. cbn [negb Nat.eqb length is_array_or_list].
  erewrite bind_ok; cycle 1.
  { step_pure. step_pure. cbn [Nat.eqb]. step_pure.
    step_with getnum_num. step_with getnum_num. step_set.
    erewrite bind_ok by (erewrite bind_ok by (apply getattr_some; look); reflexivity).
    step_set. step_with getattr_some. step_set. apply setattr_eq. }
  wsimp. unfold run_odeint.
  erewrite bind_ok; cycle 1.
  { erewrite bind_ok by apply count_ode_call_eq. wsimp.
    erewrite bind_ok by (erewrite bind_ok by (apply getattr_some; look); reflexivity).
    erewrite bind_ok by (erewrite bind_ok by (apply getattr_some; look); reflexivity).
    step_with getattr_some. step_with getattr_some.
    step_with getnum_num. step_with getnum_num. step_with getnum_num.
    step_with getnum_num. reflexivity. }
  wsimp. step_with getattr_some. step_with getnum_num.
  erewrite bind_ok by reflexivity.
  step_with getattr_some.
  erewrite bind_ok by reflexivity.
  erewrite bind_ok by (erewrite bind_ok by (apply getattr_some; look); reflexivity).
  cbn [fst snd arr_div array1 flat].
  rewrite py_slice_all
    by (rewrite odeint_rows_length, length_map; apply length_array1_arange).
  step_set. step_set.
  step_with getattr_some. step_with getattr_some.
  reflexivity.
Qed.

End SimulateExplicit.

(** X5. With a two-element list as initial condition, [simulate] does
    not run the phase trigger solver: the trigger-phase argument has no
    effect, the resolved trigger time is the nominal trigger, the
    integrator runs once, from the given state, over
    [int(total_time * sampling_rate)] time points, and the returned
    waveform is the whole integrated position series, untrimmed. *)
Theorem simulate_given_initial_condition `{OdeSolver}
    (w : world) (T sr trg f0 wd w0 q : R) (tauv : value) (z0 v0 tp tp' : R)
    (A_total_time : attrs w !! "total_time" = Some (VNum T))
    (A_sampling_rate : attrs w !! "sampling_rate" = Some (VNum sr))
    (A_trigger : attrs w !! "trigger" = Some (VNum trg))
    (A_tau : attrs w !! "tau" = Some tauv)
    (A_f0 : attrs w !! "f0" = Some (VNum f0))
    (A_wd : attrs w !! "wd" = Some (VNum wd))
    (A_w0 : attrs w !! "w0" = Some (VNum w0))
    (A_q : attrs w !! "q_factor" = Some (VNum q)) :
  exists Z info w',
    simulate tp (VList [z0; v0]) w = (Ok (VArr Z, info), w') /\
    simulate tp' (VList [z0; v0]) w = simulate tp (VList [z0; v0]) w /\
    flat Z = map fst (odeint_rows (dZ_dt f0 wd w0 q (VNum trg) tauv) (z0, v0)
                        (map (fun x => x / sr) (np_arange (py_int (T * sr))))) /\
    length (flat Z) = Z.to_nat (py_int (T * sr)) /\
    attrs w' !! "t0" = Some (VNum trg) /\
    attrs w' !! "Z0" = Some (VList [z0; v0]) /\
    attrs w' !! "trigger_phase" = attrs w !! "trigger_phase" /\
    ode_calls w' = S (ode_calls w).
Proof.
  pose proof (simulate_explicit w T sr trg f0 wd w0 q tauv z0 v0
                A_total_time A_sampling_rate A_trigger A_tau A_f0 A_wd A_w0 A_q) as E.
  cbv zeta in E.
  eexists _, _, _. split; [apply (E tp)|].
  split; [now rewrite (E tp'), (E tp)|].
  split; [reflexivity|].
  split; [cbn [flat array1];
          now rewrite length_map, odeint_rows_length, length_map, length_array1_arange|].
  split; [look|]. split; [look|]. split; [look | reflexivity].
Qed.

Lemma simulate_given_initial_condition_witness :
  exists Z info w',
    simulate (H := euler_solver) 180 (VList [0%R; 1%R])
      (constructed scenario_can scenario_force scenario_sim) = (Ok (VArr Z, info), w') /\
    simulate (H := euler_solver) 0 (VList [0%R; 1%R])
      (constructed scenario_can scenario_force scenario_sim)
    = simulate (H := euler_solver) 180 (VList [0%R; 1%R])
        (constructed scenario_can scenario_force scenario_sim) /\
    flat Z = map fst (odeint_rows
                        (dZ_dt (cfg_f0 scenario_can) (cfg_wd scenario_can) (cfg_w0 scenario_can)
                           (q_factor scenario_can) (VNum (trigger scenario_sim))
                           (VNum (tau scenario_force)))
                        (0, 1)
                        (map (fun x => x / sampling_rate scenario_sim)
                           (np_arange (py_int (total_time scenario_sim
                                               * sampling_rate scenario_sim))))) /\
    length (flat Z)
      = Z.to_nat (py_int (total_time scenario_sim * sampling_rate scenario_sim)) /\
    attrs w' !! "t0" = Some (VNum (trigger scenario_sim)) /\
    attrs w' !! "Z0" = Some (VList [0%R; 1%R]) /\
    attrs w' !! "trigger_phase"
      = attrs (constructed scenario_can scenario_force scenario_sim) !! "trigger_phase" /\
    ode_calls w' = S (ode_calls (constructed scenario_can scenario_force scenario_sim)).
Proof.
  apply (simulate_given_initial_condition (H := euler_solver)
           (constructed scenario_can scenario_force scenario_sim)); reflexivity.
Defined.

(** X6. A non-empty tuple is rejected as initial condition, whatever its
    length, and so is a non-empty list of a length other than 2; in both
    cases the instance is left as it was and the integrator is not run. *)
Theorem simulate_rejects_malformed_sequence `{OdeSolver}
    (tp : R) (l : list R) (w : world) (Hne : l <> []) :
  simulate tp (VTuple l) w = (Raise (TypeError "Must be 2-size array or list"), w) /\
  (length l <> 2%nat ->
   simulate tp (VList l) w = (Raise (ValueError "Must specify exactly [z0, v0]"), w)).
Proof.
  assert (Ht : negb (length l =? 0)%nat = true) by (destruct l; [contradiction | reflexivity]).
  split.
  - apply simulate_rejects_type; [|reflexivity].
    cbn [py_truth]. now rewrite Ht.
  - intros Hl. apply (simulate_rejects_length tp w (VList l) (length l));
      [cbn [py_truth]; now rewrite Ht | reflexivity | reflexivity | assumption].
Qed.

Lemma simulate_rejects_malformed_sequence_witness :
  simulate (H := euler_solver) 180 (VTuple [0%R; 1%R; 2%R]) (caller_world class_heap)
    = (Raise (TypeError "Must be 2-size array or list"), caller_world class_heap) /\
  (length [0%R; 1%R; 2%R] <> 2%nat ->
   simulate (H := euler_solver) 180 (VList [0%R; 1%R; 2%R]) (caller_world class_heap)
     = (Raise (ValueError "Must specify exactly [z0, v0]"), caller_world class_heap)).
Proof.
  apply (simulate_rejects_malformed_sequence (H := euler_solver) 180 [0%R; 1%R; 2%R]
           (caller_world class_heap)).
  discriminate.
Defined.

(** ** A simulation does not depend on the runs before it *)

(** X7. The result of a nominal [simulate] call and the attributes it
    leaves do not depend on an earlier [simulate] call on the same
    instance, whatever the trigger phase of that earlier call: each call
    overwrites all the state the previous one stored; only the count of
    integrations keeps growing. *)
Theorem simulate_forgets_previous_run `{OdeSolver}
    (w : world) (T sr rf wd trg dl amp f0 w0 q : R) (tauv : value) (tp1 tp2 : R)
    (A_total_time : attrs w !! "total_time" = Some (VNum T))
    (A_sampling_rate : attrs w !! "sampling_rate" = Some (VNum sr))
    (A_res_freq : attrs w !! "res_freq" = Some (VNum rf))
    (A_wd : attrs w !! "wd" = Some (VNum wd))
    (A_trigger : attrs w !! "trigger" = Some (VNum trg))
    (A_delta : attrs w !! "delta" = Some (VNum dl))
    (A_amp : attrs w !! "amp" = Some (VNum amp))
    (A_tau : attrs w !! "tau" = Some tauv)
    (A_f0 : attrs w !! "f0" = Some (VNum f0))
    (A_w0 : attrs w !! "w0" = Some (VNum w0))
    (A_q : attrs w !! "q_factor" = Some (VNum q))
    (Hrf : rf <> 0) (Hwd : wd <> 0) :
  exists r1 w1 r2 w2 w2',
    simulate tp1 VNone w = (Ok r1, w1) /\
    simulate tp2 VNone w1 = (Ok r2, w2) /\
    simulate tp2 VNone w = (Ok r2, w2') /\
    attrs w2 = attrs w2' /\
    ode_calls w2 = S (S (ode_calls w)).
Proof.
  pose proof (simulate_nominal w T sr rf wd trg dl amp f0 w0 q tauv tp1
                A_total_time A_sampling_rate A_res_freq A_wd A_trigger A_delta A_amp
                A_tau A_f0 A_w0 A_q Hrf Hwd) as E1.
  pose proof (simulate_nominal w T sr rf wd trg dl amp f0 w0 q tauv tp2
                A_total_time A_sampling_rate A_res_freq A_wd A_trigger A_delta A_amp
                A_tau A_f0 A_w0 A_q Hrf Hwd) as E2.
  cbv zeta in E1, E2.
  eexists _, _, _, _, _. split; [exact E1|].
  split; [|split; [exact E2|]].
  - apply (simulate_nominal _ T sr rf wd trg dl amp f0 w0 q tauv tp2);
      try assumption; unfold conditions_attrs; look.
  - split; [|reflexivity]. wsimp. unfold conditions_attrs.
    apply map_eq. intros key. rewrite !lookup_insert.
    repeat (case_decide; [reflexivity|]). reflexivity.
Qed.

Lemma simulate_forgets_previous_run_witness :
  exists r1 w1 r2 w2 w2',
    simulate (H := euler_solver) 0 VNone
      (constructed scenario_can scenario_force scenario_sim) = (Ok r1, w1) /\
    simulate (H := euler_solver) 180 VNone w1 = (Ok r2, w2) /\
    simulate (H := euler_solver) 180 VNone
      (constructed scenario_can scenario_force scenario_sim) = (Ok r2, w2') /\
    attrs w2 = attrs w2' /\
    ode_calls w2 = S (S (ode_calls (constructed scenario_can scenario_force scenario_sim))).
Proof.
  apply (simulate_forgets_previous_run (H := euler_solver)
           (constructed scenario_can scenario_force scenario_sim)
           (total_time scenario_sim) (sampling_rate scenario_sim) (res_freq scenario_can)
           (cfg_wd scenario_can) (trigger scenario_sim) (PI / 2) (cfg_amp scenario_can)
           (cfg_f0 scenario_can) (cfg_w0 scenario_can) (q_factor scenario_can)
           (VNum (tau scenario_force)) 0 180);
    try reflexivity.
  - unfold constructed, instance_world. wsimp.
    rewrite <- (resonance_delta scenario_can) by (simpl; first [lra | reflexivity]).
    reflexivity.
  - simpl. lra.
  - unfold cfg_wd, PI2. simpl. pose proof PI_RGT_0. lra.
Defined.

(** ** What the simulated motion depends on *)

(** X8. The motion that the base class simulates is that of the
    driven oscillator alone: two instances built from the same
    cantilever and simulation parameters and from different force
    parameters ([es_force], [delta_freq], [tau], ...) return the same
    waveform and the same solver report. *)
Theorem simulate_ignores_force_parameters `{OdeSolver}
    (cc : CantileverConfig) (fc fc' : ForceConfig) (sc : SimConfig)
    (lc lf fit lc' lf' fit' : loc) (tp : R) (w w' : world)
    (Hattrs : attrs w = init_attrs cc fc sc lc lf fit)
    (Hattrs' : attrs w' = init_attrs cc fc' sc lc' lf' fit')
    (Hres : res_freq cc <> 0) (Hq : q_factor cc <> 0) (Hdr : drive_freq cc <> 0) :
  exists r w1 w1',
    simulate tp VNone w = (Ok r, w1) /\
    simulate tp VNone w' = (Ok r, w1').
Proof.
  destruct (cfg_delta_fin cc Hres Hq Hdr) as (dl & Hdl & _).
  pose proof PI2_pos as Hpi2.
  assert (Hwd : cfg_wd cc <> 0)
    by (unfold cfg_wd; apply Rmult_integral_contrapositive; split; lra).
  pose proof (simulate_nominal w (total_time sc) (sampling_rate sc) (res_freq cc) (cfg_wd cc)
                (trigger sc) dl (cfg_amp cc) (cfg_f0 cc) (cfg_w0 cc) (q_factor cc)
                (VNum (tau fc)) tp) as E.
  pose proof (simulate_nominal w' (total_time sc) (sampling_rate sc) (res_freq cc) (cfg_wd cc)
                (trigger sc) dl (cfg_amp cc) (cfg_f0 cc) (cfg_w0 cc) (q_factor cc)
                (VNum (tau fc')) tp) as E'.
  cbv zeta in E, E'.
  eexists _, _, _. split.
  - apply E; try assumption; rewrite Hattrs; try rewrite <- Hdl; init_look.
  - rewrite E'; [reflexivity | try assumption ..];
      rewrite Hattrs'; try rewrite <- Hdl; init_look.
Qed.

Lemma simulate_ignores_force_parameters_witness :
  exists r w1 w1',
    simulate (H := euler_solver) 180 VNone
      (constructed scenario_can scenario_force scenario_sim) = (Ok r, w1) /\
    simulate (H := euler_solver) 180 VNone
      (constructed scenario_can
         {| es_force := 0; delta_freq := 0; tau := 1; v_dc := 0; v_ac := 0; v_cpd := 0;
            dCdz := 0 |} scenario_sim) = (Ok r, w1').
Proof.
  apply (simulate_ignores_force_parameters (H := euler_solver) scenario_can scenario_force
           {| es_force := 0; delta_freq := 0; tau := 1; v_dc := 0; v_ac := 0; v_cpd := 0;
              dCdz := 0 |} scenario_sim
           4%positive 5%positive 7%positive 4%positive 5%positive 7%positive 180);
    [reflexivity | reflexivity | simpl; lra ..].
Defined.

Lemma py_slice_lookup {A} (l : list A) (a b : Z) (i : nat) :
  (0 <= a <= b)%Z -> (Z.to_nat b <= length l)%nat -> (i < Z.to_nat (b - a))%nat ->
  py_slice l a b !! i = l !! (Z.to_nat a + i)%nat.
Proof.
  intros Hab Hb Hi. unfold py_slice, slice_bound.
  destruct (a <? 0)%Z eqn:Ea; [apply Z.ltb_lt in Ea; lia|].
  destruct (b <? 0)%Z eqn:Eb; [apply Z.ltb_lt in Eb; lia|].
  rewrite lookup_take_lt by lia. now rewrite lookup_drop, Nat.min_l by lia.
Qed.

Lemma sim_time_lookup T sr rf (i : nat) :
  (i < Z.to_nat (sim_cycle_points sr rf + sim_n_points T sr))%nat ->
  sim_time T sr rf !! i = Some (INR i / sr).
Proof.
  intros Hi. unfold sim_time, np_arange.
  rewrite !list_lookup_fmap, lookup_seq_lt by assumption. reflexivity.
Qed.

(** X9. When one drive period plus one sample fits in the pre-roll,
    the waveform that a nominal [simulate] call returns is a window of the
    integrated series: its sample [i] is the position that the integrator
    returned for the time point [(offset + i) / sampling_rate], where
    [offset = int(t0 * sampling_rate) - int(trigger * sampling_rate)] lies
    in the pre-roll. *)
Theorem simulate_window_contents `{OdeSolver}
    (w : world) (T sr rf wd trg dl amp f0 w0 q : R) (tauv : value) (tp : R)
    (A_total_time : attrs w !! "total_time" = Some (VNum T))
    (A_sampling_rate : attrs w !! "sampling_rate" = Some (VNum sr))
    (A_res_freq : attrs w !! "res_freq" = Some (VNum rf))
    (A_wd : attrs w !! "wd" = Some (VNum wd))
    (A_trigger : attrs w !! "trigger" = Some (VNum trg))
    (A_delta : attrs w !! "delta" = Some (VNum dl))
    (A_amp : attrs w !! "amp" = Some (VNum amp))
    (A_tau : attrs w !! "tau" = Some tauv)
    (A_f0 : attrs w !! "f0" = Some (VNum f0))
    (A_w0 : attrs w !! "w0" = Some (VNum w0))
    (A_q : attrs w !! "q_factor" = Some (VNum q))
    (Hwd : 0 < wd) (Hsr : 0 < sr) (Htrg : 0 <= trg) (Hrf : 0 < rf) (HT : 0 <= T)
    (Hfit : sr * PI2 / wd + 1 <= 2 * sr / rf) :
  let offset := sim_offset tp wd trg dl sr in
  let times := sim_time T sr rf in
  let rows := odeint_rows (dZ_dt f0 wd w0 q (VNum (sim_t0 tp wd trg dl)) tauv)
                (amp * sin (- dl), amp * wd * cos (- dl)) times in
  exists Z info w',
    simulate tp VNone w = (Ok (VArr Z, info), w') /\
    (0 <= offset <= sim_cycle_points sr rf)%Z /\
    forall i, (i < Z.to_nat (py_int (T * sr)))%nat ->
      flat Z !! i = fst <$> rows !! (Z.to_nat offset + i)%nat /\
      times !! (Z.to_nat offset + i)%nat = Some (INR (Z.to_nat offset + i) / sr).
Proof.
  cbv zeta.
  pose proof (simulate_nominal w T sr rf wd trg dl amp f0 w0 q tauv tp
                A_total_time A_sampling_rate A_res_freq A_wd A_trigger A_delta A_amp
                A_tau A_f0 A_w0 A_q) as E.
  cbv zeta in E.
  pose proof (sim_offset_bounds tp wd trg dl sr rf Hwd Hsr Htrg Hrf Hfit) as Hb.
  assert (Hn : (0 <= py_int (T * sr))%Z) by (apply py_int_nonneg; apply Rmult_le_pos; lra).
  eexists _, _, _. split; [apply E; lra|]. split; [exact Hb|].
  intros i Hi. cbn [flat array1].
  assert (Hlen : length (sim_time T sr rf)
                 = Z.to_nat (sim_cycle_points sr rf + sim_n_points T sr)).
  { unfold sim_time. now rewrite length_map, length_array1_arange. }
  unfold sim_n_points in Hlen. split.
  - rewrite list_lookup_fmap. f_equal.
    apply py_slice_lookup.
    + unfold sim_stop, sim_offset, sim_n_points in *. lia.
    + rewrite odeint_rows_length, Hlen.
      unfold sim_stop, sim_offset, sim_n_points in *. lia.
    + unfold sim_stop, sim_offset, sim_n_points in *.
      replace (py_int (sim_t0 tp wd trg dl * sr) + py_int (T * sr) - py_int (trg * sr)
               - (py_int (sim_t0 tp wd trg dl * sr) - py_int (trg * sr)))%Z
        with (py_int (T * sr)) by lia.
      exact Hi.
  - apply sim_time_lookup. unfold sim_n_points. lia.
Qed.

Lemma simulate_window_contents_witness :
  let w := constructed scenario_can scenario_force scenario_sim in
  let offset := sim_offset 180 (cfg_wd scenario_can) (trigger scenario_sim) (PI / 2)
                  (sampling_rate scenario_sim) in
  let times := sim_time (total_time scenario_sim) (sampling_rate scenario_sim)
                 (res_freq scenario_can) in
  let rows := odeint_rows (OdeSolver := euler_solver)
                (dZ_dt (cfg_f0 scenario_can) (cfg_wd scenario_can) (cfg_w0 scenario_can)
                   (q_factor scenario_can)
                   (VNum (sim_t0 180 (cfg_wd scenario_can) (trigger scenario_sim) (PI / 2)))
                   (VNum (tau scenario_force)))
                (cfg_amp scenario_can * sin (- (PI / 2)),
                 cfg_amp scenario_can * cfg_wd scenario_can * cos (- (PI / 2))) times in
  exists Z info w',
    simulate (H := euler_solver) 180 VNone w = (Ok (VArr Z, info), w') /\
    (0 <= offset <= sim_cycle_points (sampling_rate scenario_sim) (res_freq scenario_can))%Z /\
    forall i, (i < Z.to_nat (py_int (total_time scenario_sim * sampling_rate scenario_sim)))%nat ->
      flat Z !! i = fst <$> rows !! (Z.to_nat offset + i)%nat /\
      times !! (Z.to_nat offset + i)%nat = Some (INR (Z.to_nat offset + i) / sampling_rate scenario_sim).
Proof.
  pose proof PI_RGT_0 as Hpi.
  apply (simulate_window_contents (H := euler_solver)
           (constructed scenario_can scenario_force scenario_sim)
           (total_time scenario_sim) (sampling_rate scenario_sim) (res_freq scenario_can)
           (cfg_wd scenario_can) (trigger scenario_sim) (PI / 2) (cfg_amp scenario_can)
           (cfg_f0 scenario_can) (cfg_w0 scenario_can) (q_factor scenario_can)
           (VNum (tau scenario_force)) 180);
    try reflexivity.
  - unfold constructed, instance_world. wsimp.
    rewrite <- (resonance_delta scenario_can) by (simpl; first [lra | reflexivity]).
    reflexivity.
  - unfold cfg_wd, PI2. simpl. lra.
  - simpl. lra.
  - simpl. lra.
  - simpl. lra.
  - simpl. lra.
  - unfold cfg_wd, PI2. simpl.
    replace (10000000 * (2 * PI) / (2 * PI * 277261)) with (10000000 / 277261)
      by (field; lra).
    lra.
Defined.

(** ** downsample: the samples kept, and the failures *)

Lemma lookup_decimate {A} (step : nat) (l : list A) :
  (1 <= step)%nat ->
  forall skip i, decimate step skip l !! i = l !! (skip + i * step)%nat.
Proof.
  intros Hstep. induction l as [|x l IH]; intros skip i; [reflexivity|].
  destruct skip as [|k]; cbn [decimate].
  - destruct i as [|i]; [reflexivity|].
    cbn [lookup list_lookup]. rewrite IH.
    replace (0 + S i * step)%nat with (S (step - 1 + i * step)) by lia.
    reflexivity.
  - rewrite IH. reflexivity.
Qed.

Lemma downsample_step_pos sr target :
  0 < target <= sr -> (0 < py_int (sr / target))%Z.
Proof.
  intros [Ht0 Ht1].
  assert (H1 : 1 <= sr / target).
  { apply (Rmult_le_reg_r target); [lra|]. unfold Rdiv.
    rewrite Rmult_assoc, Rinv_l by lra. lra. }
  rewrite py_int_nonneg_eq by lra.
  pose proof (Int_part_mono 1 (sr / target) H1) as Hm.
  rewrite (Int_part_unique 1 1) in Hm by (simpl; lra). lia.
Qed.

(** X10. When [downsample] returns, row [i] of the stored column is
    sample [i * step] of the previous waveform, divided by [def_invols],
    where [step = int(sampling_rate / target_rate)]. *)
Theorem downsample_picks_every_step
    (w : world) (sr T d target : R) (a : ndarray)
    (Hsr : attrs w !! "sampling_rate" = Some (VNum sr))
    (HT : attrs w !! "total_time" = Some (VNum T))
    (HZ : attrs w !! "Z" = Some (VArr a))
    (Hd : attrs w !! "def_invols" = Some (VNum d))
    (Hshape : shape a = [length (flat a)])
    (Htarget : 0 < target <= sr) (HT0 : 0 <= T)
    (Hcount : length (decimate (Z.to_nat (py_int (sr / target))) 0 (flat a))
              = Z.to_nat (py_int (T * target))) :
  exists w' Z',
    downsample target w = (Ok tt, w') /\
    attrs w' !! "Z" = Some (VArr Z') /\
    forall i, flat Z' !! i
              = (fun x => x / d) <$> flat a !! (i * Z.to_nat (py_int (sr / target)))%nat.
Proof.
  eexists _, _. split; [eapply downsample_returns; eassumption|].
  split; [look|].
  intros i. cbn [arr_div flat]. rewrite list_lookup_fmap, lookup_decimate.
  - reflexivity.
  - pose proof (downsample_step_pos sr target Htarget). lia.
Qed.

Lemma downsample_picks_every_step_witness :
  exists w' Z',
    downsample 500 four_sample_world = (Ok tt, w') /\
    attrs w' !! "Z" = Some (VArr Z') /\
    forall i, flat Z' !! i
              = (fun x => x / 2) <$>
                  flat (array1 [1; 2; 3; 4]) !! (i * Z.to_nat (py_int (1000 / 500)))%nat.
Proof.
  assert (Hstep : py_int (1000 / 500) = 2%Z) by (apply py_int_unique; simpl; lra).
  assert (Hn : py_int (4 / 1000 * 500) = 2%Z) by (apply py_int_unique; simpl; lra).
  apply (downsample_picks_every_step four_sample_world 1000 (4 / 1000) 2 500
           (array1 [1; 2; 3; 4])); try reflexivity; try lra.
  rewrite Hstep, Hn. reflexivity.
Defined.

(** X11. For a one-dimensional waveform of [m] samples and a positive
    target rate not above the sampling rate, [downsample] returns exactly
    when [ceil(m / step)] equals [int(total_time * target_rate)]; otherwise
    the reshape raises and the instance, the stored waveform included, is
    left as it was. *)
Theorem downsample_returns_iff
    (w : world) (sr T d target : R) (a : ndarray)
    (Hsr : attrs w !! "sampling_rate" = Some (VNum sr))
    (HT : attrs w !! "total_time" = Some (VNum T))
    (HZ : attrs w !! "Z" = Some (VArr a))
    (Hd : attrs w !! "def_invols" = Some (VNum d))
    (Hshape : shape a = [length (flat a)])
    (Htarget : 0 < target <= sr) (HT0 : 0 <= T) :
  let step := Z.to_nat (py_int (sr / target)) in
  let n := Z.to_nat (py_int (T * target)) in
  (1 <= step)%nat /\
  (((length (flat a) + step - 1) / step)%nat = n ->
     exists w', downsample target w = (Ok tt, w')) /\
  (((length (flat a) + step - 1) / step)%nat <> n ->
     downsample target w = (Raise (ValueError "cannot reshape array"), w)).
Proof.
  cbv zeta. pose proof (downsample_step_pos sr target Htarget) as Hstep.
  assert (Hlen : length (decimate (Z.to_nat (py_int (sr / target))) 0 (flat a))
                 = ((length (flat a) + Z.to_nat (py_int (sr / target)) - 1)
                    / Z.to_nat (py_int (sr / target)))%nat).
  { rewrite length_decimate by lia. f_equal. lia. }
  split; [lia|]. split.
  - intros Hc. eexists. eapply downsample_returns; try eassumption. now rewrite Hlen.
  - intros Hc. destruct Htarget as [Ht0 Ht1]. unfold downsample.
    erewrite bind_ok by (apply getnum_num; exact Hsr).
    destruct (Rgt_dec target sr) as [Hgt|_]; [exfalso; lra|].
    erewrite bind_ok by reflexivity.
    erewrite bind_ok by (apply py_div_ok; lra).
    erewrite bind_ok by (apply getnum_num; exact HT).
    erewrite bind_ok by (erewrite bind_ok by (apply getattr_some; exact HZ); reflexivity).
    erewrite bind_ok by (apply step_slice_1d; assumption).
    erewrite bind_raise; [reflexivity|].
    unfold arr_reshape_column. cbn [flat array1].
    assert (Hn : (0 <= py_int (T * target))%Z)
      by (apply py_int_nonneg; apply Rmult_le_pos; lra).
    destruct (_ <? 0)%Z eqn:E1; [apply Z.ltb_lt in E1; lia|].
    rewrite bool_decide_false; [reflexivity|]. rewrite Hlen. congruence.
Qed.

Lemma downsample_returns_iff_witness :
  let step := Z.to_nat (py_int (1000 / 300)) in
  let n := Z.to_nat (py_int (4 / 1000 * 300)) in
  (1 <= step)%nat /\
  (((length (flat (array1 [1%R; 2%R; 3%R; 4%R])) + step - 1) / step)%nat = n ->
     exists w', downsample 300 four_sample_world = (Ok tt, w')) /\
  (((length (flat (array1 [1%R; 2%R; 3%R; 4%R])) + step - 1) / step)%nat <> n ->
     downsample 300 four_sample_world
     = (Raise (ValueError "cannot reshape array"), four_sample_world)).
Proof.
  apply (downsample_returns_iff four_sample_world 1000 (4 / 1000) 2 300
           (array1 [1; 2; 3; 4])); try reflexivity; lra.
Defined.

(** *** What downsample leaves alone *)

Lemma readonly_ret {A} (a : A) : readonly (ret a).
Proof. intros w. reflexivity. Qed.

Lemma readonly_raise {A} e : readonly (@raise A e).
Proof. intros w. reflexivity. Qed.

Lemma readonly_bind {A B} (c : M A) (k : A -> M B) :
  readonly c -> (forall a, readonly (k a)) -> readonly (bind c k).
Proof.
  intros Hc Hk w. unfold bind. specialize (Hc w).
  destruct (c w) as [[a|e] w1]; simpl in Hc; subst w1; [apply Hk | reflexivity].
Qed.

Lemma readonly_getattr name : readonly (getattr name).
Proof. intros w. unfold getattr. now destruct (attrs w !! name). Qed.

Lemma readonly_as_num v : readonly (as_num v).
Proof.
  destruct v as [| | |[]| | | | | | | |]; first [apply readonly_ret | apply readonly_raise].
Qed.

Lemma readonly_getnum name : readonly (getnum name).
Proof.
  apply readonly_bind; [apply readonly_getattr | intros; apply readonly_as_num].
Qed.

Lemma readonly_py_div x y : readonly (py_div x y).
Proof.
  unfold py_div. destruct (Req_dec_T y 0); [apply readonly_raise | apply readonly_ret].
Qed.

Lemma readonly_as_array v : readonly (as_array v).
Proof. destruct v; first [apply readonly_ret | apply readonly_raise]. Qed.

Lemma readonly_step_slice a step : readonly (arr_step_slice a step).
Proof.
  unfold arr_step_slice. destruct (shape a); [apply readonly_raise|].
  destruct (step =? 0)%Z; [apply readonly_raise | apply readonly_ret].
Qed.

Lemma readonly_reshape a n : readonly (arr_reshape_column a n).
Proof.
  unfold arr_reshape_column.
  destruct (n <? 0)%Z; [apply readonly_ret|].
  destruct (bool_decide _); [apply readonly_ret | apply readonly_raise].
Qed.

Lemma assigns_after_readonly {A B} name (c : M A) (k : A -> M B) :
  readonly c -> (forall a, assigns_on_success name (k a)) ->
  assigns_on_success name (bind c k).
Proof.
  intros Hc Hk w. unfold bind. specialize (Hc w).
  destruct (c w) as [[a|e] w1]; simpl in Hc; subst w1; [apply Hk|].
  simpl. auto.
Qed.

Lemma assigns_setattr name v : assigns_on_success name (setattr name v).
Proof.
  intros w. unfold setattr, set_attrs. simpl.
  repeat match goal with |- _ /\ _ => split end; try reflexivity.
  - intros key Hkey. now apply lookup_insert_ne.
  - intros e He. discriminate.
Qed.

Lemma downsample_assigns target : assigns_on_success "Z" (downsample target).
Proof.
  unfold downsample.
  apply assigns_after_readonly; [apply readonly_getnum | intros sr].
  apply assigns_after_readonly; [|intros _].
  { destruct (Rgt_dec target sr); [apply readonly_raise | apply readonly_ret]. }
  apply assigns_after_readonly; [apply readonly_py_div | intros ratio].
  apply assigns_after_readonly; [apply readonly_getnum | intros T].
  apply assigns_after_readonly; [|intros Zarr].
  { apply readonly_bind; [apply readonly_getattr | intros; apply readonly_as_array]. }
  apply assigns_after_readonly; [apply readonly_step_slice | intros picked].
  apply assigns_after_readonly; [apply readonly_reshape | intros column].
  apply assigns_after_readonly; [apply readonly_getnum | intros d].
  apply assigns_setattr.
Qed.

(** X12. [downsample] is all-or-nothing: whatever the target rate and
    the state of the instance, a call that raises leaves the instance
    exactly as it was, and a call that returns has changed the stored
    waveform [Z] and nothing else; in particular the attribute
    [sampling_rate] still holds the rate before downsampling. *)
Theorem downsample_all_or_nothing (target : R) (w : world) :
  let outcome := (downsample target w).1 in
  let w' := (downsample target w).2 in
  heap w' = heap w /\ ode_calls w' = ode_calls w /\ stdout w' = stdout w /\
  (forall key, key <> "Z" -> attrs w' !! key = attrs w !! key) /\
  attrs w' !! "sampling_rate" = attrs w !! "sampling_rate" /\
  (forall e, outcome = Raise e -> w' = w).
Proof.
  cbv zeta. destruct (downsample_assigns target w) as (Hh & Ho & Hs & Ha & He).
  repeat match goal with |- _ /\ _ => split end; try assumption.
  apply Ha. clear. discriminate.
Qed.

Lemma init_attrs_no_Z cc fc sc lc lf fit :
  init_attrs cc fc sc lc lf fit !! "Z" = None.
Proof.
  init_chain. repeat (rewrite lookup_insert_ne by (clear; discriminate)).
  apply lookup_empty.
Qed.

(** X13. Two calls that the validation lets through: on an instance
    that has not been simulated, a positive target rate not above the
    sampling rate makes [downsample] raise AttributeError for [Z]; and a
    target rate of zero, with a non-negative sampling rate, makes it
    raise ZeroDivisionError.  Either way the instance is left as it was. *)
Theorem downsample_unguarded_errors
    (cc : CantileverConfig) (fc : ForceConfig) (sc : SimConfig) (lc lf fit : loc)
    (w : world) (target : R)
    (Hattrs : attrs w = init_attrs cc fc sc lc lf fit)
    (Hsr : 0 <= sampling_rate sc) :
  (0 < target <= sampling_rate sc ->
   downsample target w = (Raise (AttributeError "Z"), w)) /\
  downsample 0 w = (Raise ZeroDivisionError, w).
Proof.
  assert (A_sr : attrs w !! "sampling_rate" = Some (VNum (sampling_rate sc)))
    by (rewrite Hattrs; init_look).
  assert (A_T : attrs w !! "total_time" = Some (VNum (total_time sc)))
    by (rewrite Hattrs; init_look).
  split.
  - intros [Ht0 Ht1]. unfold downsample.
    erewrite bind_ok by (apply getnum_num; exact A_sr).
    destruct (Rgt_dec target (sampling_rate sc)) as [Hgt|_]; [exfalso; lra|].
    erewrite bind_ok by reflexivity.
    erewrite bind_ok by (apply py_div_ok; lra).
    erewrite bind_ok by (apply getnum_num; exact A_T).
    erewrite bind_raise; [reflexivity|].
    erewrite bind_raise; [reflexivity|].
    apply getattr_none. rewrite Hattrs. apply init_attrs_no_Z.
  - unfold downsample.
    erewrite bind_ok by (apply getnum_num; exact A_sr).
    destruct (Rgt_dec 0 (sampling_rate sc)) as [Hgt|_]; [exfalso; lra|].
    erewrite bind_ok by reflexivity.
    erewrite bind_raise; [reflexivity|]. apply py_div_zero.
Qed.

Lemma downsample_unguarded_errors_witness :
  (0 < 1000 <= sampling_rate scenario_sim ->
   downsample 1000 (constructed scenario_can scenario_force scenario_sim)
   = (Raise (AttributeError "Z"), constructed scenario_can scenario_force scenario_sim)) /\
  downsample 0 (constructed scenario_can scenario_force scenario_sim)
  = (Raise ZeroDivisionError, constructed scenario_can scenario_force scenario_sim).
Proof.
  apply (downsample_unguarded_errors scenario_can scenario_force scenario_sim
           4%positive 5%positive 7%positive);
    [reflexivity | simpl; lra].
Defined.

(** ** The consolidator: idempotence and the argument dicts *)

Lemma filled_has_all a defaults d key :
  NoDup defaults.*1 -> key ∈ defaults.*1 -> is_Some (filled a defaults d !! key).
Proof.
  intros Hnd Hin. apply list_elem_of_fmap in Hin as ([k0 hard] & -> & Hin).
  cbn [fst]. rewrite (filled_lookup_in a defaults d k0 hard Hnd Hin). eauto.
Qed.

Lemma filled_idem a defaults d :
  NoDup defaults.*1 -> filled a defaults (filled a defaults d) = filled a defaults d.
Proof.
  intros Hnd. apply filled_complete. intros key Hin. now apply filled_has_all.
Qed.

Lemma union_absorb (F B : gmap string value) : F ∪ (F ∪ B) = F ∪ B.
Proof. now rewrite (assoc_L (∪)), (idemp_L (∪)). Qed.

Lemma distinct_six (p c f bp bc bf : loc) :
  List.NoDup [p; c; f; bp; bc; bf] ->
  p <> c /\ p <> f /\ p <> bp /\ p <> bc /\ p <> bf /\ c <> f /\ c <> bp /\
  c <> bc /\ c <> bf /\ f <> bp /\ f <> bc /\ f <> bf /\ bp <> bc /\
  bp <> bf /\ bc <> bf.
Proof.
  intros H.
  repeat match goal with
         | H : List.NoDup (_ :: _) |- _ => inversion H; subst; clear H
         end.
  simpl in *. intuition congruence.
Qed.

(** X14. [create_parameters] is idempotent: on six distinct dict
    objects, a second call with the same three argument dicts returns
    and changes nothing, neither the arguments nor the bundles. *)
Theorem create_parameters_idempotent
    (w : world) (p c f bp bc bf : loc) (dp dc df Bp Bc Bf : gmap string value)
    (Ap : attrs w !! "parameters" = Some (VRef bp))
    (Ac : attrs w !! "can_params" = Some (VRef bc))
    (Af : attrs w !! "fit_params" = Some (VRef bf))
    (Hp : heap w !! p = Some dp) (Hc : heap w !! c = Some dc) (Hf : heap w !! f = Some df)
    (Hbp : heap w !! bp = Some Bp) (Hbc : heap w !! bc = Some Bc)
    (Hbf : heap w !! bf = Some Bf)
    (Hdistinct : List.NoDup [p; c; f; bp; bc; bf]) :
  exists w',
    create_parameters p c f w = (Ok tt, w') /\
    create_parameters p c f w' = (Ok tt, w').
Proof.
  destruct (distinct_six _ _ _ _ _ _ Hdistinct) as (?&?&?&?&?&?&?&?&?&?&?&?&?&?&?).
  eexists. split; [eapply create_parameters_spec; eassumption|].
  erewrite create_parameters_spec; wsimp; try eassumption;
    try (unfold consolidated_heap; hlook; reflexivity).
  f_equal. f_equal. unfold consolidated_heap.
  rewrite !filled_idem
    by first [apply parameters_keys_nodup | apply can_params_keys_nodup
             | apply fit_params_keys_nodup].
  rewrite !union_absorb.
  rewrite (insert_id _ p) by (hlook; reflexivity).
  rewrite (insert_id _ c) by (hlook; reflexivity).
  rewrite (insert_id _ f) by (hlook; reflexivity).
  rewrite (insert_id _ bp) by (hlook; reflexivity).
  rewrite (insert_id _ bc) by (hlook; reflexivity).
  rewrite (insert_id _ bf) by (hlook; reflexivity).
  reflexivity.
Qed.

Lemma create_parameters_idempotent_witness :
  exists w',
    create_parameters 11%positive 12%positive 13%positive consolidating_world = (Ok tt, w') /\
    create_parameters 11%positive 12%positive 13%positive w' = (Ok tt, w').
Proof.
  apply (create_parameters_idempotent consolidating_world
           11%positive 12%positive 13%positive 14%positive 15%positive 16%positive
           (<["roi" := VNum (4 / 1000)]> ∅) ∅ ∅
           (<["es_force" := VNum 1]> (<["roi" := VNum 1]> ∅)) ∅ ∅);
    try reflexivity.
  locs_nodup.
Defined.

(** X15. [create_parameters] writes into the dicts it is passed: when
    it returns, each argument dict holds every recognized key of its
    group, keeps the entries it had, and has no other new key; dict
    objects other than the three arguments and the three bundles are
    untouched. *)
Theorem create_parameters_fills_arguments
    (w : world) (p c f bp bc bf : loc) (dp dc df Bp Bc Bf : gmap string value)
    (Ap : attrs w !! "parameters" = Some (VRef bp))
    (Ac : attrs w !! "can_params" = Some (VRef bc))
    (Af : attrs w !! "fit_params" = Some (VRef bf))
    (Hp : heap w !! p = Some dp) (Hc : heap w !! c = Some dc) (Hf : heap w !! f = Some df)
    (Hbp : heap w !! bp = Some Bp) (Hbc : heap w !! bc = Some Bc)
    (Hbf : heap w !! bf = Some Bf)
    (Hdistinct : List.NoDup [p; c; f; bp; bc; bf]) :
  exists w' dp' dc' df',
    create_parameters p c f w = (Ok tt, w') /\
    heap w' !! p = Some dp' /\ heap w' !! c = Some dc' /\ heap w' !! f = Some df' /\
    dp ⊆ dp' /\ dc ⊆ dc' /\ df ⊆ df' /\
    (forall key, key ∈ _parameters.*1 -> is_Some (dp' !! key)) /\
    (forall key, key ∈ _can_params.*1 -> is_Some (dc' !! key)) /\
    (forall key, key ∈ _fit_params.*1 -> is_Some (df' !! key)) /\
    (forall key, key ∉ _parameters.*1 -> dp' !! key = dp !! key) /\
    (forall key, key ∉ _can_params.*1 -> dc' !! key = dc !! key) /\
    (forall key, key ∉ _fit_params.*1 -> df' !! key = df !! key) /\
    (forall l, l ∉ [p; c; f; bp; bc; bf] -> heap w' !! l = heap w !! l).
Proof.
  destruct (distinct_six _ _ _ _ _ _ Hdistinct) as (?&?&?&?&?&?&?&?&?&?&?&?&?&?&?).
  eexists _, _, _, _. split; [eapply create_parameters_spec; eassumption|]. wsimp.
  unfold consolidated_heap.
  split; [hlook; reflexivity|]. split; [hlook; reflexivity|]. split; [hlook; reflexivity|].
  split; [apply filled_subseteq|]. split; [apply filled_subseteq|].
  split; [apply filled_subseteq|].
  split; [intros; apply filled_has_all; [apply parameters_keys_nodup | assumption]|].
  split; [intros; apply filled_has_all; [apply can_params_keys_nodup | assumption]|].
  split; [intros; apply filled_has_all; [apply fit_params_keys_nodup | assumption]|].
  split; [intros; now apply filled_lookup_notin|].
  split; [intros; now apply filled_lookup_notin|].
  split; [intros; now apply filled_lookup_notin|].
  intros l Hl.
  assert (l <> p /\ l <> c /\ l <> f /\ l <> bp /\ l <> bc /\ l <> bf) as (?&?&?&?&?&?).
  { rewrite !not_elem_of_cons in Hl. intuition. }
  hlook. reflexivity.
Qed.

Lemma create_parameters_fills_arguments_witness :
  exists w' dp' dc' df',
    create_parameters 11%positive 12%positive 13%positive consolidating_world = (Ok tt, w') /\
    heap w' !! 11%positive = Some dp' /\ heap w' !! 12%positive = Some dc' /\
    heap w' !! 13%positive = Some df' /\
    (<["roi" := VNum (4 / 1000)]> ∅ : gmap string value) ⊆ dp' /\
    (∅ : gmap string value) ⊆ dc' /\ (∅ : gmap string value) ⊆ df' /\
    (forall key, key ∈ _parameters.*1 -> is_Some (dp' !! key)) /\
    (forall key, key ∈ _can_params.*1 -> is_Some (dc' !! key)) /\
    (forall key, key ∈ _fit_params.*1 -> is_Some (df' !! key)) /\
    (forall key, key ∉ _parameters.*1 ->
       dp' !! key = (<["roi" := VNum (4 / 1000)]> ∅ : gmap string value) !! key) /\
    (forall key, key ∉ _can_params.*1 -> dc' !! key = (∅ : gmap string value) !! key) /\
    (forall key, key ∉ _fit_params.*1 -> df' !! key = (∅ : gmap string value) !! key) /\
    (forall l, l ∉ [11%positive; 12%positive; 13%positive; 14%positive; 15%positive;
                    16%positive] ->
       heap w' !! l = heap consolidating_world !! l).
Proof.
  apply (create_parameters_fills_arguments consolidating_world
           11%positive 12%positive 13%positive 14%positive 15%positive 16%positive
           (<["roi" := VNum (4 / 1000)]> ∅) ∅ ∅
           (<["es_force" := VNum 1]> (<["roi" := VNum 1]> ∅)) ∅ ∅);
    try reflexivity.
  locs_nodup.
Defined.

(** ** The constructor: the bundle, the failures, the axes *)

Lemma union_lookup_sim_force sc fc key :
  key <> "trigger" -> key <> "total_time" -> key <> "sampling_rate" ->
  force_dict fc !! key = None ->
  (sim_dict sc ∪ force_dict fc) !! key = None.
Proof.
  intros H1 H2 H3 Hf. apply lookup_union_None. split; [|assumption].
  unfold sim_dict. rewrite !lookup_insert_ne by congruence. apply lookup_empty.
Qed.

Lemma init_attrs_absent cc fc sc lc lf fit key :
  key ∈ ["bandpass_filter"; "filter_bandwidth"; "n_taps"; "roi"; "window";
         "wavelet_analysis"; "fft_params"] ->
  init_attrs cc fc sc lc lf fit !! key = None /\
  (sim_dict sc ∪ force_dict fc) !! key = None.
Proof.
  intros Hin.
  repeat (apply elem_of_cons in Hin as [->|Hin];
          [split;
           [init_chain; repeat (rewrite lookup_insert_ne by (clear; discriminate));
            apply lookup_empty
           |apply union_lookup_sim_force; try (clear; discriminate);
            unfold force_dict; repeat (rewrite lookup_insert_ne by (clear; discriminate));
            apply lookup_empty]|]).
  now apply elem_of_nil in Hin.
Qed.

(** X16. When the constructor returns, the parameter bundle handed to
    the analyzer agrees with the simulation: its [drive_freq] is the
    cantilever's, its [sampling_rate], [total_time] and [trigger] are
    those of the simulation parameters, and every other recognized
    analysis key has its hard default. *)
Theorem constructor_bundle_matches_simulation
    (cc : CantileverConfig) (fc : ForceConfig) (sc : SimConfig)
    (h : gmap loc (gmap string value)) (lc lf ls : loc) (dfit : gmap string value)
    (Hc : h !! lc = Some (can_dict cc))
    (Hf : h !! lf = Some (force_dict fc))
    (Hs : h !! ls = Some (sim_dict sc))
    (Hd : h !! default_fit_params = Some dfit)
    (Hlcf : lc <> lf) (Hdc : default_fit_params <> lc) (Hdf : default_fit_params <> lf)
    (Hres : res_freq cc <> 0) (Hq : q_factor cc <> 0) (Hk : k cc <> 0)
    (Hn : 0 <= total_time sc * sampling_rate sc) :
  exists w B,
    __init__ lc lf ls (caller_world h) = (Ok tt, w) /\
    attrs w !! "parameters" = Some (VRef lf) /\
    heap w !! lf = Some B /\
    B !! "drive_freq" = Some (VNum (drive_freq cc)) /\
    B !! "sampling_rate" = Some (VNum (sampling_rate sc)) /\
    B !! "total_time" = Some (VNum (total_time sc)) /\
    B !! "trigger" = Some (VNum (trigger sc)) /\
    (forall key hard, (key, hard) ∈ _parameters ->
       key ∉ ["drive_freq"; "sampling_rate"; "total_time"; "trigger"] ->
       B !! key = Some hard).
Proof.
  destruct (construct_post cc fc sc h lc lf ls dfit Hc Hf Hs Hd Hlcf Hdc Hdf Hres Hq Hk Hn)
    as (w & fit & Hinit & _ & Ha & Hlf & _).
  exists w, (filled (attrs w) _parameters (sim_dict sc ∪ force_dict fc)).
  split; [exact Hinit|]. split; [rewrite Ha; unfold init_attrs; look|].
  split; [exact Hlf|].
  pose proof parameters_keys_nodup as Hnd.
  split.
  { rewrite (filled_lookup_in _ _ _ "drive_freq" (VInt 277261) Hnd) by in_defaults.
    unfold resolve.
    rewrite union_lookup_sim_force
      by first [clear; discriminate
               | unfold force_dict; repeat (rewrite lookup_insert_ne by (clear; discriminate));
                 apply lookup_empty].
    now rewrite Ha, init_attrs_drive_freq. }
  split.
  { rewrite (filled_lookup_in _ _ _ "sampling_rate" (VNum 10000000) Hnd) by in_defaults.
    unfold resolve.
    erewrite lookup_union_Some_l; [reflexivity | unfold sim_dict; look]. }
  split.
  { rewrite (filled_lookup_in _ _ _ "total_time" (VNum (2 / 1000)) Hnd) by in_defaults.
    unfold resolve.
    erewrite lookup_union_Some_l; [reflexivity | unfold sim_dict; look]. }
  split.
  { rewrite (filled_lookup_in _ _ _ "trigger" (VNum (5 / 10000)) Hnd) by in_defaults.
    unfold resolve.
    erewrite lookup_union_Some_l; [reflexivity | unfold sim_dict; look]. }
  intros key hard Hin Hnot.
  rewrite (filled_lookup_in _ _ _ key hard Hnd Hin). unfold resolve.
  assert (Hkey : key ∈ ["bandpass_filter"; "filter_bandwidth"; "n_taps"; "roi"; "window";
                        "wavelet_analysis"; "fft_params"]).
  { rewrite !not_elem_of_cons in Hnot. destruct Hnot as (N1 & N2 & N3 & N4 & _).
    unfold _parameters in Hin.
    repeat (apply elem_of_cons in Hin as [Heq|Hin];
            [injection Heq as -> _;
             first [ contradiction
                   | repeat first [apply list_elem_of_here | apply list_elem_of_further] ]|]).
    now apply elem_of_nil in Hin. }
  destruct (init_attrs_absent cc fc sc lc lf fit key Hkey) as [Hno1 Hno2].
  now rewrite Hno2, Ha, Hno1.
Qed.

Lemma constructor_bundle_matches_simulation_witness :
  exists w B,
    __init__ 4%positive 5%positive 6%positive
      (caller_world (caller_heap scenario_can scenario_force scenario_sim)) = (Ok tt, w) /\
    attrs w !! "parameters" = Some (VRef 5%positive) /\
    heap w !! 5%positive = Some B /\
    B !! "drive_freq" = Some (VNum (drive_freq scenario_can)) /\
    B !! "sampling_rate" = Some (VNum (sampling_rate scenario_sim)) /\
    B !! "total_time" = Some (VNum (total_time scenario_sim)) /\
    B !! "trigger" = Some (VNum (trigger scenario_sim)) /\
    (forall key hard, (key, hard) ∈ _parameters ->
       key ∉ ["drive_freq"; "sampling_rate"; "total_time"; "trigger"] ->
       B !! key = Some hard).
Proof.
  apply (constructor_bundle_matches_simulation scenario_can scenario_force scenario_sim
           (caller_heap scenario_can scenario_force scenario_sim)
           4%positive 5%positive 6%positive ∅);
    try reflexivity; try (clear; discriminate); simpl; lra.
Defined.

(** *** Failures of the constructor *)

(** X17. A resonance frequency, quality factor or spring constant of
    zero makes the constructor raise ZeroDivisionError; the caller's
    dictionaries are then as they were: nothing was written into them. *)
Theorem constructor_zero_division
    (cc : CantileverConfig) (fc : ForceConfig)
    (h : gmap loc (gmap string value)) (lc lf ls : loc)
    (Hc : h !! lc = Some (can_dict cc))
    (Hf : h !! lf = Some (force_dict fc))
    (Hzero : res_freq cc = 0 \/ q_factor cc = 0 \/ k cc = 0) :
  exists w, __init__ lc lf ls (caller_world h) = (Raise ZeroDivisionError, w) /\
            heap w = h.
Proof.
  pose proof PI2_pos as Hpi2.
  unfold __init__, caller_world.
  erewrite bind_ok by (apply setattr_items_ok; exact Hc). wsimp.
  rewrite (right_id_L ∅ (∪)). unfold can_dict.
  step_with getnum_num. step_set.
  step_with getnum_num. step_set.
  step_with getnum_num. step_with getnum_num.
  erewrite bind_ok by apply warn_eq. wsimp.
  step_with getnum_num.
  destruct (Req_dec_T (q_factor cc) 0) as [Hq|Hq].
  { eexists. split.
    - erewrite bind_raise; [reflexivity|].
      replace (2 * q_factor cc) with 0 by (rewrite Hq; ring). apply py_div_zero.
    - reflexivity. }
  erewrite bind_ok by (apply py_div_ok; lra). step_set.
  step_with getnum_num.
  destruct (Req_dec_T (res_freq cc) 0) as [Hres|Hres].
  { eexists. split.
    - erewrite bind_raise; [reflexivity|].
      replace ((PI2 * res_freq cc) ^ 2) with 0 by (rewrite Hres; ring). apply py_div_zero.
    - reflexivity. }
  assert (Hk : k cc = 0) by (destruct Hzero as [?|[?|?]]; [contradiction..|assumption]).
  erewrite bind_ok by (apply py_div_ok; apply (cfg_w0_sq_ne cc Hres)). step_set.
  step_with getnum_num. step_with getnum_num. step_set.
  step_with getnum_num. step_set. step_set.
  erewrite bind_ok by (apply setattr_items_ok; exact Hf). wsimp.
  unfold force_dict. repeat rewrite <- insert_union_l. rewrite (left_id_L ∅ (∪)).
  step_with getnum_num. step_set.
  step_with getnum_num. step_with getnum_num.
  eexists. split.
  - erewrite bind_raise; [reflexivity|].
    replace (k cc / (PI2 * res_freq cc) ^ 2) with 0 by (rewrite Hk; unfold Rdiv; ring).
    apply py_div_zero.
  - reflexivity.
Qed.

Lemma constructor_zero_division_witness :
  exists w,
    __init__ 4%positive 5%positive 6%positive
      (caller_world (caller_heap zero_q_can scenario_force scenario_sim))
    = (Raise ZeroDivisionError, w) /\
    heap w = caller_heap zero_q_can scenario_force scenario_sim.
Proof.
  apply (constructor_zero_division zero_q_can scenario_force
           (caller_heap zero_q_can scenario_force scenario_sim));
    [reflexivity | reflexivity | right; left; reflexivity].
Defined.

(** X18. The constructor does not check its mappings: a cantilever
    mapping without [res_freq] makes it raise AttributeError at the first
    read of that attribute, after the entries of the mapping have been
    copied into the instance and before any dict object is touched. *)
Theorem constructor_missing_key
    (h : gmap loc (gmap string value)) (lc lf ls : loc) (d : gmap string value)
    (Hc : h !! lc = Some d) (Hmissing : d !! "res_freq" = None) :
  __init__ lc lf ls (caller_world h) =
    (Raise (AttributeError "res_freq"), mk_world d h 0 []).
Proof.
  unfold __init__, caller_world.
  erewrite bind_ok by (apply setattr_items_ok; exact Hc). wsimp.
  rewrite (right_id_L ∅ (∪)).
  erewrite bind_raise; [reflexivity|].
  unfold getnum. erewrite bind_raise; [reflexivity|].
  now apply getattr_none.
Qed.

Lemma constructor_missing_key_witness :
  __init__ 4%positive 5%positive 6%positive
    (caller_world (<[4%positive := <["k" := VNum 1]> ∅]> class_heap)) =
    (Raise (AttributeError "res_freq"),
     mk_world (<["k" := VNum 1]> ∅) (<[4%positive := <["k" := VNum 1]> ∅]> class_heap) 0 []).
Proof.
  apply (constructor_missing_key (<[4%positive := <["k" := VNum 1]> ∅]> class_heap)
           4%positive 5%positive 6%positive (<["k" := VNum 1]> ∅));
    reflexivity.
Defined.

(** *** The advisory and the time axis *)

Lemma np_allclose_refl x : np_allclose x x = true.
Proof.
  unfold np_allclose. replace (x - x) with 0 by ring. rewrite Rabs_R0.
  destruct (Rle_dec _ _) as [_|N]; [reflexivity|].
  exfalso. apply N. pose proof (Rabs_pos x). lra.
Qed.

(** X19. The frequency check of the constructor is advisory: the
    constructor returns either way, prints nothing when the drive
    frequency equals the resonance frequency, and prints one line exactly
    when the two angular frequencies differ by more than
    [1e-8 + 1e-5 * |wd|]. *)
Theorem constructor_advisory
    (cc : CantileverConfig) (fc : ForceConfig) (sc : SimConfig)
    (h : gmap loc (gmap string value)) (lc lf ls : loc) (dfit : gmap string value)
    (Hc : h !! lc = Some (can_dict cc))
    (Hf : h !! lf = Some (force_dict fc))
    (Hs : h !! ls = Some (sim_dict sc))
    (Hd : h !! default_fit_params = Some dfit)
    (Hlcf : lc <> lf) (Hdc : default_fit_params <> lc) (Hdf : default_fit_params <> lf)
    (Hres : res_freq cc <> 0) (Hq : q_factor cc <> 0) (Hk : k cc <> 0)
    (Hn : 0 <= total_time sc * sampling_rate sc) :
  exists w,
    __init__ lc lf ls (caller_world h) = (Ok tt, w) /\
    (drive_freq cc = res_freq cc -> stdout w = []) /\
    (Rabs (cfg_w0 cc - cfg_wd cc) <= 1 / 100000000 + 1 / 100000 * Rabs (cfg_wd cc) ->
     stdout w = []) /\
    (1 / 100000000 + 1 / 100000 * Rabs (cfg_wd cc) < Rabs (cfg_w0 cc - cfg_wd cc) ->
     stdout w = [advisory]).
Proof.
  eexists. split; [eapply construct_spec; eassumption|]. wsimp.
  split; [|split].
  - intros Heq. unfold cfg_wd, cfg_w0. rewrite Heq. now rewrite np_allclose_refl.
  - intros Hle. unfold np_allclose.
    destruct (Rle_dec _ _) as [_|N]; [reflexivity | contradiction].
  - intros Hlt. unfold np_allclose.
    destruct (Rle_dec _ _) as [Hle|_]; [exfalso; lra | reflexivity].
Qed.

Lemma constructor_advisory_witness :
  exists w,
    __init__ 4%positive 5%positive 6%positive
      (caller_world (caller_heap scenario_can scenario_force scenario_sim)) = (Ok tt, w) /\
    (drive_freq scenario_can = res_freq scenario_can -> stdout w = []) /\
    (Rabs (cfg_w0 scenario_can - cfg_wd scenario_can)
       <= 1 / 100000000 + 1 / 100000 * Rabs (cfg_wd scenario_can) ->
     stdout w = []) /\
    (1 / 100000000 + 1 / 100000 * Rabs (cfg_wd scenario_can)
       < Rabs (cfg_w0 scenario_can - cfg_wd scenario_can) ->
     stdout w = [advisory]).
Proof.
  apply (constructor_advisory scenario_can scenario_force scenario_sim
           (caller_heap scenario_can scenario_force scenario_sim)
           4%positive 5%positive 6%positive ∅);
    try reflexivity; try (clear; discriminate); simpl; lra.
Defined.

Lemma linspace_lookup a b (num : Z) (i : nat) :
  (i < Z.to_nat num)%nat ->
  linspace_values a b num !! i
  = Some (a + INR i * ((b - a) / IZR (Z.max (num - 1) 1))).
Proof.
  intros Hi. unfold linspace_values.
  rewrite list_lookup_fmap, lookup_seq_lt by assumption. reflexivity.
Qed.

Lemma length_linspace a b num : length (linspace_values a b num) = Z.to_nat num.
Proof. unfold linspace_values. now rewrite length_map, length_seq. Qed.

(** X20. The time axis [t_Z] that the constructor stores has
    [int(total_time * sampling_rate)] points, starts at 0 and, with two
    points or more, ends at [total_time] itself: consecutive points are
    [total_time / (n - 1)] apart, not one sampling period. *)
Theorem constructor_time_axis
    (cc : CantileverConfig) (fc : ForceConfig) (sc : SimConfig)
    (h : gmap loc (gmap string value)) (lc lf ls : loc) (dfit : gmap string value)
    (Hc : h !! lc = Some (can_dict cc))
    (Hf : h !! lf = Some (force_dict fc))
    (Hs : h !! ls = Some (sim_dict sc))
    (Hd : h !! default_fit_params = Some dfit)
    (Hlcf : lc <> lf) (Hdc : default_fit_params <> lc) (Hdf : default_fit_params <> lf)
    (Hres : res_freq cc <> 0) (Hq : q_factor cc <> 0) (Hk : k cc <> 0)
    (Hn : 0 <= total_time sc * sampling_rate sc) :
  let n := py_int (total_time sc * sampling_rate sc) in
  exists w tz,
    __init__ lc lf ls (caller_world h) = (Ok tt, w) /\
    attrs w !! "t_Z" = Some (VArr (array1 tz)) /\
    length tz = Z.to_nat n /\
    ((1 <= n)%Z -> tz !! 0%nat = Some 0) /\
    ((2 <= n)%Z -> tz !! (Z.to_nat n - 1)%nat = Some (total_time sc)) /\
    ((2 <= n)%Z -> forall i x y, tz !! i = Some x -> tz !! S i = Some y ->
                                 y - x = total_time sc / (IZR n - 1)).
Proof.
  cbv zeta. set (n := py_int (total_time sc * sampling_rate sc)).
  eexists _, (linspace_values 0 (total_time sc) n).
  split; [eapply construct_spec; eassumption|]. wsimp.
  split; [init_look|].
  split; [apply length_linspace|].
  split; [|split].
  - intros H1. rewrite linspace_lookup by lia. f_equal. simpl. ring.
  - intros H2. rewrite linspace_lookup by lia. f_equal.
    rewrite Z.max_l by lia.
    replace (INR (Z.to_nat n - 1)) with (IZR (n - 1)).
    + assert (IZR (n - 1) <> 0) by (apply not_0_IZR; lia). field. assumption.
    + rewrite INR_IZR_INZ. f_equal. lia.
  - intros H2 i x y Hx Hy.
    assert (Hi : (S i < Z.to_nat n)%nat).
    { apply lookup_lt_Some in Hy. now rewrite length_linspace in Hy. }
    rewrite linspace_lookup in Hx, Hy by lia. rewrite S_INR in Hy.
    assert (Ex : x = 0 + INR i * ((total_time sc - 0) / IZR (Z.max (n - 1) 1)))
      by congruence.
    assert (Ey : y = 0 + (INR i + 1) * ((total_time sc - 0) / IZR (Z.max (n - 1) 1)))
      by congruence.
    rewrite Ex, Ey.
    rewrite Z.max_l by lia. rewrite minus_IZR.
    assert (IZR n - 1 <> 0).
    { apply IZR_le in H2. lra. }
    field. assumption.
Qed.

Lemma constructor_time_axis_witness :
  let n := py_int (total_time scenario_sim * sampling_rate scenario_sim) in
  exists w tz,
    __init__ 4%positive 5%positive 6%positive
      (caller_world (caller_heap scenario_can scenario_force scenario_sim)) = (Ok tt, w) /\
    attrs w !! "t_Z" = Some (VArr (array1 tz)) /\
    length tz = Z.to_nat n /\
    ((1 <= n)%Z -> tz !! 0%nat = Some 0) /\
    ((2 <= n)%Z -> tz !! (Z.to_nat n - 1)%nat = Some (total_time scenario_sim)) /\
    ((2 <= n)%Z -> forall i x y, tz !! i = Some x -> tz !! S i = Some y ->
                                 y - x = total_time scenario_sim / (IZR n - 1)).
Proof.
  apply (constructor_time_axis scenario_can scenario_force scenario_sim
           (caller_heap scenario_can scenario_force scenario_sim)
           4%positive 5%positive 6%positive ∅);
    try reflexivity; try (clear; discriminate); simpl; lra.
Defined.

(** *** The phase lag *)

(** X21. Whatever the detuning, the phase lag [delta] that the
    constructor stores is a finite number between 0 and a quarter turn:
    the division by zero at resonance is absorbed by [np.divide] and
    [np.arctan], and the absolute value folds the lag of a drive above
    resonance back below [pi / 2]. *)
Theorem constructor_phase_lag_range
    (cc : CantileverConfig) (fc : ForceConfig) (sc : SimConfig)
    (h : gmap loc (gmap string value)) (lc lf ls : loc) (dfit : gmap string value)
    (Hc : h !! lc = Some (can_dict cc))
    (Hf : h !! lf = Some (force_dict fc))
    (Hs : h !! ls = Some (sim_dict sc))
    (Hd : h !! default_fit_params = Some dfit)
    (Hlcf : lc <> lf) (Hdc : default_fit_params <> lc) (Hdf : default_fit_params <> lf)
    (Hres : res_freq cc <> 0) (Hdr : drive_freq cc <> 0)
    (Hq : q_factor cc <> 0) (Hk : k cc <> 0)
    (Hn : 0 <= total_time sc * sampling_rate sc) :
  exists w dl,
    __init__ lc lf ls (caller_world h) = (Ok tt, w) /\
    attrs w !! "delta" = Some (VNum dl) /\
    0 <= dl <= PI / 2 /\
    (res_freq cc < drive_freq cc -> 0 < res_freq cc -> 0 < q_factor cc -> 0 < dl < PI / 2).
Proof.
  destruct (cfg_delta_fin cc Hres Hq Hdr) as (dl & Hdl & Hrange).
  eexists _, dl. split; [eapply construct_spec; eassumption|]. wsimp.
  split; [rewrite <- Hdl; init_look|]. split; [exact Hrange|].
  intros Hlt Hpos Hqpos. pose proof PI2_pos as Hpi2.
  assert (Hw0 : 0 < cfg_w0 cc) by (unfold cfg_w0; apply Rmult_lt_0_compat; lra).
  assert (Hwlt : cfg_w0 cc < cfg_wd cc)
    by (unfold cfg_wd, cfg_w0; apply Rmult_lt_compat_l; lra).
  assert (Hbeta : 0 < cfg_beta cc) by (unfold cfg_beta; apply Rdiv_lt_0_compat; lra).
  unfold cfg_delta, np_divide in Hdl.
  destruct (Req_dec_T (cfg_w0 cc ^ 2 - cfg_wd cc ^ 2) 0) as [E|_]; [nra|].
  set (x := 2 * cfg_wd cc * cfg_beta cc / (cfg_w0 cc ^ 2 - cfg_wd cc ^ 2)) in *.
  assert (Edl : dl = Rabs (atan x))
    by (change (Fin (Rabs (atan x)) = Fin dl) in Hdl; congruence).
  rewrite Edl.
  assert (Hx : x < 0).
  { assert (Hden : cfg_w0 cc ^ 2 - cfg_wd cc ^ 2 < 0) by nra.
    assert (Hnum : 0 < 2 * cfg_wd cc * cfg_beta cc)
      by (apply Rmult_lt_0_compat; [lra | assumption]).
    assert (Hopp : 0 < - x).
    { replace (- x) with (2 * cfg_wd cc * cfg_beta cc / - (cfg_w0 cc ^ 2 - cfg_wd cc ^ 2))
        by (unfold x; field; lra).
      apply Rdiv_lt_0_compat; lra. }
    lra. }
  pose proof (atan_bound x) as [B1 B2].
  assert (Hneg : atan x < 0) by (rewrite <- atan_0; now apply atan_increasing).
  rewrite Rabs_left by assumption. lra.
Qed.

Lemma constructor_phase_lag_range_witness :
  exists w dl,
    __init__ 4%positive 5%positive 6%positive
      (caller_world (caller_heap fast_drive_can scenario_force slow_drive_sim)) = (Ok tt, w) /\
    attrs w !! "delta" = Some (VNum dl) /\
    0 <= dl <= PI / 2 /\
    (res_freq fast_drive_can < drive_freq fast_drive_can -> 0 < res_freq fast_drive_can ->
     0 < q_factor fast_drive_can -> 0 < dl < PI / 2).
Proof.
  apply (constructor_phase_lag_range fast_drive_can scenario_force slow_drive_sim
           (caller_heap fast_drive_can scenario_force slow_drive_sim)
           4%positive 5%positive 6%positive ∅);
    try reflexivity; try (clear; discriminate); simpl; lra.
Defined.
(** ** analyze *)

Lemma bind_ret_tt {B} (k : unit -> M B) w : bind (ret tt) k w = k tt w.
Proof. reflexivity. Qed.

Lemma route_kwargs_filter p c f kwargs w :
  route_kwargs p c f kwargs w
  = route_kwargs p c f (filter (fun kv => recognized kv = true) kwargs) w.
Proof.
  revert w. induction kwargs as [|[k0 v0] rest IH]; intros w; [reflexivity|].
  destruct (recognized (k0, v0)) eqn:ER.
  - rewrite filter_cons_True by exact ER. cbn [route_kwargs].
    unfold bind.
    destruct ((if bool_decide (k0 ∈ param_keys) then dict_setitem p k0 v0
               else if bool_decide (k0 ∈ can_param_keys) then dict_setitem c k0 v0
               else if bool_decide (k0 ∈ fit_param_keys) then dict_setitem f k0 v0
               else ret tt) w) as [[[]|e] w1]; [apply IH | reflexivity].
  - rewrite filter_cons_False by (rewrite ER; discriminate). cbn [route_kwargs].
    unfold recognized in ER. cbn [fst] in ER.
    apply orb_false_iff in ER as [ER E3]. apply orb_false_iff in ER as [E1 E2].
    rewrite E1, E2, E3. rewrite bind_ret_tt. apply IH.
Qed.

Lemma bind_ext {A B} (c : M A) (k1 k2 : A -> M B) w :
  (forall a w', k1 a w' = k2 a w') -> bind c k1 w = bind c k2 w.
Proof. intros Hk. unfold bind. destruct (c w) as [[a|e] w1]; [apply Hk | reflexivity]. Qed.

(** X22. [analyze] drops every keyword that none of its three
    allow-lists names: a call behaves, in outcome and in final state, as
    the call without those keywords. *)
Theorem analyze_drops_unknown_keywords `{PixelClass}
    (plot : bool) (kwargs : list (string * value)) (w : world) :
  analyze plot kwargs w
  = analyze plot (filter (fun kv => recognized kv = true) kwargs) w.
Proof.
  unfold analyze.
  apply bind_ext. intros p w1. apply bind_ext. intros c w2.
  apply bind_ext. intros f w3.
  unfold bind at 1. symmetry. unfold bind at 1. symmetry.
  now rewrite <- route_kwargs_filter.
Qed.

(** *** The routing loop *)

Lemma routed_params_cons d k0 v0 rest :
  routed_params d ((k0, v0) :: rest)
  = routed_params (if bool_decide (k0 ∈ param_keys) then <[k0 := v0]> d else d) rest.
Proof. reflexivity. Qed.

Lemma routed_can_params_cons d k0 v0 rest :
  routed_can_params d ((k0, v0) :: rest)
  = routed_can_params (if bool_decide (k0 ∈ param_keys) then d
                       else if bool_decide (k0 ∈ can_param_keys) then <[k0 := v0]> d
                       else d) rest.
Proof. reflexivity. Qed.

Lemma routed_fit_params_cons d k0 v0 rest :
  routed_fit_params d ((k0, v0) :: rest)
  = routed_fit_params (if bool_decide (k0 ∈ param_keys) then d
                       else if bool_decide (k0 ∈ can_param_keys) then d
                       else if bool_decide (k0 ∈ fit_param_keys) then <[k0 := v0]> d
                       else d) rest.
Proof. reflexivity. Qed.

Lemma route_kwargs_spec p c f kwargs :
  p <> c -> p <> f -> c <> f ->
  forall w dp dc df,
    heap w !! p = Some dp -> heap w !! c = Some dc -> heap w !! f = Some df ->
    exists w',
      route_kwargs p c f kwargs w = (Ok tt, w') /\
      attrs w' = attrs w /\ ode_calls w' = ode_calls w /\ stdout w' = stdout w /\
      heap w' !! p = Some (routed_params dp kwargs) /\
      heap w' !! c = Some (routed_can_params dc kwargs) /\
      heap w' !! f = Some (routed_fit_params df kwargs) /\
      (forall l, l <> p -> l <> c -> l <> f -> heap w' !! l = heap w !! l).
Proof.
  intros Hpc Hpf Hcf.
  induction kwargs as [|[k0 v0] rest IH]; intros w dp dc df Hp Hc Hf.
  { exists w. repeat match goal with |- _ /\ _ => split end; auto. }
  cbn [route_kwargs].
  rewrite routed_params_cons, routed_can_params_cons, routed_fit_params_cons.
  destruct (bool_decide (k0 ∈ param_keys)) eqn:E1;
    [|destruct (bool_decide (k0 ∈ can_param_keys)) eqn:E2;
      [|destruct (bool_decide (k0 ∈ fit_param_keys)) eqn:E3]].
  - erewrite bind_ok by (apply dict_setitem_ok; exact Hp).
    edestruct (IH (mk_world (attrs w) (<[p := <[k0 := v0]> dp]> (heap w))
                            (ode_calls w) (stdout w)))
      as (w' & Hr & Ha & Ho & Hs & Lp & Lc & Lf & Hfr);
      [wsimp; apply lookup_insert_eq
      | wsimp; rewrite lookup_insert_ne by congruence; exact Hc
      | wsimp; rewrite lookup_insert_ne by congruence; exact Hf |].
    exists w'. repeat match goal with |- _ /\ _ => split end; try assumption.
    intros l N1 N2 N3. rewrite Hfr by assumption. wsimp.
    now rewrite lookup_insert_ne by congruence.
  - erewrite bind_ok by (apply dict_setitem_ok; exact Hc).
    edestruct (IH (mk_world (attrs w) (<[c := <[k0 := v0]> dc]> (heap w))
                            (ode_calls w) (stdout w)))
      as (w' & Hr & Ha & Ho & Hs & Lp & Lc & Lf & Hfr);
      [wsimp; rewrite lookup_insert_ne by congruence; exact Hp
      | wsimp; apply lookup_insert_eq
      | wsimp; rewrite lookup_insert_ne by congruence; exact Hf |].
    exists w'. repeat match goal with |- _ /\ _ => split end; try assumption.
    intros l N1 N2 N3. rewrite Hfr by assumption. wsimp.
    now rewrite lookup_insert_ne by congruence.
  - erewrite bind_ok by (apply dict_setitem_ok; exact Hf).
    edestruct (IH (mk_world (attrs w) (<[f := <[k0 := v0]> df]> (heap w))
                            (ode_calls w) (stdout w)))
      as (w' & Hr & Ha & Ho & Hs & Lp & Lc & Lf & Hfr);
      [wsimp; rewrite lookup_insert_ne by congruence; exact Hp
      | wsimp; rewrite lookup_insert_ne by congruence; exact Hc
      | wsimp; apply lookup_insert_eq |].
    exists w'. repeat match goal with |- _ /\ _ => split end; try assumption.
    intros l N1 N2 N3. rewrite Hfr by assumption. wsimp.
    now rewrite lookup_insert_ne by congruence.
  - rewrite bind_ret_tt. now apply IH.
Qed.

(** A keyword that is passed reaches the dict of its group. *)
Lemma routed_params_notin d kwargs key :
  key ∉ kwargs.*1 -> routed_params d kwargs !! key = d !! key.
Proof.
  revert d. induction kwargs as [|[k0 v0] rest IH]; intros d Hnot; [reflexivity|].
  rewrite routed_params_cons. cbn [fmap list_fmap fst] in Hnot.
  apply not_elem_of_cons in Hnot as [Hne Hnot]. rewrite IH by assumption.
  destruct (bool_decide _); [now rewrite lookup_insert_ne by congruence | reflexivity].
Qed.

Lemma routed_can_params_notin d kwargs key :
  key ∉ kwargs.*1 -> routed_can_params d kwargs !! key = d !! key.
Proof.
  revert d. induction kwargs as [|[k0 v0] rest IH]; intros d Hnot; [reflexivity|].
  rewrite routed_can_params_cons. cbn [fmap list_fmap fst] in Hnot.
  apply not_elem_of_cons in Hnot as [Hne Hnot]. rewrite IH by assumption.
  repeat (destruct (bool_decide _); try reflexivity).
  now rewrite lookup_insert_ne by congruence.
Qed.

Lemma routed_fit_params_notin d kwargs key :
  key ∉ kwargs.*1 -> routed_fit_params d kwargs !! key = d !! key.
Proof.
  revert d. induction kwargs as [|[k0 v0] rest IH]; intros d Hnot; [reflexivity|].
  rewrite routed_fit_params_cons. cbn [fmap list_fmap fst] in Hnot.
  apply not_elem_of_cons in Hnot as [Hne Hnot]. rewrite IH by assumption.
  repeat (destruct (bool_decide _); try reflexivity).
  now rewrite lookup_insert_ne by congruence.
Qed.

Lemma routed_params_in d kwargs key v :
  NoDup kwargs.*1 -> (key, v) ∈ kwargs -> key ∈ param_keys ->
  routed_params d kwargs !! key = Some v.
Proof.
  revert d. induction kwargs as [|[k0 v0] rest IH]; intros d Hnd Hin Hkey.
  { now apply elem_of_nil in Hin. }
  cbn [fmap list_fmap fst] in Hnd. apply NoDup_cons in Hnd as [Hk0 Hnd].
  rewrite routed_params_cons.
  apply elem_of_cons in Hin as [Heq|Hin].
  - injection Heq as -> ->. rewrite routed_params_notin by assumption.
    rewrite bool_decide_true by assumption. apply lookup_insert_eq.
  - now apply IH.
Qed.

Lemma can_key_not_param key : key ∈ can_param_keys -> key ∉ param_keys.
Proof.
  intros Hin. unfold can_param_keys in Hin.
  repeat (apply elem_of_cons in Hin as [->|Hin];
          [unfold param_keys; rewrite !not_elem_of_cons;
           repeat split; try (clear; discriminate); apply not_elem_of_nil|]).
  now apply elem_of_nil in Hin.
Qed.

Lemma fit_key_not_param key : key ∈ fit_param_keys -> key ∉ param_keys.
Proof.
  intros Hin. unfold fit_param_keys in Hin.
  repeat (apply elem_of_cons in Hin as [->|Hin];
          [unfold param_keys; rewrite !not_elem_of_cons;
           repeat split; try (clear; discriminate); apply not_elem_of_nil|]).
  now apply elem_of_nil in Hin.
Qed.

Lemma fit_key_not_can key : key ∈ fit_param_keys -> key ∉ can_param_keys.
Proof.
  intros Hin. unfold fit_param_keys in Hin.
  repeat (apply elem_of_cons in Hin as [->|Hin];
          [unfold can_param_keys; rewrite !not_elem_of_cons;
           repeat split; try (clear; discriminate); apply not_elem_of_nil|]).
  now apply elem_of_nil in Hin.
Qed.

Lemma routed_can_params_in d kwargs key v :
  NoDup kwargs.*1 -> (key, v) ∈ kwargs -> key ∈ can_param_keys ->
  routed_can_params d kwargs !! key = Some v.
Proof.
  revert d. induction kwargs as [|[k0 v0] rest IH]; intros d Hnd Hin Hkey.
  { now apply elem_of_nil in Hin. }
  cbn [fmap list_fmap fst] in Hnd. apply NoDup_cons in Hnd as [Hk0 Hnd].
  rewrite routed_can_params_cons.
  apply elem_of_cons in Hin as [Heq|Hin].
  - injection Heq as -> ->. rewrite routed_can_params_notin by assumption.
    rewrite bool_decide_false by now apply can_key_not_param.
    rewrite bool_decide_true by assumption. apply lookup_insert_eq.
  - now apply IH.
Qed.

Lemma routed_fit_params_in d kwargs key v :
  NoDup kwargs.*1 -> (key, v) ∈ kwargs -> key ∈ fit_param_keys ->
  routed_fit_params d kwargs !! key = Some v.
Proof.
  revert d. induction kwargs as [|[k0 v0] rest IH]; intros d Hnd Hin Hkey.
  { now apply elem_of_nil in Hin. }
  cbn [fmap list_fmap fst] in Hnd. apply NoDup_cons in Hnd as [Hk0 Hnd].
  rewrite routed_fit_params_cons.
  apply elem_of_cons in Hin as [Heq|Hin].
  - injection Heq as -> ->. rewrite routed_fit_params_notin by assumption.
    rewrite bool_decide_false by now apply fit_key_not_param.
    rewrite bool_decide_false by now apply fit_key_not_can.
    rewrite bool_decide_true by assumption. apply lookup_insert_eq.
  - now apply IH.
Qed.

Lemma fresh_insert_ne (h : gmap loc (gmap string value)) l d :
  fresh (dom (<[l := d]> h)) <> l.
Proof. apply (fresh_loc_ne _ _ d). apply lookup_insert_eq. Qed.

Section AnalyzeEffects.
Context `{PixelClass}.
Variables (w : world) (bp bc bf : loc) (Bp Bc Bf : gmap string value).
Variables (plot : bool) (kwargs : list (string * value)).
Hypothesis Ap : attrs w !! "parameters" = Some (VRef bp).
Hypothesis Ac : attrs w !! "can_params" = Some (VRef bc).
Hypothesis Af : attrs w !! "fit_params" = Some (VRef bf).
Hypothesis Hbp : heap w !! bp = Some Bp.
Hypothesis Hbc : heap w !! bc = Some Bc.
Hypothesis Hbf : heap w !! bf = Some Bf.
Hypothesis Hdistinct : List.NoDup [bp; bc; bf].

Lemma analyze_effects :
  exists w',
    analyze plot kwargs w
    = (match attrs w !! "Z" with
       | Some z =>
           pixel_calls plot (heap w') z (VRef bp) (VRef bc)
             (filled (attrs w) _fit_params (routed_fit_params ∅ kwargs) ∪ Bf)
       | None => Raise (AttributeError "Z")
       end, w') /\
    attrs w' = attrs w /\
    heap w' !! bp
      = Some (filled (attrs w) _parameters (routed_params ∅ kwargs) ∪ Bp) /\
    heap w' !! bc
      = Some (filled (attrs w) _can_params (routed_can_params ∅ kwargs) ∪ Bc) /\
    heap w' !! bf
      = Some (filled (attrs w) _fit_params (routed_fit_params ∅ kwargs) ∪ Bf) /\
    (forall l d, heap w !! l = Some d -> l <> bp -> l <> bc -> l <> bf ->
                 heap w' !! l = Some d).
Proof.
  assert (bp <> bc /\ bp <> bf /\ bc <> bf) as (Nbpc & Nbpf & Nbcf).
  { repeat match goal with
           | H : List.NoDup (_ :: _) |- _ => inversion H; subst; clear H
           end.
    simpl in *. intuition congruence. }
  unfold analyze.
  erewrite bind_ok by apply new_dict_eq. wsimp.
  set (p := fresh (dom (heap w))).
  erewrite bind_ok by apply new_dict_eq. wsimp.
  set (h1 := <[p := ∅]> (heap w)).
  set (c := fresh (dom h1)).
  erewrite bind_ok by apply new_dict_eq. wsimp.
  set (h2 := <[c := ∅]> h1).
  set (f := fresh (dom h2)).
  assert (Np : forall l d, heap w !! l = Some d -> p <> l)
    by (intros l d Hl; apply (fresh_loc_ne _ _ _ Hl)).
  assert (Ncp : c <> p) by apply fresh_insert_ne.
  assert (Nc : forall l d, heap w !! l = Some d -> c <> l).
  { intros l d Hl. apply (fresh_loc_ne h1 l d). unfold h1.
    rewrite lookup_insert_ne by (eapply Np; eassumption). exact Hl. }
  assert (Nfc : f <> c) by apply fresh_insert_ne.
  assert (Nfp : f <> p).
  { apply (fresh_loc_ne h2 p ∅). unfold h2, h1.
    rewrite lookup_insert_ne by congruence. apply lookup_insert_eq. }
  assert (Nf : forall l d, heap w !! l = Some d -> f <> l).
  { intros l d Hl. apply (fresh_loc_ne h2 l d). unfold h2, h1.
    rewrite lookup_insert_ne by (eapply Nc; eassumption).
    rewrite lookup_insert_ne by (eapply Np; eassumption). exact Hl. }
  set (w3 := mk_world (attrs w) (<[f := ∅]> h2) (ode_calls w) (stdout w)).
  destruct (route_kwargs_spec p c f kwargs) with (w := w3) (dp := (∅ : gmap string value))
      (dc := (∅ : gmap string value)) (df := (∅ : gmap string value))
    as (w4 & Hr & Ha4 & Ho4 & Hs4 & Lp & Lc & Lf & Hfr); try congruence.
  { unfold w3, h2, h1. wsimp. rewrite !lookup_insert_ne by congruence.
    apply lookup_insert_eq. }
  { unfold w3, h2. wsimp. rewrite lookup_insert_ne by congruence. apply lookup_insert_eq. }
  { unfold w3. wsimp. apply lookup_insert_eq. }
  erewrite bind_ok by exact Hr.
  assert (Hold : forall l d, heap w !! l = Some d -> heap w4 !! l = Some d).
  { intros l d Hl. rewrite Hfr.
    - unfold w3, h2, h1. wsimp.
      rewrite lookup_insert_ne by (eapply Nf; eassumption).
      rewrite lookup_insert_ne by (eapply Nc; eassumption).
      rewrite lookup_insert_ne by (eapply Np; eassumption). exact Hl.
    - apply not_eq_sym. eapply Np; eassumption.
    - apply not_eq_sym. eapply Nc; eassumption.
    - apply not_eq_sym. eapply Nf; eassumption. }
  assert (Hsix : List.NoDup [p; c; f; bp; bc; bf]).
  { pose proof (Np _ _ Hbp). pose proof (Np _ _ Hbc). pose proof (Np _ _ Hbf).
    pose proof (Nc _ _ Hbp). pose proof (Nc _ _ Hbc). pose proof (Nc _ _ Hbf).
    pose proof (Nf _ _ Hbp). pose proof (Nf _ _ Hbc). pose proof (Nf _ _ Hbf).
    apply NoDup_ListNoDup.
    repeat (apply NoDup_cons_2;
            [rewrite ?not_elem_of_cons; repeat split; try congruence; apply not_elem_of_nil|]).
    apply NoDup_nil_2. }
  destruct (distinct_six _ _ _ _ _ _ Hsix) as (?&?&?&?&?&?&?&?&?&?&?&?&?&?&?).
  erewrite bind_ok; cycle 1.
  { eapply (create_parameters_spec w4 p c f bp bc bf); try eassumption;
      try (rewrite Ha4; assumption); apply Hold; eassumption. }
  set (w5 := mk_world _ _ _ _).
  assert (Ha5 : attrs w5 = attrs w) by (unfold w5; wsimp; exact Ha4).
  assert (Lbf : heap w5 !! bf
                = Some (filled (attrs w) _fit_params (routed_fit_params ∅ kwargs) ∪ Bf))
    by (unfold w5, consolidated_heap; wsimp; rewrite Ha4; apply lookup_insert_eq).
  exists w5. split.
  - destruct (attrs w !! "Z") as [z|] eqn:EZ.
    + erewrite bind_ok by (apply getattr_some; rewrite Ha5; exact EZ).
      erewrite bind_ok by (apply getattr_some; rewrite Ha5; exact Ap).
      erewrite bind_ok by (apply getattr_some; rewrite Ha5; exact Ac).
      erewrite bind_ok by (apply getattr_some; rewrite Ha5; exact Af).
      erewrite bind_ok by reflexivity.
      erewrite bind_ok by (apply deref_some; exact Lbf).
      unfold pixel_calls, bind, external.
      destruct (pixel_new _ _ _ _ _) as [pix|e]; [|reflexivity].
      destruct (pixel_analyze pix) as [[]|e]; [|reflexivity].
      destruct plot; [|reflexivity].
      destruct (pixel_plot pix) as [[]|e]; reflexivity.
    + erewrite bind_raise; [reflexivity|].
      apply getattr_none. rewrite Ha5. exact EZ.
  - split; [exact Ha5|]. unfold w5, consolidated_heap. wsimp. rewrite Ha4.
    split; [hlook; reflexivity|]. split; [hlook; reflexivity|].
    split; [hlook; reflexivity|].
    intros l d Hl N1 N2 N3.
    pose proof (Np _ _ Hl). pose proof (Nc _ _ Hl). pose proof (Nf _ _ Hl).
    hlook. now apply Hold.
Qed.

End AnalyzeEffects.

Lemma param_keys_defaults : param_keys = _parameters.*1.
Proof. reflexivity. Qed.

Lemma can_param_keys_defaults : can_param_keys = _can_params.*1.
Proof. reflexivity. Qed.

Lemma fit_param_keys_defaults : fit_param_keys = _fit_params.*1.
Proof. reflexivity. Qed.

Lemma bundle_lookup_override a defaults d (B : gmap string value) key v :
  NoDup defaults.*1 -> key ∈ defaults.*1 -> d !! key = Some v ->
  (filled a defaults d ∪ B) !! key = Some v.
Proof.
  intros Hnd Hin Hd. apply list_elem_of_fmap in Hin as ([k0 hard] & -> & Hin).
  cbn [fst] in *. rewrite (bundle_lookup_recognized a defaults d B k0 hard Hnd Hin).
  unfold resolve. now rewrite Hd.
Qed.

Lemma bundle_lookup_default a defaults d (B : gmap string value) key hard :
  NoDup defaults.*1 -> (key, hard) ∈ defaults -> d !! key = None ->
  (filled a defaults d ∪ B) !! key = Some (default hard (a !! key)).
Proof.
  intros Hnd Hin Hd. rewrite (bundle_lookup_recognized a defaults d B key hard Hnd Hin).
  unfold resolve. rewrite Hd. now destruct (a !! key).
Qed.

Ltac keys_nodup :=
  cbn [fmap list_fmap fst];
  repeat (apply NoDup_cons_2; [not_in_list|]); apply NoDup_nil_2.

Section AnalyzeBundles.
Context `{PixelClass}.
Variables (w : world) (bp bc bf : loc) (Bp Bc Bf : gmap string value).
Variables (plot : bool) (kwargs : list (string * value)).
Hypothesis Ap : attrs w !! "parameters" = Some (VRef bp).
Hypothesis Ac : attrs w !! "can_params" = Some (VRef bc).
Hypothesis Af : attrs w !! "fit_params" = Some (VRef bf).
Hypothesis Hbp : heap w !! bp = Some Bp.
Hypothesis Hbc : heap w !! bc = Some Bc.
Hypothesis Hbf : heap w !! bf = Some Bf.
Hypothesis Hdistinct : List.NoDup [bp; bc; bf].
Hypothesis Hkeys : NoDup kwargs.*1.

Lemma analyze_bundles :
  exists w' Bp' Bc' Bf',
    analyze plot kwargs w
    = (match attrs w !! "Z" with
       | Some z => pixel_calls plot (heap w') z (VRef bp) (VRef bc) Bf'
       | None => Raise (AttributeError "Z")
       end, w') /\
    attrs w' = attrs w /\
    heap w' !! bp = Some Bp' /\ heap w' !! bc = Some Bc' /\ heap w' !! bf = Some Bf' /\
    (forall key v, (key, v) ∈ kwargs ->
       (key ∈ param_keys -> Bp' !! key = Some v) /\
       (key ∈ can_param_keys -> Bc' !! key = Some v) /\
       (key ∈ fit_param_keys -> Bf' !! key = Some v)) /\
    (forall key hard, key ∉ kwargs.*1 ->
       ((key, hard) ∈ _parameters -> Bp' !! key = Some (default hard (attrs w !! key))) /\
       ((key, hard) ∈ _can_params -> Bc' !! key = Some (default hard (attrs w !! key))) /\
       ((key, hard) ∈ _fit_params -> Bf' !! key = Some (default hard (attrs w !! key)))) /\
    (forall l d, heap w !! l = Some d -> l <> bp -> l <> bc -> l <> bf ->
                 heap w' !! l = Some d).
Proof.
  destruct (analyze_effects w bp bc bf Bp Bc Bf plot kwargs Ap Ac Af Hbp Hbc Hbf Hdistinct)
    as (w' & Hrun & Ha & Lp & Lc & Lf & Hfr).
  eexists w', _, _, _. split; [exact Hrun|]. split; [exact Ha|].
  split; [exact Lp|]. split; [exact Lc|]. split; [exact Lf|].
  split; [|split; [|exact Hfr]].
  - intros key v Hin. split; [|split]; intros Hkey.
    + apply bundle_lookup_override;
        [apply parameters_keys_nodup | now rewrite <- param_keys_defaults
        | now apply routed_params_in].
    + apply bundle_lookup_override;
        [apply can_params_keys_nodup | now rewrite <- can_param_keys_defaults
        | now apply routed_can_params_in].
    + apply bundle_lookup_override;
        [apply fit_params_keys_nodup | now rewrite <- fit_param_keys_defaults
        | now apply routed_fit_params_in].
  - intros key hard Hnot. split; [|split]; intros Hin.
    + apply bundle_lookup_default;
        [apply parameters_keys_nodup | assumption
        | rewrite routed_params_notin by assumption; apply lookup_empty].
    + apply bundle_lookup_default;
        [apply can_params_keys_nodup | assumption
        | rewrite routed_can_params_notin by assumption; apply lookup_empty].
    + apply bundle_lookup_default;
        [apply fit_params_keys_nodup | assumption
        | rewrite routed_fit_params_notin by assumption; apply lookup_empty].
Qed.

End AnalyzeBundles.

(** X23. On an instance that holds a waveform, [analyze] first
    consolidates: a recognized keyword has the value passed, in the
    bundle of its group, and a recognized key that is not passed has the
    value of the instance attribute of that name, else its hard default;
    the dicts it fills are fresh ones, so that no dict object that existed
    before the call, the shared defaults of [create_parameters] included,
    is touched, except the three bundles.  Then it builds the Pixel from
    the stored waveform, the two bundles and the entries of the
    consolidated fit bundle, calls its [analyze] and, if [plot] is set,
    its [plot]: an exception of any of these calls is the outcome of
    [analyze], with the bundles left consolidated; when they return,
    [analyze] returns the Pixel; with [plot] unset, [plot] is not called. *)
Theorem analyze_overrides `{PixelClass}
    (w : world) (bp bc bf : loc) (Bp Bc Bf : gmap string value)
    (plot : bool) (kwargs : list (string * value)) (z : value)
    (Ap : attrs w !! "parameters" = Some (VRef bp))
    (Ac : attrs w !! "can_params" = Some (VRef bc))
    (Af : attrs w !! "fit_params" = Some (VRef bf))
    (Hbp : heap w !! bp = Some Bp) (Hbc : heap w !! bc = Some Bc)
    (Hbf : heap w !! bf = Some Bf)
    (Hdistinct : List.NoDup [bp; bc; bf])
    (Hkeys : NoDup kwargs.*1)
    (HZ : attrs w !! "Z" = Some z) :
  exists result w' Bp' Bc' Bf',
    analyze plot kwargs w = (result, w') /\
    attrs w' = attrs w /\
    heap w' !! bp = Some Bp' /\ heap w' !! bc = Some Bc' /\ heap w' !! bf = Some Bf' /\
    (forall key v, (key, v) ∈ kwargs ->
       (key ∈ param_keys -> Bp' !! key = Some v) /\
       (key ∈ can_param_keys -> Bc' !! key = Some v) /\
       (key ∈ fit_param_keys -> Bf' !! key = Some v)) /\
    (forall key hard, key ∉ kwargs.*1 ->
       ((key, hard) ∈ _parameters -> Bp' !! key = Some (default hard (attrs w !! key))) /\
       ((key, hard) ∈ _can_params -> Bc' !! key = Some (default hard (attrs w !! key))) /\
       ((key, hard) ∈ _fit_params -> Bf' !! key = Some (default hard (attrs w !! key)))) /\
    (forall l d, heap w !! l = Some d -> l <> bp -> l <> bc -> l <> bf ->
                 heap w' !! l = Some d) /\
    let built := pixel_new (heap w') z (VRef bp) (VRef bc) Bf' in
    (forall e, built = Raise e -> result = Raise e) /\
    (forall pix e, built = Ok pix -> pixel_analyze pix = Raise e -> result = Raise e) /\
    (forall pix e, built = Ok pix -> pixel_analyze pix = Ok tt -> plot = true ->
       pixel_plot pix = Raise e -> result = Raise e) /\
    (forall pix, built = Ok pix -> pixel_analyze pix = Ok tt ->
       (plot = true -> pixel_plot pix = Ok tt) -> result = Ok pix).
Proof.
  destruct (analyze_bundles w bp bc bf Bp Bc Bf plot kwargs Ap Ac Af Hbp Hbc Hbf
              Hdistinct Hkeys)
    as (w' & Bp' & Bc' & Bf' & Hrun & Ha & L1 & L2 & L3 & Hov & Hdef & Hfr).
  rewrite HZ in Hrun.
  exists (pixel_calls plot (heap w') z (VRef bp) (VRef bc) Bf'), w', Bp', Bc', Bf'.
  do 8 (split; [assumption|]). cbv zeta. split; [|split; [|split]].
  - intros e He. unfold pixel_calls. now rewrite He.
  - intros pix e Hb He. unfold pixel_calls. now rewrite Hb, He.
  - intros pix e Hb Han -> He. unfold pixel_calls. now rewrite Hb, Han, He.
  - intros pix Hb Han Hplot. unfold pixel_calls. rewrite Hb, Han.
    destruct plot; [|reflexivity]. now rewrite Hplot.
Qed.

Lemma analyze_overrides_witness :
  let kwargs := [("roi", VNum (4 / 1000)); ("q_factor", VInt 100); ("colour", VNone)] in
  exists result w' Bp' Bc' Bf',
    analyze (H := stub_pixel) true kwargs analysed_world = (result, w') /\
    attrs w' = attrs analysed_world /\
    heap w' !! 14%positive = Some Bp' /\ heap w' !! 15%positive = Some Bc' /\
    heap w' !! 16%positive = Some Bf' /\
    (forall key v, (key, v) ∈ kwargs ->
       (key ∈ param_keys -> Bp' !! key = Some v) /\
       (key ∈ can_param_keys -> Bc' !! key = Some v) /\
       (key ∈ fit_param_keys -> Bf' !! key = Some v)) /\
    (forall key hard, key ∉ kwargs.*1 ->
       ((key, hard) ∈ _parameters ->
        Bp' !! key = Some (default hard (attrs analysed_world !! key))) /\
       ((key, hard) ∈ _can_params ->
        Bc' !! key = Some (default hard (attrs analysed_world !! key))) /\
       ((key, hard) ∈ _fit_params ->
        Bf' !! key = Some (default hard (attrs analysed_world !! key)))) /\
    (forall l d, heap analysed_world !! l = Some d ->
                 l <> 14%positive -> l <> 15%positive -> l <> 16%positive ->
                 heap w' !! l = Some d) /\
    let built := pixel_new (PixelClass := stub_pixel) (heap w') (VArr (array1 [1; 2]))
                   (VRef 14%positive) (VRef 15%positive) Bf' in
    (forall e, built = Raise e -> result = Raise e) /\
    (forall pix e, built = Ok pix ->
       pixel_analyze (PixelClass := stub_pixel) pix = Raise e -> result = Raise e) /\
    (forall pix e, built = Ok pix ->
       pixel_analyze (PixelClass := stub_pixel) pix = Ok tt -> true = true ->
       pixel_plot (PixelClass := stub_pixel) pix = Raise e -> result = Raise e) /\
    (forall pix, built = Ok pix ->
       pixel_analyze (PixelClass := stub_pixel) pix = Ok tt ->
       (true = true -> pixel_plot (PixelClass := stub_pixel) pix = Ok tt) ->
       result = Ok pix).
Proof.
  cbv zeta.
  apply (analyze_overrides (H := stub_pixel)
           analysed_world 14%positive 15%positive 16%positive
           (<["es_force" := VNum 1]> (<["roi" := VNum 1]> ∅)) ∅ ∅ true
           [("roi", VNum (4 / 1000)); ("q_factor", VInt 100); ("colour", VNone)]
           (VArr (array1 [1; 2])));
    try reflexivity; [locs_nodup | keys_nodup].
Defined.

(** X24. On an instance that holds no waveform, [analyze] raises
    AttributeError for [Z], but only after the consolidation: the bundles
    have already taken the keywords of the failed call. *)
Theorem analyze_without_waveform `{PixelClass}
    (w : world) (bp bc bf : loc) (Bp Bc Bf : gmap string value)
    (plot : bool) (kwargs : list (string * value))
    (Ap : attrs w !! "parameters" = Some (VRef bp))
    (Ac : attrs w !! "can_params" = Some (VRef bc))
    (Af : attrs w !! "fit_params" = Some (VRef bf))
    (Hbp : heap w !! bp = Some Bp) (Hbc : heap w !! bc = Some Bc)
    (Hbf : heap w !! bf = Some Bf)
    (Hdistinct : List.NoDup [bp; bc; bf])
    (Hkeys : NoDup kwargs.*1)
    (HZ : attrs w !! "Z" = None) :
  exists w' Bp' Bc' Bf',
    analyze plot kwargs w = (Raise (AttributeError "Z"), w') /\
    heap w' !! bp = Some Bp' /\ heap w' !! bc = Some Bc' /\ heap w' !! bf = Some Bf' /\
    (forall key v, (key, v) ∈ kwargs ->
       (key ∈ param_keys -> Bp' !! key = Some v) /\
       (key ∈ can_param_keys -> Bc' !! key = Some v) /\
       (key ∈ fit_param_keys -> Bf' !! key = Some v)).
Proof.
  destruct (analyze_bundles w bp bc bf Bp Bc Bf plot kwargs Ap Ac Af Hbp Hbc Hbf
              Hdistinct Hkeys) as (w' & Bp' & Bc' & Bf' & Hrun & _ & L1 & L2 & L3 & Hov & _).
  rewrite HZ in Hrun.
  exists w', Bp', Bc', Bf'. auto.
Qed.

Lemma analyze_without_waveform_witness :
  let kwargs := [("roi", VNum (4 / 1000))] in
  exists w' Bp' Bc' Bf',
    analyze (H := stub_pixel) true kwargs consolidating_world
    = (Raise (AttributeError "Z"), w') /\
    heap w' !! 14%positive = Some Bp' /\ heap w' !! 15%positive = Some Bc' /\
    heap w' !! 16%positive = Some Bf' /\
    (forall key v, (key, v) ∈ kwargs ->
       (key ∈ param_keys -> Bp' !! key = Some v) /\
       (key ∈ can_param_keys -> Bc' !! key = Some v) /\
       (key ∈ fit_param_keys -> Bf' !! key = Some v)).
Proof.
  cbv zeta.
  apply (analyze_without_waveform (H := stub_pixel)
           consolidating_world 14%positive 15%positive 16%positive
           (<["es_force" := VNum 1]> (<["roi" := VNum 1]> ∅)) ∅ ∅ true
           [("roi", VNum (4 / 1000))]);
    try reflexivity; [locs_nodup | keys_nodup].
Defined.
(** ** The per-line fan-out: overwriting, failures, columns *)

Lemma np_split_columns_length (a : ndarray) (n : Z) pixels :
  np_split_columns a n = Ok pixels -> length pixels = Z.to_nat n.
Proof.
  unfold np_split_columns.
  destruct (shape a) as [|nrow [|ncol [|]]]; try discriminate.
  destruct (n =? 0)%Z; [discriminate|].
  destruct (negb _); [discriminate|].
  destruct (n <? 0)%Z; [discriminate|].
  intros Heq. inversion Heq. now rewrite length_map, length_seq.
Qed.

Section LineRuns.
Context `{PixelAnalyzer}.

Lemma get_tfp_run (l : line) pixels results :
  np_split_columns (signal_array l) (n_pixels l) = Ok pixels ->
  analyzer_results pixels (params l) = Some results ->
  length (tfp l) = Z.to_nat (n_pixels l) ->
  length (shift l) = Z.to_nat (n_pixels l) ->
  get_tfp l =
    (Ok (map fst results, map snd results),
     mk_line (signal_array l) (n_pixels l) (params l) (map fst results) (map snd results)).
Proof.
  intros Hsplit Hres Ht Hs.
  pose proof (np_split_columns_length _ _ _ Hsplit) as Hlen.
  destruct (analyse_pixels_spec pixels results 0%nat l Hres) as
    (l' & Hrun & Htfp & Hshift & Hp & Hsig & Hn); [lia | lia |].
  unfold get_tfp. rewrite Hsplit, Hrun.
  rewrite take_0, drop_ge, app_nil_r in Htfp by lia.
  rewrite take_0, drop_ge, app_nil_r in Hshift by lia.
  cbn [app] in Htfp, Hshift.
  destruct l' as [sig' n' p' tfp' shift']. cbn in *. subst. reflexivity.
Qed.

Lemma analyse_pixels_fail (j : nat) :
  forall pixels pix e results i l,
    pixels !! j = Some pix ->
    pixel_get_tfp pix (params l) = Raise e ->
    analyzer_results (take j pixels) (params l) = Some results ->
    (i + j <= length (tfp l))%nat -> (i + j <= length (shift l))%nat ->
    exists l',
      analyse_pixels i pixels l = (Raise e, l') /\
      tfp l' = (take i (tfp l) ++ map fst results ++ drop (i + j) (tfp l))%list /\
      shift l' = (take i (shift l) ++ map snd results ++ drop (i + j) (shift l))%list /\
      params l' = params l /\ signal_array l' = signal_array l /\ n_pixels l' = n_pixels l.
Proof.
  induction j as [|j IH]; intros pixels pix e results i l Hj Hfail Hres Ht Hs.
  - destruct pixels as [|p0 rest]; [discriminate|]. cbn in Hj. injection Hj as ->.
    cbn in Hres. injection Hres as <-.
    exists l. cbn [analyse_pixels]. rewrite Hfail.
    rewrite Nat.add_0_r. cbn [map app]. rewrite !take_drop.
    repeat match goal with |- _ /\ _ => split end; reflexivity.
  - destruct pixels as [|p0 rest]; [discriminate|]. cbn in Hj.
    cbn [take analyzer_results] in Hres.
    destruct (pixel_get_tfp p0 (params l)) as [[t s]|e0] eqn:Ep; [|discriminate].
    destruct (analyzer_results (take j rest) (params l)) as [rs|] eqn:Ers; [|discriminate].
    injection Hres as <-.
    cbn [analyse_pixels]. rewrite Ep.
    rewrite setitem_ok by lia. cbn [shift]. rewrite setitem_ok by lia.
    cbn [signal_array n_pixels params tfp].
    edestruct (IH rest pix e rs (S i)
                 (mk_line (signal_array l) (n_pixels l) (params l)
                    (<[i := t]> (tfp l)) (<[i := s]> (shift l))))
      as (l' & Hrun & Htfp & Hshift & Hp & Hsig & Hn).
    { exact Hj. }
    { exact Hfail. }
    { exact Ers. }
    { cbn [tfp]. rewrite length_insert. lia. }
    { cbn [shift]. rewrite length_insert. lia. }
    cbn [tfp shift params signal_array n_pixels] in *.
    exists l'. split; [exact Hrun|].
    split; [|split; [|auto]].
    + rewrite Htfp. cbn [map fst app].
      rewrite (take_S_r _ _ t) by (apply list_lookup_insert_eq; lia).
      rewrite take_insert_ge by lia. rewrite drop_insert_lt by lia.
      rewrite <- app_assoc. cbn [app]. do 3 f_equal. f_equal. lia.
    + rewrite Hshift. cbn [map snd app].
      rewrite (take_S_r _ _ s) by (apply list_lookup_insert_eq; lia).
      rewrite take_insert_ge by lia. rewrite drop_insert_lt by lia.
      rewrite <- app_assoc. cbn [app]. do 3 f_equal. f_equal. lia.
Qed.

End LineRuns.

(** X25. [get_tfp] overwrites every entry of the two result arrays:
    what it returns does not depend on the content the arrays had (the
    unspecified content that [np.empty] leaves), and calling it again
    returns the same arrays and leaves the line as it is. *)
Theorem get_tfp_overwrites_arrays `{PixelAnalyzer}
    (signal : ndarray) (n : Z) (p : gmap string value) (tfp0 shift0 : list R)
    (pixels : list ndarray) (results : list (R * R))
    (Hsplit : np_split_columns signal n = Ok pixels)
    (Hres : analyzer_results pixels p = Some results)
    (Htfp : length tfp0 = Z.to_nat n) (Hshift : length shift0 = Z.to_nat n) :
  exists l',
    get_tfp (mk_line signal n p tfp0 shift0)
      = (Ok (map fst results, map snd results), l') /\
    tfp l' = map fst results /\ shift l' = map snd results /\
    get_tfp l' = (Ok (map fst results, map snd results), l').
Proof.
  pose proof (np_split_columns_length _ _ _ Hsplit) as Hlen.
  pose proof (analyzer_results_length _ _ _ Hres) as Hrl.
  assert (H1 : length (map fst results) = Z.to_nat n) by (rewrite length_map; lia).
  assert (H2 : length (map snd results) = Z.to_nat n) by (rewrite length_map; lia).
  exists (mk_line signal n p (map fst results) (map snd results)).
  split; [exact (get_tfp_run (mk_line signal n p tfp0 shift0) pixels results
                   Hsplit Hres Htfp Hshift)|].
  split; [reflexivity|]. split; [reflexivity|].
  exact (get_tfp_run (mk_line signal n p (map fst results) (map snd results))
           pixels results Hsplit Hres H1 H2).
Qed.

Lemma get_tfp_overwrites_arrays_witness :
  exists l',
    get_tfp (H := counting_analyzer) (mk_line example_signal 2 ∅ [7; 8] [9; 10])
      = (Ok (map fst [(1, INR 4); (3, INR 4)], map snd [(1, INR 4); (3, INR 4)]), l') /\
    tfp l' = map fst [(1, INR 4); (3, INR 4)] /\
    shift l' = map snd [(1, INR 4); (3, INR 4)] /\
    get_tfp (H := counting_analyzer) l'
      = (Ok (map fst [(1, INR 4); (3, INR 4)], map snd [(1, INR 4); (3, INR 4)]), l').
Proof.
  apply (get_tfp_overwrites_arrays (H := counting_analyzer) example_signal 2 ∅
           [7; 8] [9; 10]
           [column_block example_signal 2 4 0 2; column_block example_signal 2 4 2 2]);
    reflexivity.
Defined.

(** X26. A pixel count that does not fit the line: zero makes
    [get_tfp] raise ZeroDivisionError, a non-zero count that does not
    divide the number of columns makes it raise ValueError, both with the
    line left as it was and no pixel analysed; a negative count is
    refused when the line is built. *)
Theorem line_rejects_bad_pixel_count `{PixelAnalyzer}
    (l : line) (nrow ncol : nat)
    (Hshape : shape (signal_array l) = [nrow; ncol]) :
  (n_pixels l = 0%Z -> get_tfp l = (Raise ZeroDivisionError, l)) /\
  (n_pixels l <> 0%Z -> (Z.of_nat ncol mod n_pixels l)%Z <> 0%Z ->
   get_tfp l
   = (Raise (ValueError "array split does not result in an equal division"), l)) /\
  (forall p, (n_pixels l < 0)%Z ->
     Line (signal_array l) (n_pixels l) p
     = Raise (ValueError "negative dimensions are not allowed")).
Proof.
  split; [|split].
  - intros Hz. unfold get_tfp, np_split_columns. rewrite Hshape, Hz. reflexivity.
  - intros Hnz Hmod. unfold get_tfp, np_split_columns. rewrite Hshape.
    apply Z.eqb_neq in Hnz, Hmod. now rewrite Hnz, Hmod.
  - intros p Hneg. unfold Line, np_empty.
    apply Z.ltb_lt in Hneg. now rewrite Hneg.
Qed.

Lemma line_rejects_bad_pixel_count_witness :
  let l := mk_line three_columns 2 ∅ [0; 0] [0; 0] in
  (n_pixels l = 0%Z -> get_tfp (H := counting_analyzer) l = (Raise ZeroDivisionError, l)) /\
  (n_pixels l <> 0%Z -> (Z.of_nat 3 mod n_pixels l)%Z <> 0%Z ->
   get_tfp (H := counting_analyzer) l
   = (Raise (ValueError "array split does not result in an equal division"), l)) /\
  (forall p, (n_pixels l < 0)%Z ->
     Line (signal_array l) (n_pixels l) p
     = Raise (ValueError "negative dimensions are not allowed")).
Proof.
  apply (line_rejects_bad_pixel_count (H := counting_analyzer)
           (mk_line three_columns 2 ∅ [0; 0] [0; 0]) 1 3).
  reflexivity.
Defined.

(** X27. When the analyzer raises on pixel [j], [get_tfp] lets the
    exception through with the results of the pixels before [j] already
    written into the two arrays, the entries from [j] on being as they
    were. *)
Theorem get_tfp_analyzer_failure `{PixelAnalyzer}
    (l : line) (pixels : list ndarray) (j : nat) (pix : ndarray) (e : exn)
    (results : list (R * R))
    (Hsplit : np_split_columns (signal_array l) (n_pixels l) = Ok pixels)
    (Hj : pixels !! j = Some pix)
    (Hfail : pixel_get_tfp pix (params l) = Raise e)
    (Hres : analyzer_results (take j pixels) (params l) = Some results)
    (Htfp : length (tfp l) = Z.to_nat (n_pixels l))
    (Hshift : length (shift l) = Z.to_nat (n_pixels l)) :
  exists l',
    get_tfp l = (Raise e, l') /\
    tfp l' = (map fst results ++ drop j (tfp l))%list /\
    shift l' = (map snd results ++ drop j (shift l))%list /\
    length results = j.
Proof.
  pose proof (np_split_columns_length _ _ _ Hsplit) as Hlen.
  pose proof (lookup_lt_Some _ _ _ Hj) as Hlt.
  destruct (analyse_pixels_fail j pixels pix e results 0%nat l Hj Hfail Hres)
    as (l' & Hrun & Ht & Hs & _); [lia | lia |].
  exists l'. unfold get_tfp. rewrite Hsplit, Hrun.
  split; [reflexivity|]. rewrite take_0 in Ht, Hs. cbn [app] in Ht, Hs.
  split; [exact Ht|]. split; [exact Hs|].
  rewrite (analyzer_results_length _ _ _ Hres), length_take. lia.
Qed.

Lemma get_tfp_analyzer_failure_witness :
  let l := mk_line example_signal 2 ∅ [7; 8] [9; 10] in
  exists l',
    get_tfp (H := picky_analyzer) l = (Raise (ValueError "no peak"), l') /\
    tfp l' = (map fst [(1, INR 4)] ++ drop 1 (tfp l))%list /\
    shift l' = (map snd [(1, INR 4)] ++ drop 1 (shift l))%list /\
    length [(1, INR 4)] = 1%nat.
Proof.
  cbv zeta.
  apply (get_tfp_analyzer_failure (H := picky_analyzer)
           (mk_line example_signal 2 ∅ [7; 8] [9; 10])
           [column_block example_signal 2 4 0 2; column_block example_signal 2 4 2 2]
           1 (column_block example_signal 2 4 2 2)); try reflexivity.
  - cbn. destruct (Req_dec_T 3 3) as [_|N]; [reflexivity | now elim N].
  - cbn. destruct (Req_dec_T 1 3) as [E|_]; [exfalso; lra | reflexivity].
Defined.

(** *** Where each sample of the line goes *)

Lemma length_chunks {A} (n c : nat) (l : list A) : length (chunks n c l) = n.
Proof. revert l. induction n as [|n IH]; intros l; [reflexivity|]. cbn. now rewrite IH. Qed.

Lemma chunks_lookup {A} (n c : nat) (l : list A) (r : nat) :
  (r < n)%nat -> chunks n c l !! r = Some (take c (drop (r * c) l)).
Proof.
  revert l r. induction n as [|n IH]; intros l r Hr; [lia|].
  destruct r as [|r]; cbn [chunks].
  - reflexivity.
  - cbn [lookup list_lookup]. rewrite IH by lia. rewrite drop_drop.
    do 3 f_equal.
Qed.

Lemma concat_lookup_uniform {A} (rows : list (list A)) (w r c : nat) :
  (forall row, row ∈ rows -> length row = w) -> (c < w)%nat ->
  concat rows !! (r * w + c)%nat = rows !! r ≫= (fun row => row !! c).
Proof.
  revert r. induction rows as [|row rest IH]; intros r Hall Hc.
  { cbn. now destruct r. }
  assert (Hrow : length row = w) by (apply Hall; apply list_elem_of_here).
  assert (Hrest : forall row', row' ∈ rest -> length row' = w)
    by (intros row' Hin; apply Hall; now apply list_elem_of_further).
  cbn [concat]. destruct r as [|r].
  - cbn. apply lookup_app_l. lia.
  - rewrite lookup_app_r by lia.
    change ((row :: rest) !! S r) with (rest !! r).
    rewrite <- (IH r Hrest Hc). f_equal. lia.
Qed.

Lemma column_block_lookup (a : ndarray) (nrow ncol from width r c : nat) :
  length (flat a) = (nrow * ncol)%nat -> (from + width <= ncol)%nat ->
  (r < nrow)%nat -> (c < width)%nat ->
  flat (column_block a nrow ncol from width) !! (r * width + c)%nat
  = flat a !! (r * ncol + (from + c))%nat.
Proof.
  intros Hlen Hfit Hr Hc. unfold column_block. cbn [flat].
  rewrite (concat_lookup_uniform _ width).
  - rewrite list_lookup_fmap, chunks_lookup by assumption. cbn.
    rewrite lookup_take_lt by assumption. rewrite lookup_drop.
    rewrite lookup_take_lt by lia. now rewrite lookup_drop.
  - intros row Hin. apply list_elem_of_fmap in Hin as (row0 & -> & Hin).
    apply list_elem_of_lookup in Hin as (i & Hi).
    assert (Hlt : (i < nrow)%nat).
    { apply lookup_lt_Some in Hi. now rewrite length_chunks in Hi. }
    rewrite chunks_lookup in Hi by assumption. injection Hi as <-.
    rewrite length_take, length_drop, length_take, length_drop, Hlen. nia.
  - assumption.
Qed.

(** X28. The split of [get_tfp] hands every sample of the line to
    exactly the pixel of its column: with [width = ncol / n_pixels], the
    sample in row [r] and column [c] of the signal array is the sample in
    row [r] and column [c mod width] of segment number [c / width]. *)
Theorem split_sends_column_to_its_pixel
    (signal : ndarray) (nrow ncol : nat) (n : Z) (pixels : list ndarray) (r c : nat)
    (Hshape : shape signal = [nrow; ncol])
    (Hsize : length (flat signal) = (nrow * ncol)%nat)
    (Hsplit : np_split_columns signal n = Ok pixels)
    (Hr : (r < nrow)%nat) (Hc : (c < ncol)%nat) :
  let width := (ncol / Z.to_nat n)%nat in
  exists pix,
    pixels !! (c / width)%nat = Some pix /\
    shape pix = [nrow; width] /\
    flat pix !! (r * width + c mod width)%nat = flat signal !! (r * ncol + c)%nat.
Proof.
  cbv zeta. unfold np_split_columns in Hsplit. rewrite Hshape in Hsplit.
  destruct (n =? 0)%Z eqn:E0; [discriminate|]. apply Z.eqb_neq in E0.
  destruct (Z.of_nat ncol mod n =? 0)%Z eqn:Em; [|discriminate]. apply Z.eqb_eq in Em.
  cbn [negb] in Hsplit.
  destruct (n <? 0)%Z eqn:En; [discriminate|]. apply Z.ltb_ge in En.
  injection Hsplit as <-.
  set (k := Z.to_nat n). set (w := (ncol / k)%nat).
  assert (Hk : (0 < k)%nat) by (unfold k; lia).
  assert (Hdiv : (ncol = k * w)%nat).
  { assert (Hz : (Z.of_nat ncol mod Z.of_nat k = 0)%Z) by (unfold k; rewrite Z2Nat.id; lia).
    assert (Hm : (ncol mod k = 0)%nat).
    { apply Nat2Z.inj. rewrite Nat2Z.inj_mod. exact Hz. }
    unfold w. pose proof (Nat.div_mod_eq ncol k). lia. }
  assert (Hw : (0 < w)%nat) by (destruct w; [lia | lia]).
  assert (Hq : (c / w < k)%nat) by (apply Nat.Div0.div_lt_upper_bound; lia).
  exists (column_block signal nrow ncol (c / w * w) w).
  split.
  { rewrite list_lookup_fmap, lookup_seq_lt by assumption. reflexivity. }
  split; [reflexivity|].
  rewrite column_block_lookup; try assumption.
  - f_equal. pose proof (Nat.div_mod_eq c w). lia.
  - assert ((c / w + 1) * w <= k * w)%nat by (apply Nat.mul_le_mono_r; lia). lia.
  - apply Nat.mod_upper_bound. lia.
Qed.

Lemma split_sends_column_to_its_pixel_witness :
  let width := (4 / Z.to_nat 2)%nat in
  exists pix,
    [column_block example_signal 2 4 0 2; column_block example_signal 2 4 2 2]
      !! (3 / width)%nat = Some pix /\
    shape pix = [2%nat; width] /\
    flat pix !! (1 * width + 3 mod width)%nat = flat example_signal !! (1 * 4 + 3)%nat.
Proof.
  apply (split_sends_column_to_its_pixel example_signal 2 4 2
           [column_block example_signal 2 4 0 2; column_block example_signal 2 4 2 2] 1 3);
    try reflexivity; lia.
Defined.

(** ** The lengths of the waveforms *)




